(** * aethercast: the w11tng network manager (src/w11tng/networkmanager.cpp)

    A shallow embedding of [w11tng::NetworkManager], the session state
    machine that drives a WiFi Direct connection from discovery to an
    assigned address, and the properties of it that the specification
    states.

    The manager is single threaded and event driven: every member function
    runs to completion on the main loop.  A member function is embedded as
    a computation in a small state-and-fault monad over the manager's
    fields; a call on a null [shared_ptr] ends the computation with
    [NullDeref].  Calls that leave the manager (to the P2P device stub, to
    the delegate, to the driver, ...) are appended to the field [calls]. *)

From Stdlib Require Import String List Bool Arith ZArith Lia.
From stdpp Require Import base option list strings.
Import ListNotations.

Local Open Scope string_scope.
Local Open Scope list_scope.

(** ** Enumerations *)

(** Modelled from the spec: [mcs::NetworkDeviceState] (declared in
    mcs/networkdevice.h, outside networkmanager.cpp); the spec lists the
    states a device can be in as Disconnected, Association, Configuration,
    Connected and Failure. *)
Inductive NetworkDeviceState : Set :=
  | kDisconnected
  | kAssociation
  | kConfiguration
  | kConnected
  | kFailure.

#[global] Instance NetworkDeviceState_eq_dec : EqDecision NetworkDeviceState.
Proof. solve_decision. Defined.

(** [a == b] on states. *)
Definition state_eqb (a b : NetworkDeviceState) : bool :=
  match a, b with
  | kDisconnected, kDisconnected
  | kAssociation, kAssociation
  | kConfiguration, kConfiguration
  | kConnected, kConnected
  | kFailure, kFailure => true
  | _, _ => false
  end.

(** Modelled from the spec: [NetworkManager::Capability]; the capability set
    ranges over Source and Sink. *)
Module Capability.

Inductive t : Set := kSource | kSink.

#[global] Instance eq_dec : EqDecision t.
Proof. solve_decision. Defined.

Definition eqb (a b : t) : bool :=
  match a, b with
  | kSource, kSource | kSink, kSink => true
  | _, _ => false
  end.

End Capability.

(** Modelled from the spec: [DeviceType] of informationelement.h; the spec
    names the WFD device types PrimarySink, Source, DualRole and Undefined. *)
Module DeviceType.

Inductive t : Set := kSource | kPrimarySink | kDualRole | kUndefined.

#[global] Instance eq_dec : EqDecision t.
Proof. solve_decision. Defined.

End DeviceType.

(** Modelled from the spec: [MiracastMode] (declared in networkmanager.h);
    networkmanager.cpp sends the driver the modes [Off] and [Source]. *)
Module MiracastMode.

Inductive t : Set := Off | Source.

End MiracastMode.

(** A local variable of type [A]: C++ leaves a local of enumeration type
    without initialiser indeterminate until it is assigned. *)
Inductive Local (A : Type) : Type :=
  | Uninit
  | Init (a : A).
Arguments Uninit {A}.
Arguments Init {A} a.

(** ** Devices *)

Abbreviation IpV4Address := N.

(** Modelled from the spec: [w11tng::NetworkDevice] (declared in
    w11tng/networkdevice.h), by the accessors networkmanager.cpp calls on
    it: the hardware address, the object path, the state, the role and the
    address of the IP layer. *)
Record NetworkDevice : Set := mkNetworkDevice {
  Address : string;
  ObjectPath : string;
  State : NetworkDeviceState;
  Role : string;
  IpAddress : option IpV4Address
}.

Definition SetState (st : NetworkDeviceState) (d : NetworkDevice) : NetworkDevice :=
  {| Address := Address d; ObjectPath := ObjectPath d; State := st;
     Role := Role d; IpAddress := IpAddress d |}.

Definition SetRole (role : string) (d : NetworkDevice) : NetworkDevice :=
  {| Address := Address d; ObjectPath := ObjectPath d; State := State d;
     Role := role; IpAddress := IpAddress d |}.

Definition SetIpV4Address (a : IpV4Address) (d : NetworkDevice) : NetworkDevice :=
  {| Address := Address d; ObjectPath := ObjectPath d; State := State d;
     Role := Role d; IpAddress := Some a |}.

(** Modelled from the spec: [NetworkDevice::Create] (defined in
    w11tng/networkdevice.cpp, outside networkmanager.cpp).  A device is
    created for an object path on its discovery; it starts Disconnected,
    without a role and without an address of the IP layer.  [address] is
    the hardware address its peer reports. *)
Definition NetworkDevice_Create (path address : string) : NetworkDevice :=
  {| Address := address; ObjectPath := path; State := kDisconnected;
     Role := ""; IpAddress := None |}.

(** Devices are shared ([std::shared_ptr]) between the registry, the
    [current_device_] slot and the delegate: a device is an object of a
    store, and a pointer is its index. *)
Abbreviation DevicePtr := nat.

(** [a == b] on shared pointers: the same object, or both null. *)
Definition ptr_eqb (a b : option DevicePtr) : bool :=
  match a, b with
  | Some x, Some y => Nat.eqb x y
  | None, None => true
  | _, _ => false
  end.

(** ** Calls that leave the manager *)

Inductive Call : Set :=
  | P2P_Find (timeout : nat)
  | P2P_StopFind
  | P2P_Connect (path : string)
  | P2P_Cancel
  | Group_Disconnect (group_device : string)
  | SendDriverPrivateCommand (mgmt_interface : string) (mode : MiracastMode.t)
  | Manager_SetWFDIEs (device_type : Local DeviceType.t) (session_available : bool)
  | FirmwareLoader_TryLoad
  | Delegate_OnDeviceStateChanged (device : DevicePtr)
  | Delegate_OnDeviceFound (device : DevicePtr)
  | Delegate_OnDeviceChanged (device : DevicePtr)
  | Delegate_OnDeviceLost (device : DevicePtr)
  | Delegate_OnChanged.

(** ** The registry: [std::map<std::string, NetworkDevice::Ptr>]

    A [std::map] iterates in the order of its keys, and [FindDevice] returns
    the first match of such an iteration: the map is an association list kept
    sorted by key. *)
Abbreviation DeviceMap := (list (string * nat)).

Fixpoint map_find (key : string) (m : DeviceMap) : option DevicePtr :=
  match m with
  | [] => None
  | (k, v) :: m' => if String.eqb k key then Some v else map_find key m'
  end.

Fixpoint map_assign (key : string) (v : DevicePtr) (m : DeviceMap) : DeviceMap :=
  match m with
  | [] => [(key, v)]
  | (k, w) :: m' =>
      if String.eqb k key then (key, v) :: m'
      else if String.ltb key k then (key, v) :: (k, w) :: m'
      else (k, w) :: map_assign key v m'
  end.

Fixpoint map_erase (key : string) (m : DeviceMap) : DeviceMap :=
  match m with
  | [] => []
  | (k, w) :: m' => if String.eqb k key then m' else (k, w) :: map_erase key m'
  end.

(** ** The manager *)

(** The stubs of the remote objects are known by their object path. *)
Abbreviation P2PDeviceStub := string.
Abbreviation InterfaceStub := string.

Record NetworkManager : Type := mkNetworkManager {
  manager_ : bool;
  p2p_device_ : option P2PDeviceStub;
  mgmt_interface_ : option InterfaceStub;
  delegate_ : bool;
  devices_ : DeviceMap;
  current_device_ : option DevicePtr;
  current_group_device_ : option P2PDeviceStub;
  current_group_iface_ : option InterfaceStub;
  dhcp_client_ : option string;
  dhcp_server_ : option string;
  connect_timeout_ : nat;
  session_available_ : bool;
  capabilities_ : list Capability.t;
  (** the device objects *)
  objects : list NetworkDevice;
  (** GLib's main context: the timeout sources that are pending, and the
      last source id handed out (ids are positive) *)
  sources : list nat;
  last_source : nat;
  (** the calls made so far, oldest first *)
  calls : list Call
}.

(** Assignment to one field. *)
Definition set_manager_ (v : bool) (s : NetworkManager) : NetworkManager :=
  {| manager_ := v; p2p_device_ := p2p_device_ s;
     mgmt_interface_ := mgmt_interface_ s; delegate_ := delegate_ s;
     devices_ := devices_ s; current_device_ := current_device_ s;
     current_group_device_ := current_group_device_ s;
     current_group_iface_ := current_group_iface_ s;
     dhcp_client_ := dhcp_client_ s; dhcp_server_ := dhcp_server_ s;
     connect_timeout_ := connect_timeout_ s;
     session_available_ := session_available_ s;
     capabilities_ := capabilities_ s; objects := objects s;
     sources := sources s; last_source := last_source s; calls := calls s |}.
Definition set_p2p_device_ (v : option P2PDeviceStub) (s : NetworkManager) : NetworkManager :=
  {| manager_ := manager_ s; p2p_device_ := v;
     mgmt_interface_ := mgmt_interface_ s; delegate_ := delegate_ s;
     devices_ := devices_ s; current_device_ := current_device_ s;
     current_group_device_ := current_group_device_ s;
     current_group_iface_ := current_group_iface_ s;
     dhcp_client_ := dhcp_client_ s; dhcp_server_ := dhcp_server_ s;
     connect_timeout_ := connect_timeout_ s;
     session_available_ := session_available_ s;
     capabilities_ := capabilities_ s; objects := objects s;
     sources := sources s; last_source := last_source s; calls := calls s |}.
Definition set_mgmt_interface_ (v : option InterfaceStub) (s : NetworkManager) : NetworkManager :=
  {| manager_ := manager_ s; p2p_device_ := p2p_device_ s;
     mgmt_interface_ := v; delegate_ := delegate_ s; devices_ := devices_ s;
     current_device_ := current_device_ s;
     current_group_device_ := current_group_device_ s;
     current_group_iface_ := current_group_iface_ s;
     dhcp_client_ := dhcp_client_ s; dhcp_server_ := dhcp_server_ s;
     connect_timeout_ := connect_timeout_ s;
     session_available_ := session_available_ s;
     capabilities_ := capabilities_ s; objects := objects s;
     sources := sources s; last_source := last_source s; calls := calls s |}.
Definition set_delegate_ (v : bool) (s : NetworkManager) : NetworkManager :=
  {| manager_ := manager_ s; p2p_device_ := p2p_device_ s;
     mgmt_interface_ := mgmt_interface_ s; delegate_ := v;
     devices_ := devices_ s; current_device_ := current_device_ s;
     current_group_device_ := current_group_device_ s;
     current_group_iface_ := current_group_iface_ s;
     dhcp_client_ := dhcp_client_ s; dhcp_server_ := dhcp_server_ s;
     connect_timeout_ := connect_timeout_ s;
     session_available_ := session_available_ s;
     capabilities_ := capabilities_ s; objects := objects s;
     sources := sources s; last_source := last_source s; calls := calls s |}.
Definition set_devices_ (v : DeviceMap) (s : NetworkManager) : NetworkManager :=
  {| manager_ := manager_ s; p2p_device_ := p2p_device_ s;
     mgmt_interface_ := mgmt_interface_ s; delegate_ := delegate_ s;
     devices_ := v; current_device_ := current_device_ s;
     current_group_device_ := current_group_device_ s;
     current_group_iface_ := current_group_iface_ s;
     dhcp_client_ := dhcp_client_ s; dhcp_server_ := dhcp_server_ s;
     connect_timeout_ := connect_timeout_ s;
     session_available_ := session_available_ s;
     capabilities_ := capabilities_ s; objects := objects s;
     sources := sources s; last_source := last_source s; calls := calls s |}.
Definition set_current_device_ (v : option DevicePtr) (s : NetworkManager) : NetworkManager :=
  {| manager_ := manager_ s; p2p_device_ := p2p_device_ s;
     mgmt_interface_ := mgmt_interface_ s; delegate_ := delegate_ s;
     devices_ := devices_ s; current_device_ := v;
     current_group_device_ := current_group_device_ s;
     current_group_iface_ := current_group_iface_ s;
     dhcp_client_ := dhcp_client_ s; dhcp_server_ := dhcp_server_ s;
     connect_timeout_ := connect_timeout_ s;
     session_available_ := session_available_ s;
     capabilities_ := capabilities_ s; objects := objects s;
     sources := sources s; last_source := last_source s; calls := calls s |}.
Definition set_current_group_device_ (v : option P2PDeviceStub) (s : NetworkManager) : NetworkManager :=
  {| manager_ := manager_ s; p2p_device_ := p2p_device_ s;
     mgmt_interface_ := mgmt_interface_ s; delegate_ := delegate_ s;
     devices_ := devices_ s; current_device_ := current_device_ s;
     current_group_device_ := v;
     current_group_iface_ := current_group_iface_ s;
     dhcp_client_ := dhcp_client_ s; dhcp_server_ := dhcp_server_ s;
     connect_timeout_ := connect_timeout_ s;
     session_available_ := session_available_ s;
     capabilities_ := capabilities_ s; objects := objects s;
     sources := sources s; last_source := last_source s; calls := calls s |}.
Definition set_current_group_iface_ (v : option InterfaceStub) (s : NetworkManager) : NetworkManager :=
  {| manager_ := manager_ s; p2p_device_ := p2p_device_ s;
     mgmt_interface_ := mgmt_interface_ s; delegate_ := delegate_ s;
     devices_ := devices_ s; current_device_ := current_device_ s;
     current_group_device_ := current_group_device_ s;
     current_group_iface_ := v; dhcp_client_ := dhcp_client_ s;
     dhcp_server_ := dhcp_server_ s; connect_timeout_ := connect_timeout_ s;
     session_available_ := session_available_ s;
     capabilities_ := capabilities_ s; objects := objects s;
     sources := sources s; last_source := last_source s; calls := calls s |}.
Definition set_dhcp_client_ (v : option string) (s : NetworkManager) : NetworkManager :=
  {| manager_ := manager_ s; p2p_device_ := p2p_device_ s;
     mgmt_interface_ := mgmt_interface_ s; delegate_ := delegate_ s;
     devices_ := devices_ s; current_device_ := current_device_ s;
     current_group_device_ := current_group_device_ s;
     current_group_iface_ := current_group_iface_ s; dhcp_client_ := v;
     dhcp_server_ := dhcp_server_ s; connect_timeout_ := connect_timeout_ s;
     session_available_ := session_available_ s;
     capabilities_ := capabilities_ s; objects := objects s;
     sources := sources s; last_source := last_source s; calls := calls s |}.
Definition set_dhcp_server_ (v : option string) (s : NetworkManager) : NetworkManager :=
  {| manager_ := manager_ s; p2p_device_ := p2p_device_ s;
     mgmt_interface_ := mgmt_interface_ s; delegate_ := delegate_ s;
     devices_ := devices_ s; current_device_ := current_device_ s;
     current_group_device_ := current_group_device_ s;
     current_group_iface_ := current_group_iface_ s;
     dhcp_client_ := dhcp_client_ s; dhcp_server_ := v;
     connect_timeout_ := connect_timeout_ s;
     session_available_ := session_available_ s;
     capabilities_ := capabilities_ s; objects := objects s;
     sources := sources s; last_source := last_source s; calls := calls s |}.
Definition set_connect_timeout_ (v : nat) (s : NetworkManager) : NetworkManager :=
  {| manager_ := manager_ s; p2p_device_ := p2p_device_ s;
     mgmt_interface_ := mgmt_interface_ s; delegate_ := delegate_ s;
     devices_ := devices_ s; current_device_ := current_device_ s;
     current_group_device_ := current_group_device_ s;
     current_group_iface_ := current_group_iface_ s;
     dhcp_client_ := dhcp_client_ s; dhcp_server_ := dhcp_server_ s;
     connect_timeout_ := v; session_available_ := session_available_ s;
     capabilities_ := capabilities_ s; objects := objects s;
     sources := sources s; last_source := last_source s; calls := calls s |}.
Definition set_session_available_ (v : bool) (s : NetworkManager) : NetworkManager :=
  {| manager_ := manager_ s; p2p_device_ := p2p_device_ s;
     mgmt_interface_ := mgmt_interface_ s; delegate_ := delegate_ s;
     devices_ := devices_ s; current_device_ := current_device_ s;
     current_group_device_ := current_group_device_ s;
     current_group_iface_ := current_group_iface_ s;
     dhcp_client_ := dhcp_client_ s; dhcp_server_ := dhcp_server_ s;
     connect_timeout_ := connect_timeout_ s; session_available_ := v;
     capabilities_ := capabilities_ s; objects := objects s;
     sources := sources s; last_source := last_source s; calls := calls s |}.
Definition set_capabilities_ (v : list Capability.t) (s : NetworkManager) : NetworkManager :=
  {| manager_ := manager_ s; p2p_device_ := p2p_device_ s;
     mgmt_interface_ := mgmt_interface_ s; delegate_ := delegate_ s;
     devices_ := devices_ s; current_device_ := current_device_ s;
     current_group_device_ := current_group_device_ s;
     current_group_iface_ := current_group_iface_ s;
     dhcp_client_ := dhcp_client_ s; dhcp_server_ := dhcp_server_ s;
     connect_timeout_ := connect_timeout_ s;
     session_available_ := session_available_ s; capabilities_ := v;
     objects := objects s; sources := sources s;
     last_source := last_source s; calls := calls s |}.
Definition set_objects (v : list NetworkDevice) (s : NetworkManager) : NetworkManager :=
  {| manager_ := manager_ s; p2p_device_ := p2p_device_ s;
     mgmt_interface_ := mgmt_interface_ s; delegate_ := delegate_ s;
     devices_ := devices_ s; current_device_ := current_device_ s;
     current_group_device_ := current_group_device_ s;
     current_group_iface_ := current_group_iface_ s;
     dhcp_client_ := dhcp_client_ s; dhcp_server_ := dhcp_server_ s;
     connect_timeout_ := connect_timeout_ s;
     session_available_ := session_available_ s;
     capabilities_ := capabilities_ s; objects := v; sources := sources s;
     last_source := last_source s; calls := calls s |}.
Definition set_sources (v : list nat) (s : NetworkManager) : NetworkManager :=
  {| manager_ := manager_ s; p2p_device_ := p2p_device_ s;
     mgmt_interface_ := mgmt_interface_ s; delegate_ := delegate_ s;
     devices_ := devices_ s; current_device_ := current_device_ s;
     current_group_device_ := current_group_device_ s;
     current_group_iface_ := current_group_iface_ s;
     dhcp_client_ := dhcp_client_ s; dhcp_server_ := dhcp_server_ s;
     connect_timeout_ := connect_timeout_ s;
     session_available_ := session_available_ s;
     capabilities_ := capabilities_ s; objects := objects s; sources := v;
     last_source := last_source s; calls := calls s |}.
Definition set_last_source (v : nat) (s : NetworkManager) : NetworkManager :=
  {| manager_ := manager_ s; p2p_device_ := p2p_device_ s;
     mgmt_interface_ := mgmt_interface_ s; delegate_ := delegate_ s;
     devices_ := devices_ s; current_device_ := current_device_ s;
     current_group_device_ := current_group_device_ s;
     current_group_iface_ := current_group_iface_ s;
     dhcp_client_ := dhcp_client_ s; dhcp_server_ := dhcp_server_ s;
     connect_timeout_ := connect_timeout_ s;
     session_available_ := session_available_ s;
     capabilities_ := capabilities_ s; objects := objects s;
     sources := sources s; last_source := v; calls := calls s |}.
Definition set_calls (v : list Call) (s : NetworkManager) : NetworkManager :=
  {| manager_ := manager_ s; p2p_device_ := p2p_device_ s;
     mgmt_interface_ := mgmt_interface_ s; delegate_ := delegate_ s;
     devices_ := devices_ s; current_device_ := current_device_ s;
     current_group_device_ := current_group_device_ s;
     current_group_iface_ := current_group_iface_ s;
     dhcp_client_ := dhcp_client_ s; dhcp_server_ := dhcp_server_ s;
     connect_timeout_ := connect_timeout_ s;
     session_available_ := session_available_ s;
     capabilities_ := capabilities_ s; objects := objects s;
     sources := sources s; last_source := last_source s; calls := v |}.

(** ** The monad of member functions *)

(** The pointers a member function calls through. *)
Inductive Handle : Set :=
  | h_device
  | h_current_device_
  | h_current_group_device_
  | h_current_group_iface_
  | h_p2p_device_
  | h_mgmt_interface_
  | h_manager_.

(** How a computation ends other than by returning:
    - [NullDeref h]: a member call through the null pointer [h];
    - [NotAnObject p]: [p] is no object of the store (a [shared_ptr] never
      dangles: no state the manager reaches has such a pointer, see
      [reachable_Inv]);
    - [NotPending id]: the main loop does not hold the source [id], so it
      cannot dispatch it. *)
Inductive Stop : Set :=
  | NullDeref (h : Handle)
  | NotAnObject (p : DevicePtr)
  | NotPending (id : nat).

Inductive Outcome (A : Type) : Type :=
  | Done (a : A) (s : NetworkManager)
  | Stopped (why : Stop).
Arguments Done {A} a s.
Arguments Stopped {A} why.

Definition M (A : Type) : Type := NetworkManager -> Outcome A.

Definition ret {A} (a : A) : M A := fun s => Done a s.

Definition bind {A B} (c : M A) (k : A -> M B) : M B :=
  fun s => match c s with
           | Done a s' => k a s'
           | Stopped why => Stopped why
           end.

#[global] Instance M_ret : MRet M := @ret.
#[global] Instance M_bind : MBind M := fun A B k c => bind c k.
#[global] Instance M_fmap : FMap M := fun A B f c => bind c (fun a => ret (f a)).

Definition stop {A} (why : Stop) : M A := fun _ => Stopped why.

(** Reading a field, and running an assignment. *)
Definition gets {A} (f : NetworkManager -> A) : M A := fun s => Done (f s) s.
Definition modify (f : NetworkManager -> NetworkManager) : M unit :=
  fun s => Done tt (f s).

(** [shared_ptr::operator bool]. *)
Definition nonnull {A} (p : option A) : bool :=
  match p with Some _ => true | None => false end.

(** [p->...] for the pointer [p] named [h]. *)
Definition deref {A} (h : Handle) (p : option A) : M A :=
  match p with
  | Some a => ret a
  | None => stop (NullDeref h)
  end.

(** Reading and updating the object [p] points to. *)
Definition load (p : DevicePtr) : M NetworkDevice :=
  fun s => match objects s !! p with
           | Some d => Done d s
           | None => Stopped (NotAnObject p)
           end.

Definition store (p : DevicePtr) (f : NetworkDevice -> NetworkDevice) : M unit :=
  _ ← load p;
  modify (fun s => set_objects (alter f p (objects s)) s).

(** [std::make_shared]: a new object, at the end of the store. *)
Definition new_object (d : NetworkDevice) : M DevicePtr :=
  fun s => Done (length (objects s)) (set_objects (objects s ++ [d]) s).

(** A call that leaves the manager. *)
Definition call (c : Call) : M unit :=
  modify (fun s => set_calls (calls s ++ [c]) s).

Definition when (b : bool) (c : M unit) : M unit :=
  if b then c else ret tt.

(** ** GLib timeout sources *)

(** [g_timeout_add_seconds]: a new pending source, with a new positive id. *)
Definition g_timeout_add_seconds : M nat :=
  fun s => let id := S (last_source s) in
           Done id (set_last_source id (set_sources (sources s ++ [id]) s)).

(** [g_source_remove]. *)
Definition g_source_remove (id : nat) : M unit :=
  modify (fun s => set_sources (filter (fun x => x ≠ id) (sources s)) s).

(** ** Member functions of [NetworkManager] *)

(** The pointee of the field [f], for a call through it. *)
Definition via {A} (h : Handle) (f : NetworkManager -> option A) : M A :=
  gets f ≫= deref h.

Definition SetupInterface (object_path : string) : M unit :=
  p2p ← gets p2p_device_;
  if nonnull p2p then mret tt
  else
    modify (set_mgmt_interface_ (Some object_path));;
    modify (set_p2p_device_ (Some object_path)).

Definition Scan (timeout : nat) : M unit :=
  p2p ← gets p2p_device_;
  if negb (nonnull p2p) then mret tt
  else call (P2P_Find timeout).

(** The loop of [FindDevice] over the registry, in the order of the keys. *)
Fixpoint FindDevice_iter (address : string) (m : DeviceMap) : M (option DevicePtr) :=
  match m with
  | [] => mret None
  | (_, p) :: m' =>
      d ← load p;
      if String.eqb (Address d) address then mret (Some p)
      else FindDevice_iter address m'
  end.

Definition FindDevice (address : string) : M (option DevicePtr) :=
  gets devices_ ≫= FindDevice_iter address.

(** The loop of [GenerateWfdDeviceType] over [capabilities_]. *)
Fixpoint scan_capabilities (caps : list Capability.t) (has_source has_sink : bool)
  : bool * bool :=
  match caps with
  | [] => (has_source, has_sink)
  | capability :: rest =>
      if Capability.eqb capability Capability.kSource
      then scan_capabilities rest true has_sink
      else if Capability.eqb capability Capability.kSink
      then scan_capabilities rest has_source true
      else scan_capabilities rest has_source has_sink
  end.

(** [DeviceType device_type;] has no initialiser, and none of the three
    branches assigns it when the set has neither capability. *)
Definition GenerateWfdDeviceType (capabilities : list Capability.t)
  : Local DeviceType.t :=
  let device_type := Uninit in
  let '(has_source, has_sink) := scan_capabilities capabilities false false in
  if has_sink && negb has_source then Init DeviceType.kPrimarySink
  else if negb has_sink && has_source then Init DeviceType.kSource
  else if has_sink && has_source then Init DeviceType.kDualRole
  else device_type.

Definition ConfigureFromCapabilities : M unit :=
  m ← gets manager_;
  if negb m then mret tt
  else
    device_type ← GenerateWfdDeviceType <$> gets capabilities_;
    available ← gets session_available_;
    call (Manager_SetWFDIEs device_type available).

Definition AdvanceDeviceState (device : DevicePtr) (state : NetworkDeviceState)
  : M unit :=
  store device (SetState state);;
  when (state_eqb state kDisconnected)
    (mgmt ← via h_mgmt_interface_ mgmt_interface_;
     call (SendDriverPrivateCommand mgmt MiracastMode.Off));;
  when (state_eqb state kConnected || state_eqb state kDisconnected)
    (modify (set_session_available_ (negb (state_eqb state kConnected)));;
     ConfigureFromCapabilities);;
  d ← gets delegate_;
  when d (call (Delegate_OnDeviceStateChanged device)).

Definition ReleaseInterface : M unit :=
  cur ← gets current_device_;
  match cur with
  | Some device =>
      AdvanceDeviceState device kDisconnected;;
      modify (set_current_device_ None);;
      modify (set_current_group_device_ None);;
      modify (set_current_group_iface_ None)
  | None => mret tt
  end;;
  modify (set_p2p_device_ None);;
  modify (set_mgmt_interface_ None).

Definition ReleaseInternal : M unit :=
  ReleaseInterface;;
  modify (set_manager_ false).

Definition Release : M unit := ReleaseInternal.

(** [needs_firmware] is the outcome of the test
    [firmware_loading && AETHERCAST_NEED_FIRMWARE == "1" && IsNeeded()]. *)
Definition Initialize (needs_firmware : bool) : M unit :=
  if needs_firmware then call FirmwareLoader_TryLoad
  else modify (set_manager_ true).

Definition StartConnectTimeout : M unit :=
  id ← g_timeout_add_seconds;
  modify (set_connect_timeout_ id).

Definition StopConnectTimeout : M unit :=
  t ← gets connect_timeout_;
  if Nat.eqb t 0 then mret tt
  else
    g_source_remove t;;
    modify (set_connect_timeout_ 0).

(** The callback that [StartConnectTimeout] registers, for a manager that is
    alive; its result is what it returns to the main loop. *)
Definition OnConnectTimeout : M bool :=
  cur ← via h_current_device_ current_device_;
  _ ← Address <$> load cur;
  modify (set_connect_timeout_ 0);;
  d ← load cur;
  if state_eqb (State d) kConnected || state_eqb (State d) kConfiguration
  then mret false
  else
    _ ← via h_p2p_device_ p2p_device_;
    call P2P_Cancel;;
    AdvanceDeviceState cur kFailure;;
    modify (set_current_device_ None);;
    mret false.

(** The main loop dispatching the pending source [id]: a source whose
    callback returns FALSE is removed. *)
Definition dispatch_source (id : nat) : M unit :=
  pending ← gets sources;
  if bool_decide (id ∈ pending) then
    again ← OnConnectTimeout;
    if (again : bool) then mret tt else g_source_remove id
  else stop (NotPending id).

(** [device] is the object the argument points to, [None] for a null
    pointer; [accepted] is what [p2p_device_->Connect] returns. *)
Definition Connect (device : option NetworkDevice) (accepted : bool) : M bool :=
  p2p ← gets p2p_device_;
  cur ← gets current_device_;
  if negb (nonnull p2p) || nonnull cur then mret false
  else
    match device with
    | None => mret false
    | Some dev =>
        found ← FindDevice (Address dev);
        match found with
        | None => mret false
        | Some d =>
            modify (set_current_device_ (Some d));;
            _ ← via h_p2p_device_ p2p_device_;
            call P2P_StopFind;;
            path ← ObjectPath <$> load d;
            call (P2P_Connect path);;
            if negb accepted then mret false
            else
              store d (SetState kAssociation);;
              dl ← gets delegate_;
              when dl (call (Delegate_OnDeviceStateChanged d));;
              StartConnectTimeout;;
              mret true
        end
    end.

Definition Disconnect (device : option NetworkDevice) : M bool :=
  p2p ← gets p2p_device_;
  cur ← gets current_device_;
  if negb (nonnull p2p) || negb (nonnull cur) then mret false
  else
    dev ← deref h_device device;
    found ← FindDevice (Address dev);
    if negb (nonnull found) then mret false
    else
      group ← via h_current_group_device_ current_group_device_;
      call (Group_Disconnect group);;
      mret true.

(** [address] is the address of the new device, see [NetworkDevice_Create]. *)
Definition OnDeviceFound (path address : string) : M unit :=
  m ← gets devices_;
  if nonnull (map_find path m) then mret tt
  else
    device ← new_object (NetworkDevice_Create path address);
    modify (fun s => set_devices_ (map_assign path device (devices_ s)) s).

Definition OnDeviceLost (path : string) : M unit :=
  m ← gets devices_;
  match map_find path m with
  | None => mret tt
  | Some device =>
      modify (fun s => set_devices_ (map_erase path (devices_ s)) s);;
      cur ← gets current_device_;
      group ← gets current_group_device_;
      when (ptr_eqb cur (Some device) && nonnull group)
        (g ← deref h_current_group_device_ group;
         call (Group_Disconnect g));;
      dl ← gets delegate_;
      when dl (call (Delegate_OnDeviceLost device))
  end.

Definition HandleConnectFailed : M unit :=
  cur ← via h_current_device_ current_device_;
  AdvanceDeviceState cur kFailure;;
  modify (set_current_device_ None);;
  StopConnectTimeout.

Definition OnPeerConnectFailed : M unit :=
  cur ← gets current_device_;
  if negb (nonnull cur) then mret tt else HandleConnectFailed.

Definition OnGroupOwnerNegotiationFailure : M unit :=
  cur ← gets current_device_;
  if negb (nonnull cur) then mret tt else HandleConnectFailed.

(** Only logs. *)
Definition OnGroupOwnerNegotiationSuccess : M unit := mret tt.

Definition OnGroupStarted (group_path interface_path role : string) : M unit :=
  cur ← gets current_device_;
  match cur with
  | None => mret tt
  | Some device =>
      AdvanceDeviceState device kConfiguration;;
      store device (SetRole role);;
      modify (set_current_group_iface_ (Some interface_path));;
      modify (set_current_group_device_ (Some interface_path))
  end.

(** The statements of [OnGroupFinished] that come before its last one,
    [current_device_.reset()]; [device] is [current_device_]. *)
Definition OnGroupFinished_release (device : DevicePtr) : M unit :=
  StopConnectTimeout;;
  modify (set_dhcp_client_ None);;
  modify (set_dhcp_server_ None);;
  modify (set_current_group_iface_ None);;
  modify (set_current_group_device_ None);;
  AdvanceDeviceState device kDisconnected.

Definition OnGroupFinished (group_path interface_path : string) : M unit :=
  cur ← gets current_device_;
  match cur with
  | None => mret tt
  | Some device =>
      OnGroupFinished_release device;;
      modify (set_current_device_ None)
  end.

(** Only logs. *)
Definition OnGroupRequest : M unit := mret tt.

Definition OnDeviceChanged (device : DevicePtr) : M unit :=
  dl ← gets delegate_;
  when dl (call (Delegate_OnDeviceChanged device)).

Definition OnDeviceReady (device : DevicePtr) : M unit :=
  dl ← gets delegate_;
  when dl (call (Delegate_OnDeviceFound device)).

Definition OnP2PDeviceChanged : M unit :=
  dl ← gets delegate_;
  when dl (call Delegate_OnChanged).

Definition OnDhcpAddressAssigned (local_address remote_address : IpV4Address)
  : M unit :=
  cur ← gets current_device_;
  match cur with
  | None => mret tt
  | Some device =>
      d ← load device;
      if negb (state_eqb (State d) kConfiguration) then mret tt
      else
        store device (SetIpV4Address remote_address);;
        StopConnectTimeout;;
        AdvanceDeviceState device kConnected
  end.

Definition OnDhcpTerminated : M unit :=
  cur ← gets current_device_;
  match cur with
  | None => mret tt
  | Some device =>
      d ← load device;
      if negb (state_eqb (State d) kConfiguration) then mret tt
      else
        _ ← Disconnect (Some d);
        AdvanceDeviceState device kFailure
  end.

Definition OnInterfaceSelectionDone (path : string) : M unit :=
  if Nat.eqb (String.length path) 0 then mret tt
  else SetupInterface path.

Definition SetCapabilities (capabilities : list Capability.t) : M unit :=
  own ← gets capabilities_;
  if bool_decide (capabilities = own) then mret tt
  else
    modify (set_capabilities_ capabilities);;
    ConfigureFromCapabilities.

Definition SetDelegate (delegate : bool) : M unit :=
  modify (set_delegate_ delegate).

(** Publishes the information element, and then asks the manager stub to
    create the dedicated interface or has the interfaces of the manager stub
    processed: either way it calls through [manager_], which it does not
    test.  ([interface_selector_] is assigned with [manager_] in
    [Initialize] and reset with it in [ReleaseInternal]; what the two are
    asked to do writes no field of this model.) *)
Definition OnManagerReady : M unit :=
  ConfigureFromCapabilities;;
  m ← gets manager_;
  if negb m then stop (NullDeref h_manager_) else mret tt.

Definition OnManagerInterfaceRemoved (path : string) : M unit :=
  p2p ← via h_p2p_device_ p2p_device_;
  if negb (String.eqb p2p path) then mret tt
  else ReleaseInterface.

Definition OnManagementInterfaceReady : M unit := mret tt.

Definition OnGroupInterfaceReady : M unit :=
  cur ← gets current_device_;
  match cur with
  | None => mret tt
  | Some device =>
      d ← load device;
      if negb (state_eqb (State d) kConfiguration) then mret tt
      else
        ifname ← via h_current_group_iface_ current_group_iface_;
        mgmt ← via h_mgmt_interface_ mgmt_interface_;
        call (SendDriverPrivateCommand mgmt MiracastMode.Source);;
        if String.eqb (Role d) "GO"
        then modify (set_dhcp_server_ (Some ifname))
        else modify (set_dhcp_client_ (Some ifname))
  end.

Definition OnInterfaceReady (object_path : string) : M unit :=
  group ← gets current_group_iface_;
  if match group with
     | Some g => String.eqb object_path g
     | None => false
     end
  then OnGroupInterfaceReady
  else
    mgmt ← via h_mgmt_interface_ mgmt_interface_;
    if String.eqb object_path mgmt then OnManagementInterfaceReady
    else mret tt.

(** ** The manager as a transition system *)

(** What the main loop delivers to the manager: the calls of its owner, the
    callbacks of its collaborators, and the timeout sources.  Six callbacks
    are no events here: [OnP2PDeviceReady], [OnHostnameChanged],
    [OnManagerInterfaceAdded] and [OnManagerInterfaceCreationFailed], which
    write none of the fields above and call through [p2p_device_],
    [hostname_service_], [interface_selector_] or [manager_] without a
    test, [OnFirmwareLoaded], which calls [Initialize], and
    [OnFirmwareUnloaded], which does nothing. *)
Inductive Event : Type :=
  | EvInitialize (needs_firmware : bool)
  | EvRelease
  | EvSetDelegate (delegate : bool)
  | EvSetCapabilities (capabilities : list Capability.t)
  | EvScan (timeout : nat)
  | EvConnect (device : option NetworkDevice) (accepted : bool)
  | EvDisconnect (device : option NetworkDevice)
  | EvInterfaceSelectionDone (path : string)
  | EvManagerReady
  | EvManagerInterfaceRemoved (path : string)
  | EvInterfaceReady (object_path : string)
  | EvP2PDeviceChanged
  | EvDeviceFound (path address : string)
  | EvDeviceLost (path : string)
  | EvDeviceChanged (device : DevicePtr)
  | EvDeviceReady (device : DevicePtr)
  | EvPeerConnectFailed
  | EvGroupOwnerNegotiationFailure
  | EvGroupOwnerNegotiationSuccess
  | EvGroupStarted (group_path interface_path role : string)
  | EvGroupFinished (group_path interface_path : string)
  | EvGroupRequest
  | EvDhcpAddressAssigned (local_address remote_address : IpV4Address)
  | EvDhcpTerminated
  | EvConnectTimeout (id : nat).

Definition handle (e : Event) : M unit :=
  match e with
  | EvInitialize needs_firmware => Initialize needs_firmware
  | EvRelease => Release
  | EvSetDelegate delegate => SetDelegate delegate
  | EvSetCapabilities capabilities => SetCapabilities capabilities
  | EvScan timeout => Scan timeout
  | EvConnect device accepted => _ ← Connect device accepted; mret tt
  | EvDisconnect device => _ ← Disconnect device; mret tt
  | EvInterfaceSelectionDone path => OnInterfaceSelectionDone path
  | EvManagerReady => OnManagerReady
  | EvManagerInterfaceRemoved path => OnManagerInterfaceRemoved path
  | EvInterfaceReady object_path => OnInterfaceReady object_path
  | EvP2PDeviceChanged => OnP2PDeviceChanged
  | EvDeviceFound path address => OnDeviceFound path address
  | EvDeviceLost path => OnDeviceLost path
  | EvDeviceChanged device => OnDeviceChanged device
  | EvDeviceReady device => OnDeviceReady device
  | EvPeerConnectFailed => OnPeerConnectFailed
  | EvGroupOwnerNegotiationFailure => OnGroupOwnerNegotiationFailure
  | EvGroupOwnerNegotiationSuccess => OnGroupOwnerNegotiationSuccess
  | EvGroupStarted group_path interface_path role =>
      OnGroupStarted group_path interface_path role
  | EvGroupFinished group_path interface_path =>
      OnGroupFinished group_path interface_path
  | EvGroupRequest => OnGroupRequest
  | EvDhcpAddressAssigned local_address remote_address =>
      OnDhcpAddressAssigned local_address remote_address
  | EvDhcpTerminated => OnDhcpTerminated
  | EvConnectTimeout id => dispatch_source id
  end.

Fixpoint run (es : list Event) : M unit :=
  match es with
  | [] => mret tt
  | e :: es' => handle e;; run es'
  end.

(** The manager as its constructor leaves it: the session is available and
    every pointer is null.  (The constructor initialises [connect_timeout_]
    and [delegate_] in the class declaration, in networkmanager.h; no timer
    is taken to be armed and no delegate set.) *)
Definition initial : NetworkManager :=
  {| manager_ := false; p2p_device_ := None; mgmt_interface_ := None;
     delegate_ := false; devices_ := []; current_device_ := None;
     current_group_device_ := None; current_group_iface_ := None;
     dhcp_client_ := None; dhcp_server_ := None; connect_timeout_ := 0;
     session_available_ := true; capabilities_ := []; objects := [];
     sources := []; last_source := 0; calls := [] |}.

Inductive reachable : NetworkManager -> Prop :=
  | reachable_initial : reachable initial
  | reachable_step s e s' :
      reachable s -> handle e s = Done tt s' -> reachable s'.

(** ** Observations on a state *)

(** The state of the current device, when there is one. *)
Definition current_state (s : NetworkManager) : option NetworkDeviceState :=
  match current_device_ s with
  | Some p =>
      match objects s !! p with
      | Some d => Some (State d)
      | None => None
      end
  | None => None
  end.

(** The manager holds a timer: what [StopConnectTimeout] tests. *)
Definition timer_armed (s : NetworkManager) : Prop := connect_timeout_ s ≠ 0.

(** Both handles of the group are there. *)
Definition group_handles (s : NetworkManager) : Prop :=
  is_Some (current_group_device_ s) ∧ is_Some (current_group_iface_ s).

(** ** Concrete runs *)

Definition deviceX : NetworkDevice :=
  NetworkDevice_Create "/peer/1" "aa:bb:cc:dd:ee:ff".

(** The state after the events [es], when every handler returns. *)
Definition after (es : list Event) : NetworkManager :=
  match run es initial with
  | Done _ s => s
  | Stopped _ => initial
  end.

(** A ready P2P device, a delegate, and one discovered peer. *)
Definition idle_events : list Event :=
  [EvInterfaceSelectionDone "/wpa/if/0"; EvSetDelegate true;
   EvDeviceFound "/peer/1" "aa:bb:cc:dd:ee:ff"].

(** [Connect] was accepted: the peer is in Association. *)
Definition association_events : list Event :=
  idle_events ++ [EvConnect (Some deviceX) true].

(** The group has started: the peer is in Configuration. *)
Definition configuration_events : list Event :=
  association_events ++ [EvGroupStarted "/group/1" "/wpa/if/1" "GO"].

(** Another peer, which was never discovered. *)
Definition deviceY : NetworkDevice :=
  NetworkDevice_Create "/peer/9" "99:99:99:99:99:99".

(** The P2P interface is removed during the association and selected
    again: no device is current, and the source of the first [Connect] is
    still pending. *)
Definition reselected_events : list Event :=
  association_events ++
  [EvManagerInterfaceRemoved "/wpa/if/0"; EvInterfaceSelectionDone "/wpa/if/0"].

(** A second [Connect] is accepted and its group has started: the peer is
    in Configuration and the handle names the source of the second
    [Connect]. *)
Definition second_session_events : list Event :=
  reselected_events ++
  [EvConnect (Some deviceX) true; EvGroupStarted "/group/1" "/wpa/if/1" "GO"].

(** The source of the first [Connect] has fired. *)
Definition stale_timeout_events : list Event :=
  second_session_events ++ [EvConnectTimeout 1].

(** A connection attempt failed after its group had started, and the next
    [Connect] was accepted: the peer is in Association. *)
Definition retried_events : list Event :=
  configuration_events ++ [EvPeerConnectFailed; EvConnect (Some deviceX) true].

(** The events whose handlers can clear [current_device_]: the release of
    the interface, the failure and group-finished callbacks and the
    timeout. *)
Definition clears_binding (e : Event) : bool :=
  match e with
  | EvRelease | EvManagerInterfaceRemoved _ | EvPeerConnectFailed
  | EvGroupOwnerNegotiationFailure | EvGroupFinished _ _
  | EvConnectTimeout _ => true
  | _ => false
  end.

(** ** What holds in every state the manager reaches *)

Record Inv (s : NetworkManager) : Prop := mkInv {
  (** pointers are objects *)
  inv_registry : forall k p, (k, p) ∈ devices_ s -> is_Some (objects s !! p);
  inv_current : forall p, current_device_ s = Some p ->
                is_Some (objects s !! p) /\ is_Some (p2p_device_ s);
  (** the two stubs of the interface come and go together *)
  inv_mgmt : is_Some (p2p_device_ s) -> is_Some (mgmt_interface_ s);
  (** the two handles of the group come and go together *)
  inv_group : current_group_device_ s = current_group_iface_ s;
  (** a device that is not current is Disconnected or failed *)
  inv_others : forall q d, objects s !! q = Some d ->
               current_device_ s ≠ Some q ->
               State d = kDisconnected \/ State d = kFailure;
  inv_configured : current_state s = Some kConfiguration \/
                   current_state s = Some kConnected ->
                   is_Some (current_group_device_ s);
  inv_assoc : current_state s = Some kAssociation -> connect_timeout_ s ≠ 0;
  inv_connected : current_state s = Some kConnected -> connect_timeout_ s = 0;
  (** the timer the manager holds is pending *)
  inv_timer : connect_timeout_ s ≠ 0 -> connect_timeout_ s ∈ sources s
}.

(** ** The queries of the owner *)

(** [Devices]: the values of the registry, in the order of its keys. *)
Definition Devices (s : NetworkManager) : list DevicePtr :=
  map snd (devices_ s).

Definition Capabilities (s : NetworkManager) : list Capability.t :=
  capabilities_ s.

(** [Running] and [Scanning]: [connected] and [scanning] are what the stub
    of the P2P device reports; [&&] asks it only when there is one. *)
Definition Running (connected : bool) (s : NetworkManager) : bool :=
  if nonnull (p2p_device_ s) then connected else false.

Definition Scanning (scanning : bool) (s : NetworkManager) : bool :=
  if nonnull (p2p_device_ s) then scanning else false.

(** [LocalAddress]: [server_address] and [client_address] are what the DHCP
    server and the DHCP client report as their local address, and
    [unassigned] is the address [mcs::IpV4Address address;] declares. *)
Definition LocalAddress (unassigned server_address client_address : IpV4Address)
    (s : NetworkManager) : IpV4Address :=
  let address := unassigned in
  if nonnull (dhcp_server_ s) then server_address
  else if nonnull (dhcp_client_ s) then client_address
  else address.

(** ** The name and the type the P2P device is configured with *)

(** What [hostname_service_] answers, when there is one. *)
Record Hostname1Stub : Set := mkHostname1Stub {
  PrettyHostname : string;
  StaticHostname : string;
  Hostname : string;
  Chassis : string
}.

(** [gethostname] is the name the system call writes to [name]. *)
Definition SelectHostname (hostname_service_ : Hostname1Stub)
    (gethostname : string) : string :=
  let hostname := PrettyHostname hostname_service_ in
  let hostname :=
    if Nat.eqb (String.length hostname) 0
    then StaticHostname hostname_service_ else hostname in
  let hostname :=
    if Nat.eqb (String.length hostname) 0
    then Hostname hostname_service_ else hostname in
  let hostname :=
    if Nat.eqb (String.length hostname) 0 then gethostname else hostname in
  hostname.

Definition SelectDeviceType (hostname_service_ : Hostname1Stub) : string :=
  let oui := "0050F204" in
  let category := "0001" in
  let sub_category := "0000" in
  let chassis := Chassis hostname_service_ in
  let '(category, sub_category) :=
    if String.eqb chassis "handset" then ("000A", "0005")
    else if String.eqb chassis "vm" || String.eqb chassis "container"
    then (category, "0001")
    else if String.eqb chassis "server" then (category, "0002")
    else if String.eqb chassis "laptop" then (category, "0005")
    else if String.eqb chassis "desktop" then (category, "0006")
    else if String.eqb chassis "tablet" then (category, "0009")
    else if String.eqb chassis "watch" then (category, "00FF")
    else (category, sub_category) in
  category ++ oui ++ sub_category.

(** ** The frequencies of a group owner negotiation *)

(** The loop of [OnGroupOwnerNegotiationSuccess] that writes the
    frequencies to the stream [frequencies], for a current device:
    [Sprintf_d] is [mcs::Utils::Sprintf] with the format of a decimal
    number, [n] is the counter that the loop declares and compares, and
    [size] is [result.frequencies.size()], an unsigned number of 64 bits
    with which [n] is compared as such a number. *)
Fixpoint frequencies_loop (Sprintf_d : Z -> string) (n size : Z)
    (frequencies : list Z) (stream : string) : string :=
  match frequencies with
  | [] => stream
  | freq :: rest =>
      let stream := String.append stream (Sprintf_d freq) in
      let stream :=
        if Z.ltb (n mod 2 ^ 64) ((size - 1) mod 2 ^ 64)
        then String.append stream "," else stream in
      frequencies_loop Sprintf_d n size rest stream
  end.

(** The text that [OnGroupOwnerNegotiationSuccess] logs as the intersection
    of the frequencies. *)
Definition intersect_freqs (Sprintf_d : Z -> string) (frequencies : list Z)
  : string :=
  let n := 0%Z in
  frequencies_loop Sprintf_d n (Z.of_nat (length frequencies)) frequencies "".

(** The sixteen digits of the alphabet of [SelectDeviceType]. *)
Definition is_hex_digit (c : Ascii.ascii) : bool :=
  let n := Ascii.nat_of_ascii c in
  (Nat.leb 48 n && Nat.leb n 57) || (Nat.leb 65 n && Nat.leb n 70).

(** ** What the registry and the main context keep *)

(** The registry points to objects, each under its own object path, and no
    path is there twice. *)
Record Registry (s : NetworkManager) : Prop := mkRegistry {
  reg_objects : forall k p, (k, p) ∈ devices_ s -> p < length (objects s);
  reg_paths : forall k p d, (k, p) ∈ devices_ s -> objects s !! p = Some d ->
              ObjectPath d = k;
  reg_keys : NoDup (map fst (devices_ s))
}.

(** The pending sources are those the main context handed out: their ids
    are positive, at most [last_source], and pairwise distinct; so is the
    handle the manager holds. *)
Record Sources (s : NetworkManager) : Prop := mkSources {
  src_range : forall id, id ∈ sources s -> 0 < id <= last_source s;
  src_distinct : NoDup (sources s);
  src_handle : connect_timeout_ s <= last_source s
}.

(** While the current device is Connected the session is not available. *)
Definition Session (s : NetworkManager) : Prop :=
  current_state s = Some kConnected -> session_available_ s = false.

(** A device that is Connected has an address of the IP layer. *)
Definition Addressed (s : NetworkManager) : Prop :=
  forall q d, objects s !! q = Some d -> State d = kConnected ->
              is_Some (IpAddress d).

(** The object [p] has the address and the object path it was created
    with. *)
Definition identity (p : DevicePtr) (address path : string)
    (s : NetworkManager) : Prop :=
  exists d, objects s !! p = Some d /\ Address d = address /\
            ObjectPath d = path.

(** A computation keeps [P] when every run of it that returns leads from a
    state with [P] to a state with [P]. *)
Definition preserves {A} (P : NetworkManager -> Prop) (c : M A) : Prop :=
  forall s a s', P s -> c s = Done a s' -> P s'.

(** The events whose handlers test every pointer they call through, or call
    through pointers that the manager keeps non-null.  The five other
    events call through an argument or a field without a test:
    [Disconnect], the manager-ready, interface-removed and interface-ready
    callbacks and the timeout. *)
Definition guarded (e : Event) : bool :=
  match e with
  | EvDisconnect _ | EvManagerReady | EvManagerInterfaceRemoved _
  | EvInterfaceReady _ | EvConnectTimeout _ => false
  | _ => true
  end.

(** ** More concrete runs *)

(** The address is assigned: the peer is Connected. *)
Definition connected_events : list Event :=
  configuration_events ++ [EvDhcpAddressAssigned 1 2].

(** * Properties *)

(** ** Running a member function, step by step *)

Section steps.
Context {A B : Type}.
Implicit Types (s : NetworkManager).

Lemma step_assoc {C} (c : M A) (k1 : A -> M B) (k2 : B -> M C) s :
  ((c ≫= k1) ≫= k2) s = (c ≫= (fun a => k1 a ≫= k2)) s.
Proof. unfold mbind, M_bind, bind. destruct (c s); reflexivity. Qed.

Lemma step_ret (a : A) (k : A -> M B) s : (mret a ≫= k) s = k a s.
Proof. reflexivity. Qed.

Lemma step_gets (f : NetworkManager -> A) (k : A -> M B) s :
  (gets f ≫= k) s = k (f s) s.
Proof. reflexivity. Qed.

Lemma step_modify (g : NetworkManager -> NetworkManager) (k : unit -> M B) s :
  (modify g ≫= k) s = k tt (g s).
Proof. reflexivity. Qed.

Lemma step_call (c : Call) (k : unit -> M B) s :
  (call c ≫= k) s = k tt (set_calls (calls s ++ [c]) s).
Proof. reflexivity. Qed.

Lemma step_load p (k : NetworkDevice -> M B) s d :
  objects s !! p = Some d -> (load p ≫= k) s = k d s.
Proof.
  intros H. unfold mbind, M_bind, bind, load. rewrite H. reflexivity.
Qed.

Lemma step_load_stop p (k : NetworkDevice -> M B) s :
  objects s !! p = None -> (load p ≫= k) s = Stopped (NotAnObject p).
Proof.
  intros H. unfold mbind, M_bind, bind, load. rewrite H. reflexivity.
Qed.

Lemma step_store p f (k : unit -> M B) s d :
  objects s !! p = Some d ->
  (store p f ≫= k) s = k tt (set_objects (alter f p (objects s)) s).
Proof.
  intros H. unfold store, mbind, M_bind, bind, load, modify. rewrite H.
  reflexivity.
Qed.

Lemma step_store_stop p f (k : unit -> M B) s :
  objects s !! p = None -> (store p f ≫= k) s = Stopped (NotAnObject p).
Proof.
  intros H. unfold store, mbind, M_bind, bind, load, modify. rewrite H.
  reflexivity.
Qed.

Lemma step_via h (f : NetworkManager -> option A) (k : A -> M B) s a :
  f s = Some a -> (via h f ≫= k) s = k a s.
Proof.
  intros H. unfold via, mbind, M_bind, bind, gets, deref. rewrite H.
  reflexivity.
Qed.

Lemma step_via_null h (f : NetworkManager -> option A) (k : A -> M B) s :
  f s = None -> (via h f ≫= k) s = Stopped (NullDeref h).
Proof.
  intros H. unfold via, mbind, M_bind, bind, gets, deref. rewrite H.
  reflexivity.
Qed.

Lemma step_deref h (a : A) (k : A -> M B) s :
  (deref h (Some a) ≫= k) s = k a s.
Proof. reflexivity. Qed.

Lemma step_deref_null h (k : A -> M B) s :
  (deref h None ≫= k) s = Stopped (NullDeref h).
Proof. reflexivity. Qed.

Lemma step_stop why (k : A -> M B) s : (stop why ≫= k) s = Stopped why.
Proof. reflexivity. Qed.

Lemma step_fmap {C} (f : A -> C) (c : M A) (k : C -> M B) s :
  ((f <$> c) ≫= k) s = (c ≫= (fun a => k (f a))) s.
Proof.
  unfold fmap, M_fmap, mbind, M_bind, bind, ret. destruct (c s); reflexivity.
Qed.

Lemma bind_run (c : M A) (k : A -> M B) s a s1 :
  c s = Done a s1 -> (c ≫= k) s = k a s1.
Proof. intros H. unfold mbind, M_bind, bind. rewrite H. reflexivity. Qed.

Lemma bind_stop (c : M A) (k : A -> M B) s why :
  c s = Stopped why -> (c ≫= k) s = Stopped why.
Proof. intros H. unfold mbind, M_bind, bind. rewrite H. reflexivity. Qed.

(** A run that returns is a run of its first part, then of the rest. *)
Lemma bind_Done (c : M A) (k : A -> M B) s b s' :
  (c ≫= k) s = Done b s' ->
  exists a s1, c s = Done a s1 /\ k a s1 = Done b s'.
Proof.
  unfold mbind, M_bind, bind. destruct (c s) as [a s1|]; [| discriminate].
  intros H. exists a, s1. split; [reflexivity | exact H].
Qed.
End steps.

Lemma step_when_true {B} (c : M unit) (k : unit -> M B) s :
  (when true c ≫= k) s = (c ≫= k) s.
Proof. reflexivity. Qed.

Lemma step_when_false {B} (c : M unit) (k : unit -> M B) s :
  (when false c ≫= k) s = k tt s.
Proof. reflexivity. Qed.

Lemma step_timeout_add {B} (k : nat -> M B) s :
  (g_timeout_add_seconds ≫= k) s =
  k (S (last_source s))
    (set_last_source (S (last_source s))
       (set_sources (sources s ++ [S (last_source s)]) s)).
Proof. reflexivity. Qed.

Lemma step_source_remove {B} id (k : unit -> M B) s :
  (g_source_remove id ≫= k) s =
  k tt (set_sources (filter (fun x => x ≠ id) (sources s)) s).
Proof. reflexivity. Qed.

Lemma step_new_object {B} d (k : nat -> M B) s :
  (new_object d ≫= k) s =
  k (length (objects s)) (set_objects (objects s ++ [d]) s).
Proof. reflexivity. Qed.

(** The last step of a computation. *)
Lemma last_ret {A} (a : A) s : (mret a : M A) s = Done a s.
Proof. reflexivity. Qed.

Lemma last_gets {A} (f : NetworkManager -> A) s : gets f s = Done (f s) s.
Proof. reflexivity. Qed.

Lemma last_modify g s : modify g s = Done tt (g s).
Proof. reflexivity. Qed.

Lemma last_call c s : call c s = Done tt (set_calls (calls s ++ [c]) s).
Proof. reflexivity. Qed.

Lemma last_stop {A} why s : (stop why : M A) s = Stopped why.
Proof. reflexivity. Qed.

Lemma last_store p f s d :
  objects s !! p = Some d ->
  store p f s = Done tt (set_objects (alter f p (objects s)) s).
Proof.
  intros H. unfold store, mbind, M_bind, bind, load, modify. rewrite H.
  reflexivity.
Qed.

Lemma last_when_true (c : M unit) s : when true c s = c s.
Proof. reflexivity. Qed.

Lemma last_when_false (c : M unit) s : when false c s = Done tt s.
Proof. reflexivity. Qed.

Lemma last_source_remove id s :
  g_source_remove id s =
  Done tt (set_sources (filter (fun x => x ≠ id) (sources s)) s).
Proof. reflexivity. Qed.

Lemma lookup_alter_Some {A} (f : A -> A) (l : list A) p d :
  l !! p = Some d -> alter f p l !! p = Some (f d).
Proof. intros H. rewrite list_lookup_alter_eq, H. reflexivity. Qed.

(** Fields of assignments, and the tests on values. *)
Ltac pcbn :=
  cbn beta iota delta
      [nonnull negb orb andb state_eqb ptr_eqb option_fmap option_map
       Address ObjectPath State Role IpAddress SetState SetRole SetIpV4Address
       manager_ p2p_device_ mgmt_interface_ delegate_ devices_ current_device_
       current_group_device_ current_group_iface_ dhcp_client_ dhcp_server_
       connect_timeout_ session_available_ capabilities_ objects sources
       last_source calls
       set_manager_ set_p2p_device_ set_mgmt_interface_ set_delegate_
       set_devices_ set_current_device_ set_current_group_device_
       set_current_group_iface_ set_dhcp_client_ set_dhcp_server_
       set_connect_timeout_ set_session_available_ set_capabilities_
       set_objects set_sources set_last_source set_calls] in *.

Ltac hyp_rewrite :=
  match goal with
  | H : ?x = Some _ |- context [?x] => rewrite H
  | H : ?x = None |- context [?x] => rewrite H
  | H : ?x = true |- context [?x] => rewrite H
  | H : ?x = false |- context [?x] => rewrite H
  | H : State ?d = _ |- context [State ?d] => rewrite H
  end.

Ltac solve_object :=
  solve [pcbn; repeat apply lookup_alter_Some; eassumption].

Ltac solve_field := solve [pcbn; eassumption].

Ltac sstep :=
  first
  [ rewrite step_assoc
  | rewrite step_ret
  | rewrite step_gets
  | rewrite step_modify
  | rewrite step_call
  | rewrite step_fmap
  | rewrite step_when_true
  | rewrite step_when_false
  | rewrite step_source_remove
  | rewrite step_timeout_add
  | rewrite step_new_object
  | rewrite step_deref
  | rewrite step_deref_null
  | rewrite step_stop
  | erewrite step_load by solve_object
  | erewrite step_store by solve_object
  | erewrite step_via by solve_field
  | erewrite step_via_null by solve_field
  | rewrite last_ret
  | rewrite last_gets
  | rewrite last_modify
  | rewrite last_call
  | rewrite last_stop
  | rewrite last_when_true
  | rewrite last_when_false
  | rewrite last_source_remove
  | erewrite last_store by solve_object
  | progress pcbn
  | hyp_rewrite ].

Ltac srun := repeat sstep.

(** Two compositions of assignments are compared field by field. *)
Lemma NetworkManager_ext (s1 s2 : NetworkManager) :
  manager_ s1 = manager_ s2 -> p2p_device_ s1 = p2p_device_ s2 ->
  mgmt_interface_ s1 = mgmt_interface_ s2 -> delegate_ s1 = delegate_ s2 ->
  devices_ s1 = devices_ s2 -> current_device_ s1 = current_device_ s2 ->
  current_group_device_ s1 = current_group_device_ s2 ->
  current_group_iface_ s1 = current_group_iface_ s2 ->
  dhcp_client_ s1 = dhcp_client_ s2 -> dhcp_server_ s1 = dhcp_server_ s2 ->
  connect_timeout_ s1 = connect_timeout_ s2 ->
  session_available_ s1 = session_available_ s2 ->
  capabilities_ s1 = capabilities_ s2 -> objects s1 = objects s2 ->
  sources s1 = sources s2 -> last_source s1 = last_source s2 ->
  calls s1 = calls s2 ->
  s1 = s2.
Proof. destruct s1, s2; cbn; intros; subst; reflexivity. Qed.

Ltac same_state := apply NetworkManager_ext; pcbn.

(** [a == b] on states decides their equality. *)
Lemma state_eqb_spec a b : reflect (a = b) (state_eqb a b).
Proof. destruct a, b; constructor; congruence. Qed.

Lemma state_eqb_neq a b : a ≠ b -> state_eqb a b = false.
Proof. destruct (state_eqb_spec a b); congruence. Qed.

(** ** [GenerateWfdDeviceType] *)

Lemma scan_capabilities_spec caps has_source has_sink :
  scan_capabilities caps has_source has_sink =
  (has_source || bool_decide (Capability.kSource ∈ caps),
   has_sink || bool_decide (Capability.kSink ∈ caps)).
Proof.
  revert has_source has_sink.
  induction caps as [|c caps IH]; intros has_source has_sink.
  - cbn. rewrite !orb_false_r. reflexivity.
  - assert (Hhd : bool_decide (c ∈ c :: caps) = true)
      by (apply bool_decide_eq_true_2; constructor).
    assert (Htl : forall c', c' ≠ c ->
              bool_decide (c' ∈ c :: caps) = bool_decide (c' ∈ caps)).
    { intros c' Hc'. apply bool_decide_ext. rewrite elem_of_cons. tauto. }
    destruct c; cbn [scan_capabilities Capability.eqb]; rewrite IH, Hhd,
      Htl, orb_true_r by discriminate; reflexivity.
Qed.

(** The three branches of [GenerateWfdDeviceType] assign the type the spec
    names; with neither capability the local is returned as declared. *)
Lemma GenerateWfdDeviceType_cases (caps : list Capability.t) :
  GenerateWfdDeviceType caps =
  match bool_decide (Capability.kSource ∈ caps),
        bool_decide (Capability.kSink ∈ caps) with
  | false, true => Init DeviceType.kPrimarySink
  | true, false => Init DeviceType.kSource
  | true, true => Init DeviceType.kDualRole
  | false, false => Uninit
  end.
Proof.
  unfold GenerateWfdDeviceType. rewrite scan_capabilities_spec.
  cbn [orb].
  destruct (bool_decide (Capability.kSource ∈ caps)),
    (bool_decide (Capability.kSink ∈ caps)); reflexivity.
Qed.

(** Only the empty set has neither capability. *)
Lemma neither_capability (caps : list Capability.t) :
  Capability.kSource ∉ caps -> Capability.kSink ∉ caps -> caps = [].
Proof.
  destruct caps as [|[] caps]; [reflexivity | |]; intros H1 H2;
    [destruct H1 | destruct H2]; constructor.
Qed.

(** ** Runs of events *)

Lemma reachable_run es s s' :
  reachable s -> run es s = Done tt s' -> reachable s'.
Proof.
  revert s. induction es as [|e es IH]; intros s Hs H.
  - injection H as <-. exact Hs.
  - cbn [run] in H. apply bind_Done in H as ([] & s1 & He & H).
    eapply IH; [| exact H]. eapply reachable_step; eassumption.
Qed.

Lemma reachable_after es s :
  run es initial = Done tt s -> reachable (after es).
Proof.
  intros H. unfold after. rewrite H.
  eapply reachable_run; [apply reachable_initial | exact H].
Qed.

(** ** [AdvanceDeviceState] *)

(** A transition sets the state of the device; besides, it writes
    [session_available_] and makes calls. *)
Lemma AdvanceDeviceState_run p st d s :
  objects s !! p = Some d ->
  (st = kDisconnected -> is_Some (mgmt_interface_ s)) ->
  exists available cs,
    AdvanceDeviceState p st s =
    Done tt (set_calls cs (set_session_available_ available
               (set_objects (alter (SetState st) p (objects s)) s))).
Proof.
  intros Ho Hm. unfold AdvanceDeviceState, ConfigureFromCapabilities.
  assert (Hm' : st = kDisconnected -> exists m, mgmt_interface_ s = Some m)
    by exact Hm.
  destruct st; try (destruct Hm' as [m Hm']; [reflexivity |]);
    destruct (manager_ s) eqn:Hma, (delegate_ s) eqn:Hd; srun;
    eexists _, _; f_equal; same_state; reflexivity.
Qed.

(** Running a transition of the device [d] that the goal has reached. *)
Ltac sadvance d :=
  let HA := fresh "HA" in
  match goal with
  | |- context [(AdvanceDeviceState ?p ?st ≫= _) ?X] =>
      destruct (AdvanceDeviceState_run p st d X) as (? & ? & HA);
      [solve_object
      | first [discriminate | intros _; pcbn; eauto]
      | rewrite (bind_run _ _ _ _ _ HA)]
  | |- context [AdvanceDeviceState ?p ?st ?X] =>
      destruct (AdvanceDeviceState_run p st d X) as (? & ? & HA);
      [solve_object
      | first [discriminate | intros _; pcbn; eauto]
      | rewrite HA]
  end.

(** A transition to a state that is neither Disconnected nor Connected sets
    the state of the device and notifies the delegate, nothing else. *)
Lemma AdvanceDeviceState_plain p st d s :
  objects s !! p = Some d -> st ≠ kDisconnected -> st ≠ kConnected ->
  AdvanceDeviceState p st s =
  Done tt ((if delegate_ s
            then set_calls (calls s ++ [Delegate_OnDeviceStateChanged p])
            else fun s' => s')
             (set_objects (alter (SetState st) p (objects s)) s)).
Proof.
  intros Ho H1 H2. unfold AdvanceDeviceState.
  destruct st; try congruence; destruct (delegate_ s) eqn:Hd; srun;
    reflexivity.
Qed.

(** ** The address-assigned event *)

(** [OnDhcpAddressAssigned], case by case. *)
Lemma OnDhcpAddressAssigned_run (local_address remote_address : IpV4Address)
    (s : NetworkManager) :
  (current_device_ s = None ->
   OnDhcpAddressAssigned local_address remote_address s = Done tt s) /\
  (forall p d, current_device_ s = Some p -> objects s !! p = Some d ->
   State d ≠ kConfiguration ->
   OnDhcpAddressAssigned local_address remote_address s = Done tt s) /\
  (forall p d, current_device_ s = Some p -> objects s !! p = Some d ->
   State d = kConfiguration ->
   exists s', OnDhcpAddressAssigned local_address remote_address s = Done tt s' /\
     objects s' !! p
       = Some (SetState kConnected (SetIpV4Address remote_address d)) /\
     (forall q, q ≠ p -> objects s' !! q = objects s !! q) /\
     current_device_ s' = Some p /\
     current_state s' = Some kConnected /\
     connect_timeout_ s' = 0 /\
     (connect_timeout_ s ≠ 0 -> connect_timeout_ s ∉ sources s')).
Proof.
  split; [| split].
  - intros Hc. unfold OnDhcpAddressAssigned. srun. reflexivity.
  - intros p d Hc Ho Hs. unfold OnDhcpAddressAssigned.
    apply state_eqb_neq in Hs. srun. reflexivity.
  - intros p d Hc Ho Hs.
    unfold OnDhcpAddressAssigned, AdvanceDeviceState, StopConnectTimeout,
      ConfigureFromCapabilities.
    destruct (Nat.eqb (connect_timeout_ s) 0) eqn:Ht, (manager_ s) eqn:Hm,
      (delegate_ s) eqn:Hd; srun;
      (eexists; split; [reflexivity |]); unfold current_state; pcbn;
      rewrite ?Hc, ?list_lookup_alter_eq, ?Ho; pcbn;
      (split; [reflexivity |]);
      (split; [intros q Hq; rewrite !list_lookup_alter_ne by congruence;
               reflexivity |]);
      (split; [reflexivity |]); (split; [reflexivity |]);
      (split; [first [reflexivity | apply Nat.eqb_eq; assumption] |]);
      intros Hne; try (apply Nat.eqb_eq in Ht; contradiction);
      rewrite list_elem_of_filter; tauto.
Qed.


(** ** The group-finished event *)

(** The statements of [OnGroupFinished], for a current device [d]. *)
Lemma OnGroupFinished_run (group_path interface_path : string) s p d m :
  current_device_ s = Some p -> objects s !! p = Some d ->
  mgmt_interface_ s = Some m ->
  exists s1,
    OnGroupFinished_release p s = Done tt s1 /\
    OnGroupFinished group_path interface_path s
      = Done tt (set_current_device_ None s1) /\
    current_device_ s1 = Some p /\
    connect_timeout_ s1 = 0 /\
    (connect_timeout_ s ≠ 0 -> connect_timeout_ s ∉ sources s1) /\
    dhcp_client_ s1 = None /\ dhcp_server_ s1 = None /\
    current_group_iface_ s1 = None /\ current_group_device_ s1 = None /\
    objects s1 !! p = Some (SetState kDisconnected d) /\
    (forall q, q ≠ p -> objects s1 !! q = objects s !! q).
Proof.
  intros Hc Ho Hm.
  unfold OnGroupFinished, OnGroupFinished_release, StopConnectTimeout.
  destruct (Nat.eqb (connect_timeout_ s) 0) eqn:Ht; srun;
    match goal with
    | |- context [AdvanceDeviceState p kDisconnected ?X] =>
        destruct (AdvanceDeviceState_run p kDisconnected d X)
          as (av & cs & HA); [solve_object | pcbn; eauto |]
    end;
    rewrite (bind_run _ _ _ _ _ HA), HA; srun;
    (eexists; split; [reflexivity |]); pcbn;
    rewrite list_lookup_alter_eq, Ho;
    repeat split; try reflexivity; try assumption;
    try (intros q Hq; apply list_lookup_alter_ne; congruence).
  - apply Nat.eqb_eq. exact Ht.
  - apply Nat.eqb_eq in Ht. intros Hne. contradiction.
  - intros _. rewrite list_elem_of_filter. tauto.
Qed.

(** Without a management interface the transition to Disconnected cannot
    send its driver command. *)
Lemma OnGroupFinished_Done group_path interface_path s p d s' :
  current_device_ s = Some p -> objects s !! p = Some d ->
  OnGroupFinished group_path interface_path s = Done tt s' ->
  is_Some (mgmt_interface_ s).
Proof.
  intros Hc Ho. destruct (mgmt_interface_ s) as [m|] eqn:Hm; [eauto |].
  unfold OnGroupFinished, OnGroupFinished_release, StopConnectTimeout,
    AdvanceDeviceState.
  destruct (Nat.eqb (connect_timeout_ s) 0) eqn:Ht; srun; discriminate.
Qed.


(** ** The connect timeout *)

(** The timeout source [id] is dispatched, for a current device [d]. *)
Lemma ConnectTimeout_run (id : nat) (s : NetworkManager)
    (p : DevicePtr) (d : NetworkDevice) :
  id ∈ sources s -> current_device_ s = Some p -> objects s !! p = Some d ->
  (State d = kConnected \/ State d = kConfiguration ->
   OnConnectTimeout s = Done false (set_connect_timeout_ 0 s) /\
   dispatch_source id s =
   Done tt (set_sources (filter (fun x => x ≠ id) (sources s))
              (set_connect_timeout_ 0 s))) /\
  (State d ≠ kConnected -> State d ≠ kConfiguration ->
   is_Some (p2p_device_ s) ->
   exists s',
     dispatch_source id s = Done tt s' /\
     calls s' = calls s ++ P2P_Cancel ::
                  (if delegate_ s then [Delegate_OnDeviceStateChanged p] else []) /\
     objects s' !! p = Some (SetState kFailure d) /\
     (forall q, q ≠ p -> objects s' !! q = objects s !! q) /\
     current_device_ s' = None /\
     connect_timeout_ s' = 0 /\ id ∉ sources s').
Proof.
  intros Hid Hc Ho. split.
  - intros Hs.
    assert (HT : OnConnectTimeout s = Done false (set_connect_timeout_ 0 s)).
    { unfold OnConnectTimeout. destruct Hs as [Hs | Hs]; srun; reflexivity. }
    split; [exact HT |].
    unfold dispatch_source. srun.
    rewrite bool_decide_eq_true_2 by exact Hid.
    rewrite (bind_run _ _ _ _ _ HT). srun. reflexivity.
  - intros H1 H2 [x Hx].
    unfold dispatch_source, OnConnectTimeout. srun.
    rewrite bool_decide_eq_true_2 by exact Hid.
    apply state_eqb_neq in H1, H2. srun.
    erewrite bind_run;
      [| apply (AdvanceDeviceState_plain p kFailure d);
         [solve_object | discriminate ..]].
    destruct (delegate_ s) eqn:Hd; srun;
      (eexists; split; [reflexivity |]); pcbn;
      rewrite ?Hd, list_lookup_alter_eq, Ho;
      repeat split; try reflexivity;
      try (intros q Hq; apply list_lookup_alter_ne; congruence);
      try (rewrite list_elem_of_filter; tauto).
    rewrite <- app_assoc. reflexivity.
Qed.


(** ** [FindDevice] *)

(** One turn of the loop of [FindDevice]. *)
Lemma FindDevice_iter_cons address k p m s :
  FindDevice_iter address ((k, p) :: m) s =
  match objects s !! p with
  | Some d =>
      if String.eqb (Address d) address then Done (Some p) s
      else FindDevice_iter address m s
  | None => Stopped (NotAnObject p)
  end.
Proof.
  cbn [FindDevice_iter]. destruct (objects s !! p) as [d|] eqn:Ho.
  - erewrite step_load by exact Ho.
    destruct (String.eqb (Address d) address); reflexivity.
  - erewrite step_load_stop by exact Ho. reflexivity.
Qed.

(** [FindDevice] reads the registry and the objects, and changes nothing; it
    returns the first registered device with the address, in the order of
    the keys. *)
Lemma FindDevice_iter_Done address m s r s' :
  FindDevice_iter address m s = Done r s' ->
  s' = s /\
  match r with
  | Some p => exists k d, (k, p) ∈ m /\ objects s !! p = Some d /\
                          Address d = address
  | None => forall k p, (k, p) ∈ m ->
                        exists d, objects s !! p = Some d /\ Address d ≠ address
  end.
Proof.
  induction m as [|[k p] m IH].
  - intros H. injection H as <- <-. split; [reflexivity |].
    intros k p Hin. inversion Hin.
  - rewrite FindDevice_iter_cons.
    destruct (objects s !! p) as [d|] eqn:Ho; [| discriminate].
    destruct (String.eqb (Address d) address) eqn:Ha; intros H.
    + injection H as <- <-. split; [reflexivity |].
      exists k, d. apply String.eqb_eq in Ha.
      split; [constructor | split; assumption].
    + destruct (IH H) as [-> Hr]. split; [reflexivity |].
      destruct r as [q|].
      * destruct Hr as (k' & d' & Hin & Hq). exists k', d'.
        split; [right; exact Hin | exact Hq].
      * intros k' p' Hin. apply elem_of_cons in Hin as [Heq | Hin].
        -- injection Heq as -> ->. exists d.
           apply String.eqb_neq in Ha. split; assumption.
        -- eapply Hr, Hin.
Qed.

Lemma FindDevice_iter_None address m s :
  (forall k p, (k, p) ∈ m ->
     exists d, objects s !! p = Some d /\ Address d ≠ address) ->
  FindDevice_iter address m s = Done None s.
Proof.
  induction m as [|[k p] m IH]; intros H; [reflexivity |].
  rewrite FindDevice_iter_cons.
  destruct (H k p) as (d & Ho & Ha); [constructor |].
  rewrite Ho. apply String.eqb_neq in Ha. rewrite Ha.
  apply IH. intros k' p' Hin. apply (H k' p'). right. exact Hin.
Qed.

(** The answer depends on the objects only. *)
Lemma FindDevice_iter_frame address m s s' r :
  objects s' = objects s ->
  FindDevice_iter address m s = Done r s ->
  FindDevice_iter address m s' = Done r s'.
Proof.
  intros Hobj.
  induction m as [|[k p] m IH].
  - intros H. injection H as <-. reflexivity.
  - rewrite !FindDevice_iter_cons, Hobj.
    destruct (objects s !! p) as [d|]; [| discriminate].
    destruct (String.eqb (Address d) address); [| exact IH].
    intros H. injection H as <-. reflexivity.
Qed.

(** [FindDevice] never calls through a null pointer. *)
Lemma FindDevice_iter_no_NullDeref address m s h :
  FindDevice_iter address m s ≠ Stopped (NullDeref h).
Proof.
  induction m as [|[k p] m IH]; [discriminate |].
  rewrite FindDevice_iter_cons.
  destruct (objects s !! p) as [d|]; [| discriminate].
  destruct (String.eqb (Address d) address); [discriminate | exact IH].
Qed.

Lemma FindDevice_unfold address s :
  FindDevice address s = FindDevice_iter address (devices_ s) s.
Proof. reflexivity. Qed.

Lemma FindDevice_Done address s r s' :
  FindDevice address s = Done r s' ->
  s' = s /\
  match r with
  | Some p => exists k d, (k, p) ∈ devices_ s /\ objects s !! p = Some d /\
                          Address d = address
  | None => forall k p, (k, p) ∈ devices_ s ->
                        exists d, objects s !! p = Some d /\ Address d ≠ address
  end.
Proof. rewrite FindDevice_unfold. apply FindDevice_iter_Done. Qed.

Lemma FindDevice_None address s :
  (forall k p, (k, p) ∈ devices_ s ->
     exists d, objects s !! p = Some d /\ Address d ≠ address) ->
  FindDevice address s = Done None s.
Proof. rewrite FindDevice_unfold. apply FindDevice_iter_None. Qed.

Lemma FindDevice_frame address s s' r :
  devices_ s' = devices_ s -> objects s' = objects s ->
  FindDevice address s = Done r s ->
  FindDevice address s' = Done r s'.
Proof.
  rewrite !FindDevice_unfold. intros -> Hobj.
  apply FindDevice_iter_frame, Hobj.
Qed.

(** With every registered pointer an object, [FindDevice] returns. *)
Lemma FindDevice_iter_total address m s :
  (forall k p, (k, p) ∈ m -> is_Some (objects s !! p)) ->
  exists r, FindDevice_iter address m s = Done r s.
Proof.
  induction m as [|[k p] m IH]; intros H; [eexists; reflexivity |].
  rewrite FindDevice_iter_cons.
  destruct (H k p) as [d Ho]; [constructor |]. rewrite Ho.
  destruct (String.eqb (Address d) address); [eexists; reflexivity |].
  apply IH. intros k' p' Hin. apply (H k' p'). right. exact Hin.
Qed.

(** ** [Connect] *)

(** The three guards of [Connect] that read no device. *)
Lemma Connect_guard device accepted s :
  p2p_device_ s = None \/ current_device_ s ≠ None \/ device = None ->
  Connect device accepted s = Done false s.
Proof.
  intros H. unfold Connect.
  destruct (p2p_device_ s) as [x|] eqn:Hp,
    (current_device_ s) as [c|] eqn:Hc; srun; try reflexivity.
  destruct H as [H | [H | ->]]; [discriminate | congruence | reflexivity].
Qed.

(** [Connect] with a connection in progress. *)
Lemma Connect_in_progress device accepted s :
  current_device_ s ≠ None -> Connect device accepted s = Done false s.
Proof. intros H. apply Connect_guard. right. left. exact H. Qed.

(** What [Connect] does once its four preconditions hold. *)
Lemma Connect_found dev accepted s x p d :
  p2p_device_ s = Some x -> current_device_ s = None ->
  FindDevice (Address dev) s = Done (Some p) s -> objects s !! p = Some d ->
  Connect (Some dev) accepted s =
  if accepted then
    Done true
      (set_connect_timeout_ (S (last_source s))
         (set_last_source (S (last_source s))
            (set_sources (sources s ++ [S (last_source s)])
               (set_calls
                  (calls s ++ [P2P_StopFind; P2P_Connect (ObjectPath d)] ++
                     (if delegate_ s
                      then [Delegate_OnDeviceStateChanged p] else []))
                  (set_objects (alter (SetState kAssociation) p (objects s))
                     (set_current_device_ (Some p) s))))))
  else
    Done false
      (set_calls (calls s ++ [P2P_StopFind; P2P_Connect (ObjectPath d)])
         (set_current_device_ (Some p) s)).
Proof.
  intros Hp Hc Hf Ho. unfold Connect, StartConnectTimeout. srun.
  rewrite (bind_run _ _ _ _ _ Hf).
  destruct accepted, (delegate_ s) eqn:Hd; srun; f_equal; same_state;
    rewrite <- ?app_assoc, ?app_nil_r; reflexivity.
Qed.

Lemma run_Connects_in_progress (cs : list (option NetworkDevice * bool)) s :
  current_device_ s ≠ None ->
  run (map (fun c => EvConnect (fst c) (snd c)) cs) s = Done tt s.
Proof.
  intros H. induction cs as [|[device accepted] cs IH]; [reflexivity |].
  cbn [map run handle fst snd]. srun.
  rewrite (bind_run _ _ _ _ _ (Connect_in_progress _ _ _ H)). srun.
  exact IH.
Qed.


(** ** [Disconnect] *)

(** [Disconnect], guard by guard. *)
Lemma Disconnect_run device s :
  Disconnect device s =
  if negb (nonnull (p2p_device_ s)) || negb (nonnull (current_device_ s))
  then Done false s
  else
    match device with
    | None => Stopped (NullDeref h_device)
    | Some dev =>
        match FindDevice (Address dev) s with
        | Done None _ => Done false s
        | Done (Some _) _ =>
            match current_group_device_ s with
            | None => Stopped (NullDeref h_current_group_device_)
            | Some g =>
                Done true (set_calls (calls s ++ [Group_Disconnect g]) s)
            end
        | Stopped why => Stopped why
        end
    end.
Proof.
  unfold Disconnect. srun.
  destruct (negb _ || negb _); [reflexivity |].
  destruct device as [dev|]; srun; [| reflexivity].
  destruct (FindDevice (Address dev) s) as [r s'|] eqn:Hf.
  - apply FindDevice_Done in Hf as Hs'. destruct Hs' as [-> _].
    rewrite (bind_run _ _ _ _ _ Hf).
    destruct r; srun; [| reflexivity].
    destruct (current_group_device_ s) eqn:Hg; srun; reflexivity.
  - rewrite (bind_stop _ _ _ _ Hf). reflexivity.
Qed.

(** [Disconnect] writes no field: it returns false, or asks the group to
    disconnect and returns true. *)
Lemma Disconnect_Done device s r s1 :
  Disconnect device s = Done r s1 ->
  if r
  then exists g, current_group_device_ s = Some g /\
                 s1 = set_calls (calls s ++ [Group_Disconnect g]) s
  else s1 = s.
Proof.
  rewrite Disconnect_run.
  destruct (negb _ || negb _); [intros H; injection H as <- <-; reflexivity |].
  destruct device as [dev|]; [| discriminate].
  destruct (FindDevice (Address dev) s) as [[q|] s'|]; try discriminate.
  - destruct (current_group_device_ s) as [g|]; [| discriminate].
    intros H. injection H as <- <-. exists g. split; reflexivity.
  - intros H. injection H as <- <-. reflexivity.
Qed.


(** ** The invariant *)

Lemma Inv_initial : Inv initial.
Proof.
  constructor; unfold current_state; cbn.
  - intros k p H. inversion H.
  - discriminate.
  - intros [x H]. discriminate.
  - reflexivity.
  - intros q d H. destruct q; discriminate.
  - intros [H | H]; discriminate.
  - discriminate.
  - reflexivity.
  - congruence.
Qed.

(** [Inv] reads nine fields. *)
Lemma Inv_frame s s' :
  p2p_device_ s' = p2p_device_ s -> mgmt_interface_ s' = mgmt_interface_ s ->
  devices_ s' = devices_ s -> current_device_ s' = current_device_ s ->
  current_group_device_ s' = current_group_device_ s ->
  current_group_iface_ s' = current_group_iface_ s ->
  connect_timeout_ s' = connect_timeout_ s -> objects s' = objects s ->
  sources s' = sources s ->
  Inv s -> Inv s'.
Proof.
  intros H1 H2 H3 H4 H5 H6 H7 H8 H9 [].
  constructor; unfold current_state in *;
    rewrite ?H1, ?H2, ?H3, ?H4, ?H5, ?H6, ?H7, ?H8, ?H9; assumption.
Qed.

(** The registry after an assignment and after an erasure. *)
Lemma elem_of_map_assign key v m k p :
  (k, p) ∈ map_assign key v m -> (k, p) = (key, v) \/ (k, p) ∈ m.
Proof.
  induction m as [|[k' w] m IH]; cbn [map_assign].
  - intros H. apply list_elem_of_singleton in H. left. exact H.
  - destruct (String.eqb k' key); [| destruct (String.ltb key k')];
      rewrite !elem_of_cons; intros H.
    + destruct H as [H | H]; [left; exact H | right; right; exact H].
    + destruct H as [H | [H | H]]; [left; exact H | right; left; exact H
                                   | right; right; exact H].
    + destruct H as [H | H]; [right; left; exact H |].
      destruct (IH H) as [H' | H']; [left; exact H' | right; right; exact H'].
Qed.

Lemma elem_of_map_erase key m k p :
  (k, p) ∈ map_erase key m -> (k, p) ∈ m.
Proof.
  induction m as [|[k' w] m IH]; cbn [map_erase]; [trivial |].
  destruct (String.eqb k' key); rewrite !elem_of_cons; intros H.
  - right. exact H.
  - destruct H as [H | H]; [left; exact H | right; exact (IH H)].
Qed.

(** *** Taking a run apart *)

Ltac destruct_inner x :=
  lazymatch x with
  | context [match ?y with _ => _ end] => destruct_inner y
  | context [nonnull ?y] => destruct y eqn:?
  | context [state_eqb (State ?d) _] => destruct (State d) eqn:?
  | _ => destruct x eqn:?
  end.

(** The goal is [c s = Done tt s' -> _]: the run is over. *)
Ltac sfinish :=
  lazymatch goal with
  | |- Done _ _ = Done _ _ -> _ =>
      let H := fresh in
      intros H; first [injection H as <- <- | injection H as <-]
  | |- Stopped _ = Done _ _ -> _ => discriminate
  end.

(** A test of the code on which the run depends. *)
Ltac scase :=
  lazymatch goal with
  | |- ?lhs = Done _ _ -> _ =>
      match lhs with
      | context [match ?x with _ => _ end] => destruct_inner x
      | context [when ?b _] => destruct_inner b
      end
  end.

Ltac sadvance_at p st X rw :=
  let Ho := fresh "Hobj" in
  let HA := fresh "HA" in
  eassert (Ho : objects X !! p = Some _) by solve_object;
  lazymatch type of Ho with
  | _ = Some ?d =>
      destruct (AdvanceDeviceState_run p st d X Ho) as (? & ? & HA);
      [first [discriminate | intros _; pcbn; eauto]
      | rw HA; clear Ho HA]
  end.

Ltac sadvance_any :=
  match goal with
  | |- context [(AdvanceDeviceState ?p ?st ≫= _) ?X] =>
      sadvance_at p st X ltac:(fun HA => rewrite (bind_run _ _ _ _ _ HA))
  | |- context [AdvanceDeviceState ?p ?st ?X] =>
      sadvance_at p st X ltac:(fun HA => rewrite HA)
  end.

(** A pointer the run calls through, of which nothing is known. *)
Ltac ssplit :=
  match goal with
  | |- context [(via _ ?f ≫= _) ?X] =>
      let E := fresh "Hv" in destruct (f X) eqn:E; pcbn
  | |- context [(load ?p ≫= _) ?X] =>
      let E := fresh "Ho" in destruct (objects X !! p) eqn:E; pcbn
  | |- context [(store ?p _ ≫= _) ?X] =>
      let E := fresh "Ho" in destruct (objects X !! p) eqn:E; pcbn
  end.

Ltac sinv :=
  repeat first [sstep | sfinish | sadvance_any | scase
               | erewrite step_load_stop by solve_field
               | erewrite step_store_stop by solve_field
               | ssplit].

(** What the invariant says of the current device. *)
Ltac current_facts HI s :=
  let Hc := fresh "Hc" in
  let Ho := fresh "Ho" in
  let Hp := fresh "Hp" in
  let Hm := fresh "Hm" in
  destruct (current_device_ s) as [?p|] eqn:Hc;
  [destruct (inv_current _ HI _ Hc) as [[?d Ho] Hp];
   pose proof (inv_mgmt _ HI Hp) as Hm;
   destruct Hp as [?x Hp]; destruct Hm as [?m Hm] |].

(** The nine parts of the invariant, on a state that is written out. *)
Ltac inv_fields HI :=
  let I1 := fresh "Iregistry" in
  let I2 := fresh "Icurrent" in
  let I3 := fresh "Imgmt" in
  let I4 := fresh "Igroup" in
  let I5 := fresh "Iothers" in
  let I6 := fresh "Iconfigured" in
  let I7 := fresh "Iassoc" in
  let I8 := fresh "Iconnected" in
  let I9 := fresh "Itimer" in
  destruct HI as [I1 I2 I3 I4 I5 I6 I7 I8 I9];
  constructor; unfold current_state in *; pcbn.

Lemma Inv_SetupInterface path s s' :
  Inv s -> SetupInterface path s = Done tt s' -> Inv s'.
Proof.
  intros HI. unfold SetupInterface. sinv.
  - apply (Inv_frame s); pcbn; try reflexivity; assumption.
  - inv_fields HI; eauto.
    intros p Hc. destruct (Icurrent p Hc) as [Ho _]. eauto.
Qed.

(** Lookups in the objects after [store]s. *)
Ltac lookups :=
  repeat match goal with
  | |- context [alter _ ?p _ !! ?p] => rewrite list_lookup_alter_eq
  | H : context [alter _ ?p _ !! ?p] |- _ => rewrite list_lookup_alter_eq in H
  | |- context [alter _ ?p _ !! ?q] =>
      destruct (decide (p = q)) as [<- | ?];
      [rewrite list_lookup_alter_eq
      | rewrite (list_lookup_alter_ne _ _ p q) by assumption]
  | H : context [alter _ ?p _ !! ?q] |- _ =>
      destruct (decide (p = q)) as [<- | ?];
      [rewrite list_lookup_alter_eq in H
      | rewrite (list_lookup_alter_ne _ _ p q) in H by assumption]
  | Ho : ?o !! ?p = Some _, H : context [?o !! ?p] |- _ =>
      rewrite Ho in H
  | Ho : ?o !! ?p = Some _ |- context [?o !! ?p] => rewrite Ho
  end;
  cbn [fmap option_fmap option_map State SetState SetRole SetIpV4Address] in *.

Ltac inv_one :=
  intros;
  repeat match goal with
  | Hc : current_device_ ?s = _, H : context [current_device_ ?s] |- _ =>
      rewrite Hc in H
  | Hc : current_device_ ?s = _ |- context [current_device_ ?s] =>
      rewrite Hc
  end;
  repeat match goal with
  | H : _ = _ \/ _ = _ |- _ => destruct H
  | H : _ ∈ map_erase _ _ |- _ => apply elem_of_map_erase in H
  end;
  simplify_eq; lookups; simplify_eq;
  first [ assumption | discriminate | reflexivity | congruence
        | solve [eauto] | tauto
        | match goal with
          | H : is_Some None |- _ => destruct H; discriminate
          | I : forall q d, _ !! q = Some d -> _ ≠ Some q -> _
            |- State _ = _ \/ _ => eapply I; [eassumption | congruence]
          | I : forall q d, _ !! q = Some d -> _ ≠ Some q -> _,
            Ho : _ !! ?p = Some ?d, Hs : State ?d = _ |- _ =>
              destruct (I p d Ho ltac:(congruence)); congruence
          | I : _ \/ _ -> is_Some ?g |- is_Some ?g =>
              apply I; first [left; congruence | right; congruence]
          | H : Nat.eqb ?a ?b = true |- ?a = ?b => apply Nat.eqb_eq, H
          | |- _ ∈ _ ++ [_] => apply elem_of_app; right; constructor
          | |- _ ∉ filter _ _ => rewrite list_elem_of_filter; tauto
          end
        | idtac ].

(** A handler that writes none of the nine fields. *)
Ltac by_frame s :=
  sinv; apply (Inv_frame s); pcbn; try reflexivity; assumption.

(** *** Every handler keeps the invariant *)

Lemma Inv_Initialize b s s' : Inv s -> Initialize b s = Done tt s' -> Inv s'.
Proof. intros HI. unfold Initialize. destruct b; by_frame s. Qed.

Lemma Inv_SetDelegate b s s' : Inv s -> SetDelegate b s = Done tt s' -> Inv s'.
Proof. intros HI. unfold SetDelegate. by_frame s. Qed.

Lemma Inv_SetCapabilities caps s s' :
  Inv s -> SetCapabilities caps s = Done tt s' -> Inv s'.
Proof.
  intros HI. unfold SetCapabilities, ConfigureFromCapabilities. by_frame s.
Qed.

Lemma Inv_Scan t s s' : Inv s -> Scan t s = Done tt s' -> Inv s'.
Proof. intros HI. unfold Scan. by_frame s. Qed.

Lemma Inv_delegate_call (c : Call) s s' :
  Inv s ->
  (dl ← gets delegate_; when dl (call c)) s = Done tt s' ->
  Inv s'.
Proof. intros HI. by_frame s. Qed.

Lemma Inv_OnInterfaceSelectionDone path s s' :
  Inv s -> OnInterfaceSelectionDone path s = Done tt s' -> Inv s'.
Proof.
  intros HI. unfold OnInterfaceSelectionDone.
  destruct (Nat.eqb (String.length path) 0).
  - by_frame s.
  - apply Inv_SetupInterface, HI.
Qed.

Lemma Inv_ReleaseInterface s s' :
  Inv s -> ReleaseInterface s = Done tt s' -> Inv s'.
Proof.
  intros HI. unfold ReleaseInterface. current_facts HI s; sinv;
    inv_fields HI; inv_one.
Qed.

Lemma Inv_ReleaseInternal s s' :
  Inv s -> ReleaseInternal s = Done tt s' -> Inv s'.
Proof.
  intros HI. unfold ReleaseInternal. intros H.
  apply bind_Done in H as ([] & s1 & H1 & H).
  apply (Inv_ReleaseInterface _ _ HI) in H1.
  revert H. by_frame s1.
Qed.

Lemma Inv_OnManagerInterfaceRemoved path s s' :
  Inv s -> OnManagerInterfaceRemoved path s = Done tt s' -> Inv s'.
Proof.
  intros HI. unfold OnManagerInterfaceRemoved.
  destruct (p2p_device_ s) as [x|] eqn:Hp; srun; [| discriminate].
  destruct (String.eqb x path); pcbn.
  - apply Inv_ReleaseInterface, HI.
  - by_frame s.
Qed.

Lemma Inv_Disconnect device s r s' :
  Inv s -> Disconnect device s = Done r s' -> Inv s'.
Proof.
  intros HI H. apply Disconnect_Done in H as Hshape.
  destruct r; [destruct Hshape as (g & _ & ->) | subst s'; exact HI].
  apply (Inv_frame s); pcbn; try reflexivity; assumption.
Qed.
Lemma Inv_OnGroupStarted g i r s s' :
  Inv s -> OnGroupStarted g i r s = Done tt s' -> Inv s'.
Proof.
  intros HI. unfold OnGroupStarted. current_facts HI s; sinv; [| exact HI].
  inv_fields HI; inv_one.
Qed.

Lemma Inv_Connect device accepted s r s' :
  Inv s -> Connect device accepted s = Done r s' -> Inv s'.
Proof.
  intros HI. unfold Connect, StartConnectTimeout.
  destruct (p2p_device_ s) as [x|] eqn:Hp,
    (current_device_ s) as [c|] eqn:Hc; srun;
    try (intros H; injection H as <- <-; exact HI).
  destruct device as [dev|]; srun;
    [| intros H; injection H as <- <-; exact HI].
  destruct (FindDevice (Address dev) s) as [[p|] s1|] eqn:Hf.
  - apply FindDevice_Done in Hf as Hs1.
    destruct Hs1 as (-> & k & d & Hin & Ho & Ha).
    rewrite (bind_run _ _ _ _ _ Hf). sinv.
    all: inv_fields HI; inv_one.
  - apply FindDevice_Done in Hf as Hs1. destruct Hs1 as [-> _].
    rewrite (bind_run _ _ _ _ _ Hf). sinv. exact HI.
  - rewrite (bind_stop _ _ _ _ Hf). discriminate.
Qed.

Lemma Inv_OnInterfaceReady path s s' :
  Inv s -> OnInterfaceReady path s = Done tt s' -> Inv s'.
Proof.
  intros HI. unfold OnInterfaceReady, OnGroupInterfaceReady,
    OnManagementInterfaceReady.
  current_facts HI s; by_frame s.
Qed.

(** A new object, Disconnected, and a registry that may point to it. *)
Lemma Inv_new_object s d m' :
  Inv s -> State d = kDisconnected ->
  (forall k p, (k, p) ∈ m' -> (k, p) ∈ devices_ s \/ p = length (objects s)) ->
  Inv (set_devices_ m' (set_objects (objects s ++ [d]) s)).
Proof.
  intros HI Hd Hm'.
  assert (Hcur : current_state
                   (set_devices_ m' (set_objects (objects s ++ [d]) s))
                 = current_state s).
  { unfold current_state. pcbn.
    destruct (current_device_ s) as [p|] eqn:Hc; [| reflexivity].
    destruct (inv_current _ HI _ Hc) as [[d' Ho] _].
    rewrite (lookup_app_l_Some _ _ _ _ Ho), Ho. reflexivity. }
  destruct HI as [I1 I2 I3 I4 I5 I6 I7 I8 I9].
  constructor; rewrite ?Hcur; pcbn; try assumption.
  - intros k p Hin. destruct (Hm' k p Hin) as [Hin' | ->].
    + destruct (I1 k p Hin') as [d' Ho]. exists d'.
      apply lookup_app_l_Some, Ho.
    + exists d. apply list_lookup_middle. reflexivity.
  - intros p Hc. destruct (I2 p Hc) as [[d' Ho] Hp]. split; [| exact Hp].
    exists d'. apply lookup_app_l_Some, Ho.
  - intros q d' Ho Hc. apply lookup_app_Some in Ho as [Ho | [_ Ho]].
    + exact (I5 q d' Ho Hc).
    + apply list_lookup_singleton_Some in Ho as [_ <-]. left. exact Hd.
Qed.

Lemma Inv_OnDeviceFound path address s s' :
  Inv s -> OnDeviceFound path address s = Done tt s' -> Inv s'.
Proof.
  intros HI. unfold OnDeviceFound. sinv; [exact HI |].
  apply Inv_new_object; [exact HI | reflexivity |].
  intros k p Hin. apply elem_of_map_assign in Hin as [Hin | Hin].
  - injection Hin as -> ->. right. reflexivity.
  - left. exact Hin.
Qed.

Lemma Inv_OnDeviceLost path s s' :
  Inv s -> OnDeviceLost path s = Done tt s' -> Inv s'.
Proof.
  intros HI. unfold OnDeviceLost.
  destruct (map_find path (devices_ s)) as [device|] eqn:Hfind; srun;
    [| sinv; exact HI].
  sinv; inv_fields HI; inv_one.
Qed.

Lemma Inv_HandleConnectFailed s s' :
  Inv s -> is_Some (current_device_ s) ->
  HandleConnectFailed s = Done tt s' -> Inv s'.
Proof.
  intros HI [c Hc']. unfold HandleConnectFailed, StopConnectTimeout.
  current_facts HI s; [| discriminate].
  sinv; inv_fields HI; inv_one.
Qed.

Lemma Inv_OnPeerConnectFailed s s' :
  Inv s -> OnPeerConnectFailed s = Done tt s' -> Inv s'.
Proof.
  intros HI. unfold OnPeerConnectFailed.
  destruct (current_device_ s) as [p|] eqn:Hc; srun.
  - apply Inv_HandleConnectFailed; [exact HI | eauto].
  - sinv. exact HI.
Qed.

Lemma Inv_OnGroupOwnerNegotiationFailure s s' :
  Inv s -> OnGroupOwnerNegotiationFailure s = Done tt s' -> Inv s'.
Proof.
  intros HI. unfold OnGroupOwnerNegotiationFailure.
  destruct (current_device_ s) as [p|] eqn:Hc; srun.
  - apply Inv_HandleConnectFailed; [exact HI | eauto].
  - sinv. exact HI.
Qed.

Lemma Inv_OnGroupFinished g i s s' :
  Inv s -> OnGroupFinished g i s = Done tt s' -> Inv s'.
Proof.
  intros HI. unfold OnGroupFinished, OnGroupFinished_release,
    StopConnectTimeout.
  current_facts HI s; sinv; [| | exact HI]; inv_fields HI; inv_one.
Qed.

Lemma Inv_OnDhcpAddressAssigned l r s s' :
  Inv s -> OnDhcpAddressAssigned l r s = Done tt s' -> Inv s'.
Proof.
  intros HI. unfold OnDhcpAddressAssigned, StopConnectTimeout.
  current_facts HI s; sinv; try exact HI; inv_fields HI; inv_one.
Qed.

Lemma Inv_OnDhcpTerminated s s' :
  Inv s -> OnDhcpTerminated s = Done tt s' -> Inv s'.
Proof.
  intros HI. unfold OnDhcpTerminated.
  current_facts HI s; sinv; try exact HI.
  intros H. apply bind_Done in H as (r & s1 & HD & H).
  apply Disconnect_Done in HD.
  assert (Hs1 : exists cs, s1 = set_calls cs s).
  { destruct r; [destruct HD as (g & _ & ->) | subst s1]; eexists;
      [reflexivity |]. same_state; reflexivity. }
  destruct Hs1 as [cs ->]. revert H.
  sinv; inv_fields HI; inv_one.
Qed.

Lemma Inv_dispatch_source id s s' :
  Inv s -> dispatch_source id s = Done tt s' -> Inv s'.
Proof.
  intros HI. unfold dispatch_source, OnConnectTimeout.
  current_facts HI s; sinv; inv_fields HI; inv_one.
Qed.

Lemma Inv_handle e s s' : Inv s -> handle e s = Done tt s' -> Inv s'.
Proof.
  intros HI. destruct e; cbn [handle].
  - apply Inv_Initialize, HI.
  - apply Inv_ReleaseInternal, HI.
  - apply Inv_SetDelegate, HI.
  - apply Inv_SetCapabilities, HI.
  - apply Inv_Scan, HI.
  - intros H. apply bind_Done in H as (r & s1 & H1 & H).
    injection H as <-. exact (Inv_Connect _ _ _ _ _ HI H1).
  - intros H. apply bind_Done in H as (r & s1 & H1 & H).
    injection H as <-. exact (Inv_Disconnect _ _ _ _ HI H1).
  - apply Inv_OnInterfaceSelectionDone, HI.
  - unfold OnManagerReady, ConfigureFromCapabilities. by_frame s.
  - apply Inv_OnManagerInterfaceRemoved, HI.
  - apply Inv_OnInterfaceReady, HI.
  - apply Inv_delegate_call, HI.
  - apply Inv_OnDeviceFound, HI.
  - apply Inv_OnDeviceLost, HI.
  - apply Inv_delegate_call, HI.
  - apply Inv_delegate_call, HI.
  - apply Inv_OnPeerConnectFailed, HI.
  - apply Inv_OnGroupOwnerNegotiationFailure, HI.
  - intros H. injection H as <-. exact HI.
  - apply Inv_OnGroupStarted, HI.
  - apply Inv_OnGroupFinished, HI.
  - intros H. injection H as <-. exact HI.
  - apply Inv_OnDhcpAddressAssigned, HI.
  - apply Inv_OnDhcpTerminated, HI.
  - apply Inv_dispatch_source, HI.
Qed.

(** The invariant holds in every state the manager reaches. *)
Lemma reachable_Inv s : reachable s -> Inv s.
Proof.
  induction 1 as [|s e s' _ IH H]; [apply Inv_initial |].
  exact (Inv_handle e s s' IH H).
Qed.


(** * What the handlers keep *)

(** ** Computations that keep a property *)

Section keeping.
Context (P : NetworkManager -> Prop).

Lemma preserves_ret {A} (a : A) : preserves P (mret a : M A).
Proof. intros s a' s' HP H. injection H as <- <-. exact HP. Qed.

Lemma preserves_bind {A B} (c : M A) (k : A -> M B) :
  preserves P c -> (forall a, preserves P (k a)) -> preserves P (c ≫= k).
Proof.
  intros Hc Hk s b s' HP H. apply bind_Done in H as (a & s1 & H1 & H2).
  exact (Hk a s1 b s' (Hc s a s1 HP H1) H2).
Qed.

Lemma preserves_fmap {A B} (f : A -> B) (c : M A) :
  preserves P c -> preserves P (f <$> c).
Proof.
  intros Hc. apply (preserves_bind c (fun a => mret (f a))); [exact Hc |].
  intros a. apply preserves_ret.
Qed.

Lemma preserves_gets {A} (f : NetworkManager -> A) : preserves P (gets f).
Proof. intros s a s' HP H. injection H as <- <-. exact HP. Qed.

Lemma preserves_stop {A} why : preserves P (stop why : M A).
Proof. intros s a s' HP H. discriminate. Qed.

Lemma preserves_deref {A} h (p : option A) : preserves P (deref h p).
Proof. destruct p; [apply preserves_ret | apply preserves_stop]. Qed.

Lemma preserves_via {A} h (f : NetworkManager -> option A) :
  preserves P (via h f).
Proof.
  apply preserves_bind; [apply preserves_gets | intros a; apply preserves_deref].
Qed.

Lemma preserves_load p : preserves P (load p).
Proof.
  intros s a s' HP. unfold load. destruct (objects s !! p); [| discriminate].
  intros H. injection H as <- <-. exact HP.
Qed.

Lemma preserves_modify g :
  (forall s, P s -> P (g s)) -> preserves P (modify g).
Proof.
  intros Hg s a s' HP H. injection H as H. subst s'. exact (Hg s HP).
Qed.

Lemma preserves_store p f :
  (forall s, P s -> P (set_objects (alter f p (objects s)) s)) ->
  preserves P (store p f).
Proof.
  intros Hf. apply preserves_bind; [apply preserves_load |].
  intros _. apply preserves_modify, Hf.
Qed.

Lemma preserves_call c :
  (forall s, P s -> P (set_calls (calls s ++ [c]) s)) -> preserves P (call c).
Proof. apply preserves_modify. Qed.

Lemma preserves_when b c : preserves P c -> preserves P (when b c).
Proof. intros Hc. destruct b; [exact Hc | apply preserves_ret]. Qed.

Lemma preserves_FindDevice address : preserves P (FindDevice address).
Proof.
  intros s r s' HP H. apply FindDevice_Done in H as [-> _]. exact HP.
Qed.

Lemma preserves_Disconnect device :
  (forall c s, P s -> P (set_calls (calls s ++ [c]) s)) ->
  preserves P (Disconnect device).
Proof.
  intros Hcall s r s' HP H. apply Disconnect_Done in H.
  destruct r; [destruct H as (g & _ & ->); apply Hcall, HP | subst s'; exact HP].
Qed.
End keeping.

(** The member functions, down to the reads and the writes they are made
    of; [side] shows that a write keeps the property. *)
Ltac keep_step side :=
  lazymatch goal with
  | |- preserves _ (_ ≫= _) => apply preserves_bind; [| intros ?]
  | |- preserves _ (_ <$> _) => apply preserves_fmap
  | |- preserves _ (mret _) => apply preserves_ret
  | |- preserves _ (gets _) => apply preserves_gets
  | |- preserves _ (stop _) => apply preserves_stop
  | |- preserves _ (deref _ _) => apply preserves_deref
  | |- preserves _ (via _ _) => apply preserves_via
  | |- preserves _ (load _) => apply preserves_load
  | |- preserves _ (FindDevice _) => apply preserves_FindDevice
  | |- preserves _ (Disconnect _) => apply preserves_Disconnect; intros ?; side
  | |- preserves _ (when _ _) => apply preserves_when
  | |- preserves _ (modify _) => apply preserves_modify; side
  | |- preserves _ (call _) => apply preserves_call; side
  | |- preserves _ (store _ _) => apply preserves_store; side
  | |- preserves _ (match ?x with _ => _ end) => destruct x
  end.

Ltac keep side :=
  unfold handle, Release, ReleaseInternal, OnManagerInterfaceRemoved,
    ReleaseInterface, Initialize, SetDelegate, SetCapabilities, Scan,
    Connect, OnInterfaceSelectionDone, SetupInterface,
    OnManagerReady, OnInterfaceReady, OnGroupInterfaceReady,
    OnManagementInterfaceReady, OnP2PDeviceChanged, OnDeviceChanged,
    OnDeviceReady, OnPeerConnectFailed, OnGroupOwnerNegotiationFailure,
    OnGroupOwnerNegotiationSuccess, HandleConnectFailed, OnGroupStarted,
    OnGroupFinished, OnGroupFinished_release, OnGroupRequest,
    OnDhcpAddressAssigned, OnDhcpTerminated, dispatch_source,
    OnConnectTimeout, AdvanceDeviceState, ConfigureFromCapabilities;
  repeat keep_step side.

(** With the invariant, [FindDevice] returns in every reachable state. *)
Lemma FindDevice_total address s :
  Inv s -> exists r, FindDevice address s = Done r s.
Proof.
  intros HI. rewrite FindDevice_unfold.
  apply FindDevice_iter_total, (inv_registry _ HI).
Qed.

(** If some registered device has the address, [FindDevice] finds one. *)
Lemma FindDevice_registered address s :
  Inv s ->
  (exists k p d, (k, p) ∈ devices_ s /\ objects s !! p = Some d /\
                 Address d = address) ->
  exists k p d, (k, p) ∈ devices_ s /\ objects s !! p = Some d /\
                Address d = address /\
                FindDevice address s = Done (Some p) s.
Proof.
  intros HI (k & p & d & Hin & Ho & Ha).
  destruct (FindDevice_total address s HI) as [[q|] Hf].
  - destruct (FindDevice_Done _ _ _ _ Hf) as (_ & k' & d' & Hin' & Ho' & Ha').
    exists k', q, d'. repeat split; assumption.
  - destruct (FindDevice_Done _ _ _ _ Hf) as (_ & Hnone).
    destruct (Hnone k p Hin) as (d' & Ho' & Ha'). congruence.
Qed.

(** * The claims of the specification *)

(** ** C1 *)

(** C1, as stated, fails: after the DHCP-terminated event the current device
    is failed (neither in Configuration nor Connected) and both group
    handles are still there, until the group-finished event. *)
Lemma group_handles_counterexample :
  reachable (after (configuration_events ++ [EvDhcpTerminated])) /\
  group_handles (after (configuration_events ++ [EvDhcpTerminated])) /\
  current_state (after (configuration_events ++ [EvDhcpTerminated]))
    = Some kFailure.
Proof.
  split; [eapply reachable_after; vm_compute; reflexivity |].
  split; [split; eexists; vm_compute; reflexivity |].
  vm_compute. reflexivity.
Qed.

(** C1, amended: in every reachable state, when the current device exists
    and is in Configuration or Connected both group handles are non-null;
    and the two handles are null or non-null together. *)
Theorem group_handles_invariant (s : NetworkManager) :
  reachable s ->
  (current_state s = Some kConfiguration \/ current_state s = Some kConnected ->
   group_handles s) /\
  (is_Some (current_group_device_ s) <-> is_Some (current_group_iface_ s)).
Proof.
  intros Hr. apply reachable_Inv in Hr.
  assert (Heq := inv_group _ Hr). split.
  - intros Hs. unfold group_handles. rewrite <- Heq.
    split; exact (inv_configured _ Hr Hs).
  - rewrite Heq. reflexivity.
Qed.

Lemma group_handles_invariant_witness :
  reachable (after configuration_events) /\
  current_state (after configuration_events) = Some kConfiguration /\
  group_handles (after configuration_events).
Proof.
  assert (Hr : reachable (after configuration_events))
    by (eapply reachable_after; vm_compute; reflexivity).
  assert (Hs : current_state (after configuration_events)
               = Some kConfiguration) by (vm_compute; reflexivity).
  split; [exact Hr |]. split; [exact Hs |].
  exact (proj1 (group_handles_invariant _ Hr) (or_introl Hs)).
Defined.

(** ** C2 *)



(** ** C3 *)

(** C3, as stated, fails: none of the four preconditions is violated, and
    yet [Connect] returns false, because the P2P device rejected the connect
    request; the device is not in Association and no timeout is armed. *)
Lemma Connect_rejected_counterexample :
  reachable (after idle_events) /\
  is_Some (p2p_device_ (after idle_events)) /\
  current_device_ (after idle_events) = None /\
  FindDevice (Address deviceX) (after idle_events)
    = Done (Some 0) (after idle_events) /\
  Connect (Some deviceX) false (after idle_events)
    = Done false (after (idle_events ++ [EvConnect (Some deviceX) false])) /\
  current_state (after (idle_events ++ [EvConnect (Some deviceX) false]))
    = Some kDisconnected /\
  ¬ timer_armed (after (idle_events ++ [EvConnect (Some deviceX) false])).
Proof.
  split; [eapply reachable_after; vm_compute; reflexivity |].
  split; [eexists; vm_compute; reflexivity |].
  split; [vm_compute; reflexivity |].
  split; [vm_compute; reflexivity |].
  split; [vm_compute; reflexivity |].
  split; [vm_compute; reflexivity |].
  intros H. apply H. vm_compute. reflexivity.
Qed.

(** C3, amended: [Connect] returns false and changes nothing when the P2P
    device is not set up, when a connection is in progress, when [device] is
    null, and when no registered device has the address of [device].
    Otherwise it finds a registered device [p] with that address and, when
    the P2P device accepts the connect request, it binds [current_device_]
    to [p], stops discovery, sets [p] to Association, notifies the delegate
    (if one is set), arms the connect timeout and returns true; when the P2P
    device rejects the request it returns false. *)
Theorem Connect_spec (device : option NetworkDevice) (accepted : bool)
    (s : NetworkManager) :
  reachable s ->
  (p2p_device_ s = None \/ current_device_ s ≠ None \/ device = None ->
   Connect device accepted s = Done false s) /\
  (forall dev, device = Some dev ->
   (forall k p, (k, p) ∈ devices_ s ->
      exists d, objects s !! p = Some d /\ Address d ≠ Address dev) ->
   Connect device accepted s = Done false s) /\
  (forall dev, device = Some dev ->
   is_Some (p2p_device_ s) -> current_device_ s = None ->
   (exists k p d, (k, p) ∈ devices_ s /\ objects s !! p = Some d /\
                  Address d = Address dev) ->
   exists k p d,
     (k, p) ∈ devices_ s /\ objects s !! p = Some d /\
     Address d = Address dev /\
     if accepted then
       exists s', Connect device accepted s = Done true s' /\
         current_device_ s' = Some p /\
         calls s' = calls s ++ [P2P_StopFind; P2P_Connect (ObjectPath d)] ++
           (if delegate_ s then [Delegate_OnDeviceStateChanged p] else []) /\
         objects s' !! p = Some (SetState kAssociation d) /\
         (forall q, q ≠ p -> objects s' !! q = objects s !! q) /\
         current_state s' = Some kAssociation /\
         timer_armed s' /\ connect_timeout_ s' ∈ sources s'
     else
       exists s', Connect device accepted s = Done false s').
Proof.
  intros Hr. apply reachable_Inv in Hr. split; [| split].
  - apply Connect_guard.
  - intros dev -> Hnone. unfold Connect.
    destruct (p2p_device_ s) as [x|] eqn:Hp,
      (current_device_ s) as [c|] eqn:Hc; srun; try reflexivity.
    rewrite (bind_run _ _ _ _ _ (FindDevice_None _ _ Hnone)). reflexivity.
  - intros dev -> [x Hp] Hc Hreg.
    destruct (FindDevice_registered _ _ Hr Hreg)
      as (k & p & d & Hin & Ho & Ha & Hf).
    exists k, p, d. split; [exact Hin |]. split; [exact Ho |].
    split; [exact Ha |].
    rewrite (Connect_found dev accepted s x p d Hp Hc Hf Ho).
    destruct accepted; [| eexists; reflexivity].
    eexists. split; [reflexivity |].
    unfold current_state, timer_armed. pcbn.
    rewrite list_lookup_alter_eq, Ho.
    cbn [fmap option_fmap option_map State SetState].
    split; [reflexivity |]. split; [reflexivity |]. split; [reflexivity |].
    split; [intros q Hq; apply list_lookup_alter_ne; congruence |].
    split; [reflexivity |]. split; [discriminate |].
    apply elem_of_app. right. constructor.
Qed.

Lemma Connect_witness :
  reachable (after idle_events) /\
  is_Some (p2p_device_ (after idle_events)) /\
  current_device_ (after idle_events) = None /\
  exists s', Connect (Some deviceX) true (after idle_events) = Done true s' /\
    current_state s' = Some kAssociation /\ timer_armed s'.
Proof.
  assert (Hr : reachable (after idle_events))
    by (eapply reachable_after; vm_compute; reflexivity).
  split; [exact Hr |].
  split; [eexists; vm_compute; reflexivity |].
  split; [vm_compute; reflexivity |].
  destruct (proj2 (proj2 (Connect_spec (Some deviceX) true
                            (after idle_events) Hr)) deviceX eq_refl)
    as (k & p & d & _ & _ & _ & s' & H & _ & _ & _ & _ & Hst & Harm & _).
  - eexists. vm_compute. reflexivity.
  - vm_compute. reflexivity.
  - exists "/peer/1", 0, deviceX.
    split; [apply (bool_decide_eq_true_1 (_ ∈ _)); vm_compute; reflexivity |].
    split; vm_compute; reflexivity.
  - exists s'. split; [exact H |]. split; [exact Hst | exact Harm].
Defined.

(** ** C4 *)

(** C4, as stated, fails in both directions.  When the timeout has fired
    while the device was in Configuration, the current device exists and is
    neither Connected nor failed, and there is no timer: the handle is zero
    and no source is pending.  And when the interface was removed during a
    first association, the source of that [Connect] is still pending while
    the device of a second session is Connected. *)
Lemma timer_armed_counterexample :
  (reachable (after (configuration_events ++ [EvConnectTimeout 1])) /\
   current_state (after (configuration_events ++ [EvConnectTimeout 1]))
     = Some kConfiguration /\
   ¬ timer_armed (after (configuration_events ++ [EvConnectTimeout 1])) /\
   sources (after (configuration_events ++ [EvConnectTimeout 1])) = []) /\
  (reachable (after (second_session_events ++ [EvDhcpAddressAssigned 1 2])) /\
   current_state (after (second_session_events ++ [EvDhcpAddressAssigned 1 2]))
     = Some kConnected /\
   connect_timeout_
     (after (second_session_events ++ [EvDhcpAddressAssigned 1 2])) = 0 /\
   sources (after (second_session_events ++ [EvDhcpAddressAssigned 1 2]))
     = [1]).
Proof.
  split.
  - split; [eapply reachable_after; vm_compute; reflexivity |].
    split; [vm_compute; reflexivity |].
    split; [| vm_compute; reflexivity].
    intros H. apply H. vm_compute. reflexivity.
  - split; [eapply reachable_after; vm_compute; reflexivity |].
    split; [vm_compute; reflexivity |].
    split; vm_compute; reflexivity.
Qed.

(** C4, amended: in every reachable state, when the current device is in
    Association the handle [connect_timeout_] is not zero and names a
    pending source, and when the current device is Connected the handle
    [connect_timeout_] is zero. *)
Theorem timer_armed_invariant (s : NetworkManager) :
  reachable s ->
  (current_state s = Some kAssociation ->
   connect_timeout_ s ≠ 0 /\ connect_timeout_ s ∈ sources s) /\
  (current_state s = Some kConnected -> connect_timeout_ s = 0).
Proof.
  intros Hr. apply reachable_Inv in Hr. split.
  - intros Hs. pose proof (inv_assoc _ Hr Hs) as Ht.
    split; [exact Ht | exact (inv_timer _ Hr Ht)].
  - intros Hs. exact (inv_connected _ Hr Hs).
Qed.

Lemma timer_armed_invariant_witness :
  reachable (after association_events) /\
  current_state (after association_events) = Some kAssociation /\
  connect_timeout_ (after association_events) ≠ 0 /\
  connect_timeout_ (after association_events)
    ∈ sources (after association_events).
Proof.
  assert (Hr : reachable (after association_events))
    by (eapply reachable_after; vm_compute; reflexivity).
  assert (Hs : current_state (after association_events) = Some kAssociation)
    by (vm_compute; reflexivity).
  split; [exact Hr |]. split; [exact Hs |].
  exact (proj1 (timer_armed_invariant _ Hr) Hs).
Defined.

(** [ReleaseInterface] clears [current_device_] and leaves the timer armed:
    when that timer fires, its callback calls through the null
    [current_device_]. *)
Lemma ReleaseInterface_keeps_timer :
  reachable (after (association_events ++ [EvRelease])) /\
  current_device_ (after (association_events ++ [EvRelease])) = None /\
  timer_armed (after (association_events ++ [EvRelease])) /\
  dispatch_source 1 (after (association_events ++ [EvRelease]))
    = Stopped (NullDeref h_current_device_).
Proof.
  split; [eapply reachable_after; vm_compute; reflexivity |].
  split; [vm_compute; reflexivity |].
  split; [unfold timer_armed; vm_compute; discriminate |].
  vm_compute. reflexivity.
Qed.

(** ** C5 *)

(** C5: on the empty capability set, the set with neither Source nor Sink,
    [GenerateWfdDeviceType] returns its local [device_type] without ever
    having assigned it: the value is indeterminate, not [kUndefined].  (On
    the three other kinds of sets it returns what the claim says, see
    [GenerateWfdDeviceType_cases].) *)
Theorem GenerateWfdDeviceType_neither_unassigned :
  GenerateWfdDeviceType [] = Uninit /\
  GenerateWfdDeviceType [] ≠ Init DeviceType.kUndefined /\
  GenerateWfdDeviceType [Capability.kSink] = Init DeviceType.kPrimarySink /\
  GenerateWfdDeviceType [Capability.kSource] = Init DeviceType.kSource /\
  GenerateWfdDeviceType [Capability.kSource; Capability.kSink]
    = Init DeviceType.kDualRole.
Proof. repeat split; try reflexivity. discriminate. Qed.

(** ** C6 *)

(** [OnGroupFinished] returns without a change when there is no current
    device.  With a current device [d], the statements before the final
    [current_device_.reset()] leave a state [s1] in which the handle of the
    timeout is zero and the source it named is no longer pending, the DHCP
    client and server and both group handles are released and the device is
    Disconnected, while [current_device_] is still bound; the result is
    [s1] with [current_device_] cleared. *)
Lemma OnGroupFinished_spec (group_path interface_path : string)
    (s : NetworkManager) :
  (current_device_ s = None ->
   OnGroupFinished group_path interface_path s = Done tt s) /\
  (reachable s -> forall p, current_device_ s = Some p ->
   exists d s1,
     objects s !! p = Some d /\
     OnGroupFinished_release p s = Done tt s1 /\
     OnGroupFinished group_path interface_path s
       = Done tt (set_current_device_ None s1) /\
     current_device_ s1 = Some p /\
     connect_timeout_ s1 = 0 /\
     (connect_timeout_ s ≠ 0 -> connect_timeout_ s ∉ sources s1) /\
     dhcp_client_ s1 = None /\ dhcp_server_ s1 = None /\
     current_group_iface_ s1 = None /\ current_group_device_ s1 = None /\
     objects s1 !! p = Some (SetState kDisconnected d) /\
     (forall q, q ≠ p -> objects s1 !! q = objects s !! q)).
Proof.
  split.
  - intros Hc. unfold OnGroupFinished. srun. reflexivity.
  - intros Hr p Hc. apply reachable_Inv in Hr.
    destruct (inv_current _ Hr _ Hc) as [[d Ho] Hp].
    destruct (inv_mgmt _ Hr Hp) as [m Hm].
    destruct (OnGroupFinished_run group_path interface_path s p d m Hc Ho Hm)
      as (s1 & H). exists d, s1. split; [exact Ho | exact H].
Qed.

Lemma OnGroupFinished_witness :
  reachable (after configuration_events) /\
  current_device_ (after configuration_events) = Some 0 /\
  exists s',
    OnGroupFinished "/group/1" "/wpa/if/1" (after configuration_events)
      = Done tt s' /\
    current_device_ s' = None /\ current_group_device_ s' = None /\
    (State <$> objects s' !! 0) = Some kDisconnected.
Proof.
  assert (Hr : reachable (after configuration_events))
    by (eapply reachable_after; vm_compute; reflexivity).
  assert (Hc : current_device_ (after configuration_events) = Some 0)
    by (vm_compute; reflexivity).
  split; [exact Hr |]. split; [exact Hc |].
  destruct (proj2 (OnGroupFinished_spec "/group/1" "/wpa/if/1"
                     (after configuration_events)) Hr 0 Hc)
    as (d & s1 & _ & _ & H & _ & _ & _ & _ & _ & _ & Hg & Ho & _).
  eexists. split; [exact H |]. pcbn.
  split; [reflexivity |]. split; [exact Hg |]. rewrite Ho. reflexivity.
Defined.

(** C6: [OnGroupFinished] calls [StopConnectTimeout], which cancels the
    source that [connect_timeout_] names and none when the handle is zero.
    After the P2P interface was removed during a first association
    ([ReleaseInterface] does not stop the timeout) and the source of that
    [Connect] has fired during the Configuration of a second session (the
    callback zeroes the handle, whichever source has fired), the handle is
    zero while the source of the second [Connect] is pending:
    [OnGroupFinished] releases the DHCP objects and the group handles, sets
    the device to Disconnected and clears [current_device_], and the
    timeout is not cancelled; when its source fires, the callback calls
    through the null [current_device_]. *)
Theorem OnGroupFinished_leaves_timeout :
  reachable (after stale_timeout_events) /\
  connect_timeout_ (after second_session_events) = 2 /\
  sources (after second_session_events) = [1; 2] /\
  current_state (after stale_timeout_events) = Some kConfiguration /\
  connect_timeout_ (after stale_timeout_events) = 0 /\
  sources (after stale_timeout_events) = [2] /\
  exists s',
    OnGroupFinished "/group/1" "/wpa/if/1" (after stale_timeout_events)
      = Done tt s' /\
    current_device_ s' = None /\
    (State <$> objects s' !! 0) = Some kDisconnected /\
    dhcp_client_ s' = None /\ dhcp_server_ s' = None /\
    current_group_iface_ s' = None /\ current_group_device_ s' = None /\
    connect_timeout_ s' = 0 /\ sources s' = [2] /\
    dispatch_source 2 s' = Stopped (NullDeref h_current_device_).
Proof.
  split; [eapply reachable_after; vm_compute; reflexivity |].
  do 5 (split; [vm_compute; reflexivity |]).
  eexists. split; [vm_compute; reflexivity |].
  do 8 (split; [vm_compute; reflexivity |]).
  vm_compute. reflexivity.
Qed.

(** ** C7 *)

(** [OnDhcpAddressAssigned] returns without a change when there is no
    current device or the current device is not in Configuration; when the
    current device is in Configuration it stores the remote address as the
    address of the device, the handle of the timeout is zero and the source
    it named is no longer pending, and the device is Connected. *)
Lemma OnDhcpAddressAssigned_spec (local_address remote_address : IpV4Address)
    (s : NetworkManager) :
  (current_device_ s = None ->
   OnDhcpAddressAssigned local_address remote_address s = Done tt s) /\
  (reachable s -> forall p, current_device_ s = Some p ->
   exists d, objects s !! p = Some d /\
   (State d ≠ kConfiguration ->
    OnDhcpAddressAssigned local_address remote_address s = Done tt s) /\
   (State d = kConfiguration ->
    exists s',
      OnDhcpAddressAssigned local_address remote_address s = Done tt s' /\
      objects s' !! p
        = Some (SetState kConnected (SetIpV4Address remote_address d)) /\
      (forall q, q ≠ p -> objects s' !! q = objects s !! q) /\
      current_device_ s' = Some p /\
      current_state s' = Some kConnected /\
      connect_timeout_ s' = 0 /\
      (connect_timeout_ s ≠ 0 -> connect_timeout_ s ∉ sources s'))).
Proof.
  destruct (OnDhcpAddressAssigned_run local_address remote_address s)
    as (H1 & H2 & H3).
  split; [exact H1 |].
  intros Hr p Hc. apply reachable_Inv in Hr.
  destruct (inv_current _ Hr _ Hc) as [[d Ho] _].
  exists d. split; [exact Ho |]. split.
  - exact (H2 p d Hc Ho).
  - exact (H3 p d Hc Ho).
Qed.

Lemma OnDhcpAddressAssigned_witness :
  reachable (after configuration_events) /\
  current_device_ (after configuration_events) = Some 0 /\
  current_state (after configuration_events) = Some kConfiguration /\
  exists s',
    OnDhcpAddressAssigned 167772161 167772162 (after configuration_events)
      = Done tt s' /\
    current_state s' = Some kConnected /\
    (IpAddress <$> objects s' !! 0) = Some (Some 167772162%N).
Proof.
  assert (Hr : reachable (after configuration_events))
    by (eapply reachable_after; vm_compute; reflexivity).
  assert (Hc : current_device_ (after configuration_events) = Some 0)
    by (vm_compute; reflexivity).
  split; [exact Hr |]. split; [exact Hc |].
  split; [vm_compute; reflexivity |].
  destruct (proj2 (OnDhcpAddressAssigned_spec 167772161 167772162
                     (after configuration_events)) Hr 0 Hc)
    as (d & Ho & _ & H).
  assert (Hd : State d = kConfiguration).
  { assert (Ho' : State <$> objects (after configuration_events) !! 0
                  = Some kConfiguration) by (vm_compute; reflexivity).
    rewrite Ho in Ho'. injection Ho' as Ho'. exact Ho'. }
  destruct (H Hd) as (s' & HD & Hobj & _ & _ & Hst & _).
  exists s'. split; [exact HD |]. split; [exact Hst |].
  rewrite Hobj. reflexivity.
Defined.

(** C7: [OnDhcpAddressAssigned] calls [StopConnectTimeout], which cancels
    the source that [connect_timeout_] names and none when the handle is
    zero.  After the P2P interface was removed during a first association
    and the source of that [Connect] has fired during the Configuration of
    a second session, the handle is zero while the source of the second
    [Connect] is pending: [OnDhcpAddressAssigned] stores the remote address
    and sets the device to Connected, and the timeout is not cancelled; its
    source stays pending and fires while the device is Connected. *)
Theorem OnDhcpAddressAssigned_leaves_timeout :
  reachable (after stale_timeout_events) /\
  connect_timeout_ (after second_session_events) = 2 /\
  sources (after second_session_events) = [1; 2] /\
  current_state (after stale_timeout_events) = Some kConfiguration /\
  connect_timeout_ (after stale_timeout_events) = 0 /\
  sources (after stale_timeout_events) = [2] /\
  exists s' s'',
    OnDhcpAddressAssigned 167772161 167772162 (after stale_timeout_events)
      = Done tt s' /\
    current_state s' = Some kConnected /\
    (IpAddress <$> objects s' !! 0) = Some (Some 167772162%N) /\
    connect_timeout_ s' = 0 /\ sources s' = [2] /\
    dispatch_source 2 s' = Done tt s'' /\
    current_state s'' = Some kConnected /\ sources s'' = [].
Proof.
  split; [eapply reachable_after; vm_compute; reflexivity |].
  do 5 (split; [vm_compute; reflexivity |]).
  eexists _, _. split; [vm_compute; reflexivity |].
  do 4 (split; [vm_compute; reflexivity |]).
  split; [vm_compute; reflexivity |].
  split; vm_compute; reflexivity.
Qed.

(** ** C8 *)

(** C8, as stated, fails: a second [Disconnect] in succession passes the
    guard again ([current_device_] is still bound), returns true and sends
    the group a second request to disconnect. *)
Lemma Disconnect_twice_counterexample :
  exists s1 s2,
    Disconnect (Some deviceX) (after configuration_events) = Done true s1 /\
    Disconnect (Some deviceX) s1 = Done true s2 /\
    current_device_ s1 = Some 0 /\
    calls s2 = calls s1 ++ [Group_Disconnect "/wpa/if/1"] /\
    s2 ≠ s1.
Proof.
  exists (after (configuration_events ++ [EvDisconnect (Some deviceX)])),
    (after (configuration_events ++
            [EvDisconnect (Some deviceX); EvDisconnect (Some deviceX)])).
  split; [vm_compute; reflexivity |]. split; [vm_compute; reflexivity |].
  split; [vm_compute; reflexivity |]. split; [vm_compute; reflexivity |].
  intros H. apply (f_equal (fun s => length (calls s))) in H.
  vm_compute in H. discriminate.
Qed.

(** C8, amended: [Disconnect] writes no field of the manager, it only asks
    the group to disconnect: the device keeps its state, and a second call
    in succession returns what the first returned and repeats the request.
    Once [current_device_] is cleared, [Disconnect] fails its guard and does
    nothing; that is the case after [OnGroupFinished], which is also where
    the device becomes Disconnected. *)
Theorem Disconnect_twice (device : option NetworkDevice) (s : NetworkManager)
    (r : bool) (s1 : NetworkManager) :
  Disconnect device s = Done r s1 ->
  (if r
   then exists g, current_group_device_ s = Some g /\
                  s1 = set_calls (calls s ++ [Group_Disconnect g]) s
   else s1 = s) /\
  objects s1 = objects s /\ current_device_ s1 = current_device_ s /\
  (exists s2, Disconnect device s1 = Done r s2 /\
     if r
     then exists g, current_group_device_ s = Some g /\
                    s2 = set_calls (calls s1 ++ [Group_Disconnect g]) s1
     else s2 = s1) /\
  (forall s' device', current_device_ s' = None ->
     Disconnect device' s' = Done false s') /\
  (forall group_path interface_path p d s2,
     current_device_ s1 = Some p -> objects s1 !! p = Some d ->
     OnGroupFinished group_path interface_path s1 = Done tt s2 ->
     current_device_ s2 = None /\
     objects s2 !! p = Some (SetState kDisconnected d) /\
     Disconnect device s2 = Done false s2).
Proof.
  intros H.
  assert (Hguard : forall s' device', current_device_ s' = None ->
            Disconnect device' s' = Done false s').
  { intros s' device' Hc. rewrite Disconnect_run, Hc.
    destruct (p2p_device_ s'); reflexivity. }
  pose proof (Disconnect_Done _ _ _ _ H) as Hshape.
  assert (Hobj : objects s1 = objects s /\
                 current_device_ s1 = current_device_ s).
  { destruct r; [destruct Hshape as (g & _ & ->) | subst s1];
      split; reflexivity. }
  split; [exact Hshape |]. split; [apply Hobj |]. split; [apply Hobj |].
  split; [| split; [exact Hguard |]].
  - destruct r.
    + destruct Hshape as (g & Hg & ->). eexists. split; [| eauto].
      rewrite Disconnect_run in H |- *. pcbn.
      destruct (negb _ || negb _); [discriminate |].
      destruct device as [dev|]; [| discriminate].
      destruct (FindDevice (Address dev) s) as [[q|] s'|] eqn:Hf;
        try discriminate.
      apply FindDevice_Done in Hf as Hs'. destruct Hs' as [-> _].
      erewrite FindDevice_frame; [| | | exact Hf]; [| reflexivity ..].
      rewrite Hg. reflexivity.
    + subst s1. exists s. split; [exact H | reflexivity].
  - intros group_path interface_path p d s2 Hc Ho HF.
    destruct (OnGroupFinished_Done _ _ _ _ _ _ Hc Ho HF) as [m Hm].
    destruct (OnGroupFinished_run group_path interface_path s1 p d m Hc Ho Hm)
      as (s1' & _ & HF' & _ & _ & _ & _ & _ & _ & _ & Ho' & _).
    rewrite HF' in HF. injection HF as <-. pcbn.
    split; [reflexivity |]. split; [exact Ho' |].
    apply Hguard. reflexivity.
Qed.

Lemma Disconnect_twice_witness :
  exists s1,
    Disconnect (Some deviceX) (after configuration_events) = Done true s1 /\
    current_state s1 = Some kConfiguration /\
    exists s2, Disconnect (Some deviceX) s1 = Done true s2.
Proof.
  exists (after (configuration_events ++ [EvDisconnect (Some deviceX)])).
  split; [vm_compute; reflexivity |]. split; [vm_compute; reflexivity |].
  edestruct (Disconnect_twice (Some deviceX) (after configuration_events)
               true (after (configuration_events ++
                            [EvDisconnect (Some deviceX)])))
    as (_ & _ & _ & (s2 & H & _) & _); [vm_compute; reflexivity |].
  exists s2. exact H.
Defined.

(** ** C9 *)

(** C9, as stated, fails: [Disconnect] does not call through
    [current_group_device_] unconditionally, and a [Disconnect] while the
    current device is in Association need not call through a null group
    handle.  For a device whose address is not registered it returns false
    before it reaches the group handle; and after a connection attempt that
    failed once its group had started, the next attempt is in Association
    with the group handle of the former one, through which [Disconnect]
    sends its request. *)
Lemma Disconnect_safety_counterexample :
  (reachable (after association_events) /\
   current_state (after association_events) = Some kAssociation /\
   current_group_device_ (after association_events) = None /\
   Disconnect (Some deviceY) (after association_events)
     = Done false (after association_events)) /\
  (reachable (after retried_events) /\
   current_state (after retried_events) = Some kAssociation /\
   current_group_device_ (after retried_events) = Some "/wpa/if/1" /\
   Disconnect (Some deviceX) (after retried_events)
     = Done true
         (set_calls
            (calls (after retried_events) ++ [Group_Disconnect "/wpa/if/1"])
            (after retried_events))).
Proof.
  split.
  - split; [eapply reachable_after; vm_compute; reflexivity |].
    split; [vm_compute; reflexivity |].
    split; vm_compute; reflexivity.
  - split; [eapply reachable_after; vm_compute; reflexivity |].
    split; [vm_compute; reflexivity |].
    split; vm_compute; reflexivity.
Qed.

(** C9, amended: the guard of [Disconnect] tests [p2p_device_] and
    [current_device_] only.  Past the guard, [Disconnect] calls through
    [device] without a test; it returns false when [FindDevice] finds no
    device with the address of [device]; otherwise it calls through
    [current_group_device_] without a test.  So a [Disconnect] that passes
    the guard calls through no null pointer exactly when [device] is not
    null and its address is not registered or a group handle is there; in
    every reachable state whose current device is in Configuration or
    Connected it returns for every [device] that is not null; and for a
    registered [device] it calls through the null group handle whenever
    there is none, as in Association before any group has started. *)
Theorem Disconnect_safety (device : option NetworkDevice) (s : NetworkManager) :
  (p2p_device_ s = None \/ current_device_ s = None ->
   Disconnect device s = Done false s) /\
  (is_Some (p2p_device_ s) -> is_Some (current_device_ s) ->
   (device = None -> Disconnect device s = Stopped (NullDeref h_device)) /\
   (forall dev, device = Some dev ->
      FindDevice (Address dev) s = Done None s ->
      Disconnect device s = Done false s) /\
   (forall dev p, device = Some dev ->
      FindDevice (Address dev) s = Done (Some p) s ->
      current_group_device_ s = None ->
      Disconnect device s = Stopped (NullDeref h_current_group_device_)) /\
   (forall dev p g, device = Some dev ->
      FindDevice (Address dev) s = Done (Some p) s ->
      current_group_device_ s = Some g ->
      Disconnect device s
      = Done true (set_calls (calls s ++ [Group_Disconnect g]) s)) /\
   (is_Some device -> is_Some (current_group_device_ s) ->
      forall h, Disconnect device s ≠ Stopped (NullDeref h)) /\
   (reachable s ->
    ((forall h, Disconnect device s ≠ Stopped (NullDeref h)) <->
     exists dev, device = Some dev /\
       (FindDevice (Address dev) s = Done None s \/
        is_Some (current_group_device_ s))))) /\
  (reachable s ->
   current_state s = Some kConfiguration \/ current_state s = Some kConnected ->
   is_Some device -> exists r s', Disconnect device s = Done r s').
Proof.
  rewrite Disconnect_run. split; [| split].
  - intros [-> | ->]; [reflexivity |].
    destruct (p2p_device_ s); reflexivity.
  - intros [x ->] [c ->]. pcbn.
    assert (Hsafe : is_Some device -> is_Some (current_group_device_ s) ->
      forall h,
        match device with
        | Some dev =>
            match FindDevice (Address dev) s with
            | Done (Some _) _ =>
                match current_group_device_ s with
                | Some g =>
                    Done true (set_calls (calls s ++ [Group_Disconnect g]) s)
                | None => Stopped (NullDeref h_current_group_device_)
                end
            | Done None _ => Done false s
            | Stopped why => Stopped why
            end
        | None => Stopped (NullDeref h_device)
        end ≠ Stopped (NullDeref h)).
    { intros [dev ->] [g ->] h.
      destruct (FindDevice (Address dev) s) as [[q|] s'|why] eqn:Hf;
        try discriminate.
      intros Heq. injection Heq as ->. rewrite FindDevice_unfold in Hf.
      exact (FindDevice_iter_no_NullDeref _ _ _ _ Hf). }
    split; [| split; [| split; [| split; [| split]]]].
    + intros ->. reflexivity.
    + intros dev -> ->. reflexivity.
    + intros dev p -> -> ->. reflexivity.
    + intros dev p g -> -> ->. reflexivity.
    + exact Hsafe.
    + intros Hr. apply reachable_Inv in Hr. split.
      * intros Hno. destruct device as [dev|];
          [| destruct (Hno h_device); reflexivity].
        exists dev. split; [reflexivity |].
        destruct (FindDevice_total (Address dev) s Hr) as [[q|] Hf];
          [| left; exact Hf].
        right. rewrite Hf in Hno.
        destruct (current_group_device_ s) as [g|]; [eauto |].
        destruct (Hno h_current_group_device_). reflexivity.
      * intros (dev & -> & [Hf | Hg]) h.
        -- rewrite Hf. discriminate.
        -- apply Hsafe; [eauto | exact Hg].
  - intros Hr Hs [dev ->]. apply reachable_Inv in Hr.
    destruct (inv_configured _ Hr Hs) as [g Hg].
    assert (Hc : exists p, current_device_ s = Some p).
    { unfold current_state in Hs.
      destruct (current_device_ s) as [p|]; [eauto | destruct Hs; discriminate]. }
    destruct Hc as [p Hc].
    destruct (inv_current _ Hr _ Hc) as [_ [x Hp]].
    destruct (FindDevice_total (Address dev) s Hr) as [r Hf].
    rewrite Hp, Hc, Hf, Hg. pcbn.
    destruct r; eexists _, _; reflexivity.
Qed.

(** The current device is in Association, no group was ever started, and
    [Disconnect] of that device calls through the null group handle. *)
Lemma Disconnect_safety_witness :
  reachable (after association_events) /\
  is_Some (p2p_device_ (after association_events)) /\
  is_Some (current_device_ (after association_events)) /\
  current_state (after association_events) = Some kAssociation /\
  current_group_device_ (after association_events) = None /\
  Disconnect (Some deviceX) (after association_events)
    = Stopped (NullDeref h_current_group_device_).
Proof.
  split; [eapply reachable_after; vm_compute; reflexivity |].
  split; [eexists; vm_compute; reflexivity |].
  split; [eexists; vm_compute; reflexivity |].
  split; [vm_compute; reflexivity |]. split; [vm_compute; reflexivity |].
  refine (proj1 (proj2 (proj2 (proj1 (proj2 (Disconnect_safety (Some deviceX)
                                        (after association_events)))
                          _ _))) deviceX 0 eq_refl _ _);
    [eexists; vm_compute; reflexivity | eexists; vm_compute; reflexivity
    | vm_compute; reflexivity | vm_compute; reflexivity].
Defined.

(** ** C10 *)

(** A handler that is none of those [clears_binding] names leaves the
    current device bound. *)
Lemma bound_OnDeviceFound p path address :
  preserves (fun s => current_device_ s = Some p) (OnDeviceFound path address).
Proof.
  intros s [] s' HP. unfold OnDeviceFound. srun.
  destruct (map_find path (devices_ s)); srun; intros H; injection H as <-;
    exact HP.
Qed.

Lemma bound_Connect p device accepted :
  preserves (fun s => current_device_ s = Some p) (Connect device accepted).
Proof.
  intros s r s' HP H.
  rewrite Connect_in_progress in H by congruence.
  injection H as _ <-. exact HP.
Qed.

Lemma bound_handle p e :
  clears_binding e = false ->
  preserves (fun s => current_device_ s = Some p) (handle e).
Proof.
  intros He. destruct e; try discriminate He; clear He;
    try (cbn [handle]; apply preserves_bind;
         [apply bound_Connect | intros ?; apply preserves_ret]);
    try apply bound_OnDeviceFound;
    keep ltac:(intros ? ?; assumption);
    repeat first [ progress unfold OnDeviceLost, StopConnectTimeout,
                     g_source_remove
                 | keep_step ltac:(intros ? ?; assumption) ].
Qed.

Lemma bound_run p es s s' :
  Forall (fun e => clears_binding e = false) es ->
  run es s = Done tt s' -> current_device_ s = Some p ->
  current_device_ s' = Some p.
Proof.
  intros Hes. revert s. induction Hes as [|e es He _ IH]; intros s H Hc.
  - injection H as <-. exact Hc.
  - cbn [run] in H. apply bind_Done in H as ([] & s1 & H1 & H).
    exact (IH s1 H (bound_handle p e He s tt s1 Hc H1)).
Qed.

(** C10, as stated, fails: after a rejected [Connect], a [Connect] succeeds
    again without any release of the interface once the peer-connect-failed
    event has cleared [current_device_].  And a timeout can be armed after
    a rejected [Connect]: when the interface was removed during an earlier
    association, the source of that [Connect] is pending and held; once it
    has fired, [current_device_] is cleared and a [Connect] succeeds. *)
Lemma Connect_rejected_retry_counterexample :
  (reachable (after (idle_events ++ [EvConnect (Some deviceX) false])) /\
   current_device_ (after (idle_events ++ [EvConnect (Some deviceX) false]))
     = Some 0 /\
   exists s1 s2,
     handle EvPeerConnectFailed
       (after (idle_events ++ [EvConnect (Some deviceX) false]))
       = Done tt s1 /\
     p2p_device_ s1 = Some "/wpa/if/0" /\
     mgmt_interface_ s1 = Some "/wpa/if/0" /\
     Connect (Some deviceX) true s1 = Done true s2) /\
  (reachable (after reselected_events) /\
   exists s1 s2 s3,
     Connect (Some deviceX) false (after reselected_events) = Done false s1 /\
     current_device_ s1 = Some 0 /\
     connect_timeout_ s1 = 1 /\ sources s1 = [1] /\
     dispatch_source 1 s1 = Done tt s2 /\
     p2p_device_ s2 = Some "/wpa/if/0" /\
     Connect (Some deviceX) true s2 = Done true s3).
Proof.
  split.
  - split; [eapply reachable_after; vm_compute; reflexivity |].
    split; [vm_compute; reflexivity |].
    eexists _, _. split; [vm_compute; reflexivity |].
    split; [vm_compute; reflexivity |].
    split; vm_compute; reflexivity.
  - split; [eapply reachable_after; vm_compute; reflexivity |].
    eexists _, _, _. split; [vm_compute; reflexivity |].
    do 3 (split; [vm_compute; reflexivity |]).
    split; [vm_compute; reflexivity |].
    split; vm_compute; reflexivity.
Qed.

(** C10, amended: when the P2P device rejects the connect request,
    [Connect] returns false and leaves [current_device_] bound to the device
    it found, with [StopFind] issued and the device in the state it had; it
    arms no timeout: the handle and the pending sources are what they were.
    Every [Connect] that follows returns false and changes nothing for as
    long as [current_device_] is bound, and it stays bound through every
    event but those that can clear it: the release of the interface (as
    [ReleaseInterface] does), the peer-connect-failed and
    negotiation-failure events (as [OnPeerConnectFailed] does), the
    group-finished event and the callback of a pending timeout. *)
Theorem Connect_rejected_spec (dev : NetworkDevice) (s : NetworkManager) :
  reachable s -> is_Some (p2p_device_ s) -> current_device_ s = None ->
  (exists k p d, (k, p) ∈ devices_ s /\ objects s !! p = Some d /\
                 Address d = Address dev) ->
  exists k p d s',
    (k, p) ∈ devices_ s /\ objects s !! p = Some d /\
    Address d = Address dev /\
    Connect (Some dev) false s = Done false s' /\
    current_device_ s' = Some p /\
    calls s' = calls s ++ [P2P_StopFind; P2P_Connect (ObjectPath d)] /\
    objects s' = objects s /\
    connect_timeout_ s' = connect_timeout_ s /\ sources s' = sources s /\
    (forall device accepted, Connect device accepted s' = Done false s') /\
    (forall cs, run (map (fun c => EvConnect (fst c) (snd c)) cs) s'
                = Done tt s') /\
    (forall es s'',
       Forall (fun e => clears_binding e = false) es ->
       run es s' = Done tt s'' ->
       current_device_ s'' = Some p /\
       forall device accepted, Connect device accepted s'' = Done false s'') /\
    (exists s'', ReleaseInterface s' = Done tt s'' /\
                 current_device_ s'' = None) /\
    (exists s'', OnPeerConnectFailed s' = Done tt s'' /\
                 current_device_ s'' = None /\
                 p2p_device_ s'' = p2p_device_ s).
Proof.
  intros Hr [x Hp] Hc Hreg. apply reachable_Inv in Hr.
  destruct (FindDevice_registered _ _ Hr Hreg)
    as (k & p & d & Hin & Ho & Ha & Hf).
  destruct (inv_mgmt _ Hr (ex_intro _ x Hp)) as [m Hm].
  exists k, p, d. eexists.
  split; [exact Hin |]. split; [exact Ho |]. split; [exact Ha |].
  rewrite (Connect_found dev false s x p d Hp Hc Hf Ho).
  split; [reflexivity |]. pcbn.
  split; [reflexivity |]. split; [reflexivity |]. split; [reflexivity |].
  split; [reflexivity |]. split; [reflexivity |].
  split; [| split; [| split; [| split]]].
  - intros device accepted. apply Connect_in_progress. discriminate.
  - intros cs. apply run_Connects_in_progress. discriminate.
  - intros es s'' Hes Hrun.
    assert (Hb : current_device_ s'' = Some p)
      by (apply (bound_run p es _ s'' Hes Hrun); reflexivity).
    split; [exact Hb |].
    intros device accepted. apply Connect_in_progress. congruence.
  - unfold ReleaseInterface. srun.
    sadvance d. srun.
    eexists. split; reflexivity.
  - unfold OnPeerConnectFailed, HandleConnectFailed, StopConnectTimeout.
    srun. erewrite step_via by (pcbn; reflexivity). sadvance d. srun.
    destruct (Nat.eqb (connect_timeout_ s) 0); srun;
      (eexists; split; [reflexivity |]); pcbn;
      (split; [reflexivity | exact Hp]).
Qed.

Lemma Connect_rejected_witness :
  reachable (after idle_events) /\
  is_Some (p2p_device_ (after idle_events)) /\
  current_device_ (after idle_events) = None /\
  exists p s',
    Connect (Some deviceX) false (after idle_events) = Done false s' /\
    current_device_ s' = Some p /\
    Connect (Some deviceX) true s' = Done false s'.
Proof.
  assert (Hr : reachable (after idle_events))
    by (eapply reachable_after; vm_compute; reflexivity).
  split; [exact Hr |].
  split; [eexists; vm_compute; reflexivity |].
  split; [vm_compute; reflexivity |].
  destruct (Connect_rejected_spec deviceX (after idle_events) Hr)
    as (k & p & d & s' & _ & _ & _ & H & Hc & _ & _ & _ & _ & Hnext & _).
  - eexists. vm_compute. reflexivity.
  - vm_compute. reflexivity.
  - exists "/peer/1", 0, deviceX.
    split; [apply (bool_decide_eq_true_1 (_ ∈ _)); vm_compute; reflexivity |].
    split; vm_compute; reflexivity.
  - exists p, s'. split; [exact H |]. split; [exact Hc | apply Hnext].
Defined.

(** ** The registry *)

Lemma Registry_initial : Registry initial.
Proof.
  constructor; cbn.
  - intros k p H. inversion H.
  - intros k p d H. inversion H.
  - constructor.
Qed.

(** [Registry] reads the registry and the objects. *)
Lemma Registry_frame s s' :
  devices_ s' = devices_ s -> objects s' = objects s ->
  Registry s -> Registry s'.
Proof.
  intros H1 H2 []. constructor; rewrite ?H1, ?H2; assumption.
Qed.

(** The setters of a device keep its object path and its address. *)
Lemma Registry_alter f p s :
  (forall d, ObjectPath (f d) = ObjectPath d) ->
  Registry s -> Registry (set_objects (alter f p (objects s)) s).
Proof.
  intros Hf [H1 H2 H3]. constructor; pcbn.
  - intros k q Hin. rewrite length_alter. exact (H1 k q Hin).
  - intros k q d Hin Ho.
    destruct (decide (p = q)) as [<- | Hne].
    + rewrite list_lookup_alter_eq in Ho.
      destruct (objects s !! p) as [d0|] eqn:Ho0; [| discriminate].
      injection Ho as <-. rewrite Hf. exact (H2 k p d0 Hin Ho0).
    + rewrite list_lookup_alter_ne in Ho by exact Hne.
      exact (H2 k q d Hin Ho).
  - exact H3.
Qed.

Ltac Registry_side :=
  let s := fresh "s" in
  let H := fresh "H" in
  intros s H;
  first [ apply Registry_alter; [intros []; reflexivity | exact H]
        | apply (Registry_frame s); [reflexivity | reflexivity | exact H] ].

(** A path is a key of the registry when [find] finds it. *)
Lemma map_find_None path m :
  map_find path m = None <-> path ∉ map fst m.
Proof.
  induction m as [|[k v] m IH]; cbn [map_find map fst].
  - split; [intros _ H; inversion H | reflexivity].
  - rewrite not_elem_of_cons.
    destruct (String.eqb k path) eqn:Hk.
    + apply String.eqb_eq in Hk. split; [discriminate | intros [H _]; congruence].
    + apply String.eqb_neq in Hk. rewrite IH. split; [split; congruence | tauto].
Qed.

Lemma map_find_elem_of path m p :
  map_find path m = Some p -> (path, p) ∈ m.
Proof.
  induction m as [|[k v] m IH]; cbn [map_find]; [discriminate |].
  destruct (String.eqb k path) eqn:Hk.
  - apply String.eqb_eq in Hk. intros H. injection H as <-. subst k.
    constructor.
  - intros H. right. exact (IH H).
Qed.

(** With no key twice, [find] finds every entry. *)
Lemma elem_of_map_find path m p :
  NoDup (map fst m) -> (path, p) ∈ m -> map_find path m = Some p.
Proof.
  induction m as [|[k v] m IH]; cbn [map_find map fst]; intros Hnd Hin.
  - inversion Hin.
  - apply NoDup_cons in Hnd as [Hk Hnd].
    apply elem_of_cons in Hin as [Heq | Hin].
    + injection Heq as <- <-. rewrite String.eqb_refl. reflexivity.
    + destruct (String.eqb k path) eqn:Hkp; [| exact (IH Hnd Hin)].
      apply String.eqb_eq in Hkp. subst k. destruct Hk.
      apply (list_elem_of_fmap_2 fst) in Hin. exact Hin.
Qed.

(** The keys after an assignment to a new key, and after an erasure. *)
Lemma map_assign_keys path v m :
  map_find path m = None ->
  map fst (map_assign path v m) ≡ₚ path :: map fst m.
Proof.
  induction m as [|[k w] m IH]; cbn [map_find map_assign map fst];
    [reflexivity |].
  destruct (String.eqb k path); [discriminate |]. intros Hf.
  destruct (String.ltb path k); cbn [map fst]; [reflexivity |].
  rewrite (IH Hf). apply Permutation_swap.
Qed.

Lemma map_find_assign path v m k :
  map_find k (map_assign path v m) =
  if String.eqb path k then Some v else map_find k m.
Proof.
  induction m as [|[k' w] m IH]; cbn [map_assign map_find].
  - destruct (String.eqb path k); reflexivity.
  - destruct (String.eqb k' path) eqn:Hkp.
    + apply String.eqb_eq in Hkp. subst k'. cbn [map_find].
      destruct (String.eqb path k); reflexivity.
    + destruct (String.ltb path k'); cbn [map_find]; [reflexivity |].
      rewrite IH. destruct (String.eqb k' k) eqn:Hk; [| reflexivity].
      apply String.eqb_eq in Hk. subst k'.
      rewrite String.eqb_sym, Hkp. reflexivity.
Qed.

Lemma map_erase_keys path m :
  NoDup (map fst m) -> NoDup (map fst (map_erase path m)).
Proof.
  induction m as [|[k w] m IH]; cbn [map_erase map fst]; [trivial |].
  intros Hnd. apply NoDup_cons in Hnd as [Hk Hnd].
  destruct (String.eqb k path); [exact Hnd |].
  cbn [map fst]. apply NoDup_cons. split; [| exact (IH Hnd)].
  intros Hin. apply Hk. apply list_elem_of_fmap in Hin as ([k' p] & -> & Hin).
  apply elem_of_map_erase in Hin.
  apply (list_elem_of_fmap_2 fst) in Hin. exact Hin.
Qed.

Lemma map_find_erase path m k :
  NoDup (map fst m) ->
  map_find k (map_erase path m) =
  if String.eqb path k then None else map_find k m.
Proof.
  induction m as [|[k' w] m IH]; cbn [map_erase map_find map fst]; intros Hnd.
  - destruct (String.eqb path k); reflexivity.
  - apply NoDup_cons in Hnd as [Hk Hnd].
    destruct (String.eqb k' path) eqn:Hkp.
    + apply String.eqb_eq in Hkp. subst k'.
      destruct (String.eqb path k) eqn:Hpk; [| reflexivity].
      apply String.eqb_eq in Hpk. subst k. apply map_find_None. exact Hk.
    + cbn [map_find]. rewrite (IH Hnd).
      destruct (String.eqb k' k) eqn:Hk'; [| reflexivity].
      apply String.eqb_eq in Hk'. subst k'.
      rewrite String.eqb_sym, Hkp. reflexivity.
Qed.

Lemma Registry_OnDeviceFound path address :
  preserves Registry (OnDeviceFound path address).
Proof.
  intros s [] s' [H1 H2 H3]. unfold OnDeviceFound. srun.
  destruct (map_find path (devices_ s)) as [p|] eqn:Hfind; pcbn.
  - intros H. injection H as <-. constructor; assumption.
  - srun. intros H. injection H as <-. constructor; pcbn.
    + intros k p Hin. rewrite length_app. cbn [length].
      apply elem_of_map_assign in Hin as [Heq | Hin].
      * injection Heq as -> ->. lia.
      * pose proof (H1 k p Hin). lia.
    + intros k p d Hin Ho.
      apply elem_of_map_assign in Hin as [Heq | Hin].
      * injection Heq as -> ->.
        rewrite list_lookup_middle in Ho by reflexivity.
        injection Ho as <-. reflexivity.
      * rewrite lookup_app_l in Ho by exact (H1 k p Hin).
        exact (H2 k p d Hin Ho).
    + rewrite (map_assign_keys _ _ _ Hfind). apply NoDup_cons.
      split; [apply map_find_None, Hfind | exact H3].
Qed.

Lemma Registry_OnDeviceLost path : preserves Registry (OnDeviceLost path).
Proof.
  unfold OnDeviceLost.
  apply preserves_bind; [apply preserves_gets | intros m].
  destruct (map_find path m); [| apply preserves_ret].
  apply preserves_bind.
  - apply preserves_modify. intros s [H1 H2 H3]. constructor; pcbn.
    + intros k p Hin. apply elem_of_map_erase in Hin. exact (H1 k p Hin).
    + intros k p d Hin. apply elem_of_map_erase in Hin. exact (H2 k p d Hin).
    + apply map_erase_keys, H3.
  - intros _. keep Registry_side.
Qed.

Lemma Registry_StartConnectTimeout : preserves Registry StartConnectTimeout.
Proof.
  intros s [] s' HR. unfold StartConnectTimeout. srun.
  intros H. injection H as <-.
  apply (Registry_frame s); [reflexivity | reflexivity | exact HR].
Qed.

Lemma Registry_StopConnectTimeout : preserves Registry StopConnectTimeout.
Proof.
  intros s [] s' HR. unfold StopConnectTimeout. srun.
  destruct (Nat.eqb (connect_timeout_ s) 0); srun;
    intros H; injection H as <-; [exact HR |].
  apply (Registry_frame s); [reflexivity | reflexivity | exact HR].
Qed.

Lemma Registry_source_remove id : preserves Registry (g_source_remove id).
Proof. apply preserves_modify. Registry_side. Qed.

Ltac Registry_keep :=
  keep Registry_side;
  repeat first [ apply Registry_StartConnectTimeout
               | apply Registry_StopConnectTimeout
               | apply Registry_source_remove
               | apply Registry_OnDeviceFound
               | apply Registry_OnDeviceLost
               | keep_step Registry_side ].

Lemma Registry_handle e : preserves Registry (handle e).
Proof. destruct e; Registry_keep. Qed.

(** The registry is well formed in every state the manager reaches. *)
Lemma reachable_Registry s : reachable s -> Registry s.
Proof.
  induction 1 as [|s e s' _ IH H]; [apply Registry_initial |].
  exact (Registry_handle e s tt s' IH H).
Qed.

(** ** The timeout sources *)

Lemma Sources_initial : Sources initial.
Proof.
  constructor; cbn.
  - intros id H. inversion H.
  - constructor.
  - reflexivity.
Qed.

(** [Sources] reads the pending sources, the last id and the handle. *)
Lemma Sources_frame s s' :
  sources s' = sources s -> last_source s' = last_source s ->
  connect_timeout_ s' = connect_timeout_ s ->
  Sources s -> Sources s'.
Proof.
  intros H1 H2 H3 []. constructor; rewrite ?H1, ?H2, ?H3; assumption.
Qed.

Lemma Sources_reset s : Sources s -> Sources (set_connect_timeout_ 0 s).
Proof. intros [H1 H2 H3]. constructor; pcbn; [assumption .. | lia]. Qed.

Lemma Sources_remove id s :
  Sources s ->
  Sources (set_sources (filter (fun x => x ≠ id) (sources s)) s).
Proof.
  intros [H1 H2 H3]. constructor; pcbn.
  - intros x Hx. apply list_elem_of_filter in Hx as [_ Hx]. exact (H1 x Hx).
  - apply NoDup_filter, H2.
  - exact H3.
Qed.

(** A new source has a new id. *)
Lemma Sources_next s : Sources s -> S (last_source s) ∉ sources s.
Proof. intros [H1 _ _] Hin. apply H1 in Hin. lia. Qed.

Lemma Sources_StartConnectTimeout : preserves Sources StartConnectTimeout.
Proof.
  intros s [] s' HS. unfold StartConnectTimeout. srun.
  intros H. injection H as <-.
  pose proof (Sources_next s HS) as Hnew. destruct HS as [H1 H2 H3].
  constructor; pcbn.
  - intros id Hid. apply elem_of_app in Hid as [Hid | Hid].
    + apply H1 in Hid. lia.
    + apply list_elem_of_singleton in Hid. lia.
  - apply NoDup_app. split; [exact H2 |]. split; [| apply NoDup_singleton].
    intros x Hx Hx'. apply list_elem_of_singleton in Hx'. subst x.
    exact (Hnew Hx).
  - lia.
Qed.

Ltac Sources_side :=
  let s := fresh "s" in
  let H := fresh "H" in
  intros s H;
  first [ apply Sources_reset, H
        | apply Sources_remove, H
        | apply (Sources_frame s); [reflexivity | reflexivity | reflexivity | exact H] ].

Lemma Sources_source_remove id : preserves Sources (g_source_remove id).
Proof. apply preserves_modify. Sources_side. Qed.

Lemma Sources_StopConnectTimeout : preserves Sources StopConnectTimeout.
Proof.
  unfold StopConnectTimeout.
  apply preserves_bind; [apply preserves_gets | intros t].
  destruct (Nat.eqb t 0); [apply preserves_ret |].
  apply preserves_bind; [apply Sources_source_remove | intros _].
  apply preserves_modify. Sources_side.
Qed.

Lemma Sources_OnDeviceFound path address :
  preserves Sources (OnDeviceFound path address).
Proof.
  intros s [] s' HS. unfold OnDeviceFound. srun.
  destruct (map_find path (devices_ s)); srun; intros H; injection H as <-;
    [exact HS |].
  apply (Sources_frame s); [reflexivity .. | exact HS].
Qed.

Lemma Sources_OnDeviceLost path : preserves Sources (OnDeviceLost path).
Proof. unfold OnDeviceLost. repeat keep_step Sources_side. Qed.

Ltac Sources_keep :=
  keep Sources_side;
  repeat first [ apply Sources_StartConnectTimeout
               | apply Sources_StopConnectTimeout
               | apply Sources_source_remove
               | apply Sources_OnDeviceFound
               | apply Sources_OnDeviceLost
               | keep_step Sources_side ].

Lemma Sources_handle e : preserves Sources (handle e).
Proof. destruct e; Sources_keep. Qed.

Lemma reachable_Sources s : reachable s -> Sources s.
Proof.
  induction 1 as [|s e s' _ IH H]; [apply Sources_initial |].
  exact (Sources_handle e s tt s' IH H).
Qed.

(** ** The session *)

(** What a transition writes: the state of the device, and the availability
    of the session when the device gets Connected or Disconnected. *)
Lemma AdvanceDeviceState_session p st d s :
  objects s !! p = Some d ->
  (st = kDisconnected -> is_Some (mgmt_interface_ s)) ->
  exists cs,
    AdvanceDeviceState p st s =
    Done tt (set_calls cs
               (set_session_available_
                  (match st with
                   | kConnected => false
                   | kDisconnected => true
                   | _ => session_available_ s
                   end)
                  (set_objects (alter (SetState st) p (objects s)) s))).
Proof.
  intros Ho Hm. unfold AdvanceDeviceState, ConfigureFromCapabilities.
  assert (Hm' : st = kDisconnected -> exists m, mgmt_interface_ s = Some m)
    by exact Hm.
  destruct st; try (destruct Hm' as [m Hm']; [reflexivity |]);
    destruct (manager_ s) eqn:Hma, (delegate_ s) eqn:Hd; srun;
    eexists; f_equal; same_state; reflexivity.
Qed.

Ltac sadvance_session_at p st X rw :=
  let Ho := fresh "Hobj" in
  let HA := fresh "HA" in
  eassert (Ho : objects X !! p = Some _) by solve_object;
  lazymatch type of Ho with
  | _ = Some ?d =>
      destruct (AdvanceDeviceState_session p st d X Ho) as (? & HA);
      [first [discriminate | intros _; pcbn; eauto]
      | rw HA; clear Ho HA]
  end.

Ltac sadvance_session :=
  match goal with
  | |- context [(AdvanceDeviceState ?p ?st ≫= _) ?X] =>
      sadvance_session_at p st X
        ltac:(fun HA => rewrite (bind_run _ _ _ _ _ HA))
  | |- context [AdvanceDeviceState ?p ?st ?X] =>
      sadvance_session_at p st X ltac:(fun HA => rewrite HA)
  end.

Ltac ssession :=
  repeat first [sstep | sfinish | sadvance_session | scase
               | erewrite step_load_stop by solve_field
               | erewrite step_store_stop by solve_field
               | ssplit].

Lemma Session_initial : Session initial.
Proof. discriminate. Qed.

(** [Session] reads three fields. *)
Lemma Session_frame s s' :
  current_device_ s' = current_device_ s -> objects s' = objects s ->
  session_available_ s' = session_available_ s ->
  Session s -> Session s'.
Proof.
  unfold Session, current_state. intros -> -> ->. trivial.
Qed.

Ltac Session_frame_by s :=
  ssession; apply (Session_frame s); pcbn; try reflexivity; assumption.

(** The state that is written out has the property. *)
Ltac Session_one HS :=
  unfold Session, current_state in *; pcbn; intros;
  repeat match goal with
  | Hc : current_device_ ?s = _, H : context [current_device_ ?s] |- _ =>
      rewrite Hc in H
  end;
  lookups; simplify_eq;
  first [ reflexivity | discriminate | assumption | congruence
        | apply HS; congruence
        | match goal with
          | Ho : ?o !! ?p = Some ?d, H : context [?o !! ?p] |- _ =>
              rewrite Ho in H; apply H; congruence
          end
        | idtac ].

Lemma Session_ReleaseInterface s s' :
  Inv s -> Session s -> ReleaseInterface s = Done tt s' -> Session s'.
Proof.
  intros HI HS. unfold ReleaseInterface. current_facts HI s; ssession;
    Session_one HS.
Qed.

Lemma Session_OnDeviceFound path address s s' :
  Inv s -> Session s -> OnDeviceFound path address s = Done tt s' ->
  Session s'.
Proof.
  intros HI HS. unfold OnDeviceFound. ssession; [exact HS |].
  unfold Session, current_state in *. pcbn.
  destruct (current_device_ s) as [p|] eqn:Hc; [| discriminate].
  destruct (inv_current _ HI _ Hc) as [[d Ho] _].
  rewrite (lookup_app_l_Some _ _ _ _ Ho). rewrite Ho in HS. exact HS.
Qed.

Lemma Session_OnDeviceLost path s s' :
  Inv s -> Session s -> OnDeviceLost path s = Done tt s' -> Session s'.
Proof.
  intros HI HS. unfold OnDeviceLost.
  destruct (map_find path (devices_ s)) as [device|] eqn:Hfind; srun;
    Session_frame_by s.
Qed.

Lemma Session_HandleConnectFailed s s' :
  Inv s -> Session s -> is_Some (current_device_ s) ->
  HandleConnectFailed s = Done tt s' -> Session s'.
Proof.
  intros HI HS [c Hc']. unfold HandleConnectFailed, StopConnectTimeout.
  current_facts HI s; [| discriminate].
  ssession; Session_one HS.
Qed.

Lemma Session_Connect device accepted s r s' :
  Inv s -> Session s -> Connect device accepted s = Done r s' -> Session s'.
Proof.
  intros HI HS. unfold Connect, StartConnectTimeout.
  destruct (p2p_device_ s) as [x|] eqn:Hp,
    (current_device_ s) as [c|] eqn:Hc; srun;
    try (intros H; injection H as <- <-; exact HS).
  destruct device as [dev|]; srun;
    [| intros H; injection H as <- <-; exact HS].
  destruct (FindDevice (Address dev) s) as [[p|] s1|] eqn:Hf.
  - apply FindDevice_Done in Hf as Hs1.
    destruct Hs1 as (-> & k & d & Hin & Ho & Ha).
    rewrite (bind_run _ _ _ _ _ Hf). ssession.
    all: pose proof (inv_others _ HI p d Ho ltac:(congruence)) as Hst.
    all: Session_one HS.
    all: destruct Hst; congruence.
  - apply FindDevice_Done in Hf as Hs1. destruct Hs1 as [-> _].
    rewrite (bind_run _ _ _ _ _ Hf). ssession. exact HS.
  - rewrite (bind_stop _ _ _ _ Hf). discriminate.
Qed.

Lemma Session_handle e s s' :
  Inv s -> Session s -> handle e s = Done tt s' -> Session s'.
Proof.
  intros HI HS. destruct e; cbn [handle].
  - unfold Initialize. destruct needs_firmware; Session_frame_by s.
  - unfold Release, ReleaseInternal. intros H.
    apply bind_Done in H as ([] & s1 & H1 & H).
    apply (Session_ReleaseInterface _ _ HI HS) in H1.
    revert H. Session_frame_by s1.
  - unfold SetDelegate. Session_frame_by s.
  - unfold SetCapabilities, ConfigureFromCapabilities. Session_frame_by s.
  - unfold Scan. Session_frame_by s.
  - intros H. apply bind_Done in H as (r & s1 & H1 & H).
    injection H as <-. exact (Session_Connect _ _ _ _ _ HI HS H1).
  - intros H. apply bind_Done in H as (r & s1 & H1 & H).
    injection H as <-. apply Disconnect_Done in H1.
    destruct r; [destruct H1 as (g & _ & ->) | subst s1; exact HS].
    apply (Session_frame s); pcbn; try reflexivity; assumption.
  - unfold OnInterfaceSelectionDone, SetupInterface. Session_frame_by s.
  - unfold OnManagerReady, ConfigureFromCapabilities. Session_frame_by s.
  - unfold OnManagerInterfaceRemoved.
    destruct (p2p_device_ s) as [x|] eqn:Hp; srun; [| discriminate].
    destruct (String.eqb x path); pcbn.
    + apply Session_ReleaseInterface; assumption.
    + Session_frame_by s.
  - unfold OnInterfaceReady, OnGroupInterfaceReady,
      OnManagementInterfaceReady.
    current_facts HI s; Session_frame_by s.
  - unfold OnP2PDeviceChanged. Session_frame_by s.
  - apply Session_OnDeviceFound; assumption.
  - apply Session_OnDeviceLost; assumption.
  - unfold OnDeviceChanged. Session_frame_by s.
  - unfold OnDeviceReady. Session_frame_by s.
  - unfold OnPeerConnectFailed.
    destruct (current_device_ s) as [p|] eqn:Hc; srun.
    + apply Session_HandleConnectFailed; [assumption .. | eauto].
    + ssession. exact HS.
  - unfold OnGroupOwnerNegotiationFailure.
    destruct (current_device_ s) as [p|] eqn:Hc; srun.
    + apply Session_HandleConnectFailed; [assumption .. | eauto].
    + ssession. exact HS.
  - intros H. injection H as <-. exact HS.
  - unfold OnGroupStarted. current_facts HI s; ssession; [| exact HS].
    Session_one HS.
  - unfold OnGroupFinished, OnGroupFinished_release, StopConnectTimeout.
    current_facts HI s; ssession; [| | exact HS]; Session_one HS.
  - intros H. injection H as <-. exact HS.
  - unfold OnDhcpAddressAssigned, StopConnectTimeout.
    current_facts HI s; ssession; try exact HS; Session_one HS.
  - unfold OnDhcpTerminated.
    current_facts HI s; ssession; try exact HS.
    intros H. apply bind_Done in H as (r & s1 & HD & H).
    apply Disconnect_Done in HD.
    assert (Hs1 : exists cs, s1 = set_calls cs s).
    { destruct r; [destruct HD as (g & _ & ->) | subst s1]; eexists;
        [reflexivity |]. same_state; reflexivity. }
    destruct Hs1 as [cs ->]. revert H.
    ssession; Session_one HS.
  - unfold dispatch_source, OnConnectTimeout.
    current_facts HI s; ssession; Session_one HS.
Qed.

Lemma reachable_Session s : reachable s -> Session s.
Proof.
  induction 1 as [|s e s' Hr IH H]; [apply Session_initial |].
  exact (Session_handle e s s' (reachable_Inv s Hr) IH H).
Qed.

(** ** Handlers that return *)

Lemma Outcome_returns {A} (o : Outcome A) :
  (forall why, o = Stopped why -> False) -> exists a s', o = Done a s'.
Proof.
  destruct o as [a s'|why]; [eauto |]. intros H. destruct (H why eq_refl).
Qed.

(** The goal is [c s = Stopped why -> False]: the run does not stop. *)
Ltac sreturn_finish :=
  lazymatch goal with
  | |- Done _ _ = Stopped _ -> _ => discriminate
  end.

Ltac sreturn_case :=
  lazymatch goal with
  | |- ?lhs = Stopped _ -> _ =>
      match lhs with
      | context [match ?x with _ => _ end] => destruct_inner x
      | context [when ?b _] => destruct_inner b
      end
  end.

Ltac sreturn :=
  repeat first [sstep | sreturn_finish | sadvance_any | sreturn_case].

(** A test that the run passed although a pointer it tests is null. *)
Ltac sreturn_absurd :=
  match goal with
  | H : _ && false = true |- _ => rewrite andb_false_r in H; discriminate H
  end.

Ltac returns_by HI s :=
  apply Outcome_returns; intros ?why; current_facts HI s; sreturn;
  try sreturn_absurd.

Lemma ReleaseInterface_returns s :
  Inv s -> exists a s', ReleaseInterface s = Done a s'.
Proof. intros HI. unfold ReleaseInterface. returns_by HI s. Qed.

Lemma Connect_returns device accepted s :
  Inv s -> exists r s', Connect device accepted s = Done r s'.
Proof.
  intros HI. unfold Connect, StartConnectTimeout.
  destruct (p2p_device_ s) as [x|] eqn:Hp,
    (current_device_ s) as [c|] eqn:Hc; srun; try (eexists _, _; reflexivity).
  destruct device as [dev|]; srun; [| eexists _, _; reflexivity].
  destruct (FindDevice_total (Address dev) s HI) as [[p|] Hf];
    rewrite (bind_run _ _ _ _ _ Hf); [| eexists _, _; reflexivity].
  destruct (FindDevice_Done _ _ _ _ Hf) as (_ & k & d & Hin & Ho & Ha).
  apply Outcome_returns. intros why. sreturn.
Qed.

Lemma OnDhcpTerminated_returns s :
  Inv s -> exists a s', OnDhcpTerminated s = Done a s'.
Proof.
  intros HI. unfold OnDhcpTerminated.
  destruct (current_device_ s) as [p|] eqn:Hc; srun;
    [| eexists _, _; reflexivity].
  destruct (inv_current _ HI _ Hc) as [[d Ho] [x Hp]].
  srun. destruct (State d) eqn:Hst; pcbn; try (eexists _, _; reflexivity).
  destruct (inv_configured _ HI) as [g Hg].
  { left. unfold current_state. rewrite Hc, Ho, Hst. reflexivity. }
  assert (HD : exists r cs, Disconnect (Some d) s = Done r (set_calls cs s)).
  { rewrite Disconnect_run, Hp, Hc, Hg. pcbn.
    destruct (FindDevice_total (Address d) s HI) as [[q|] ->];
      eexists _, _; [reflexivity |].
    f_equal. same_state; reflexivity. }
  destruct HD as (r & cs & HD). rewrite (bind_run _ _ _ _ _ HD).
  apply Outcome_returns. intros why. sreturn.
Qed.

(** Every handler that [guarded] names returns, in every state with the
    invariant. *)
Lemma handle_returns e s :
  Inv s -> guarded e = true -> exists s', handle e s = Done tt s'.
Proof.
  intros HI Hg.
  assert (H : exists a s', handle e s = Done a s');
    [| destruct H as ([] & s' & H); eauto].
  destruct e; try discriminate Hg; cbn [handle].
  - unfold Initialize. returns_by HI s.
  - unfold Release, ReleaseInternal.
    destruct (ReleaseInterface_returns s HI) as ([] & s1 & H1).
    rewrite (bind_run _ _ _ _ _ H1). eexists _, _; reflexivity.
  - unfold SetDelegate. returns_by HI s.
  - unfold SetCapabilities, ConfigureFromCapabilities. returns_by HI s.
  - unfold Scan. returns_by HI s.
  - destruct (Connect_returns device accepted s HI) as (r & s1 & H1).
    rewrite (bind_run _ _ _ _ _ H1). eexists _, _; reflexivity.
  - unfold OnInterfaceSelectionDone, SetupInterface. returns_by HI s.
  - unfold OnP2PDeviceChanged. returns_by HI s.
  - unfold OnDeviceFound. returns_by HI s.
  - unfold OnDeviceLost. returns_by HI s.
  - unfold OnDeviceChanged. returns_by HI s.
  - unfold OnDeviceReady. returns_by HI s.
  - unfold OnPeerConnectFailed, HandleConnectFailed, StopConnectTimeout.
    returns_by HI s.
  - unfold OnGroupOwnerNegotiationFailure, HandleConnectFailed,
      StopConnectTimeout.
    returns_by HI s.
  - eexists _, _; reflexivity.
  - unfold OnGroupStarted. returns_by HI s.
  - unfold OnGroupFinished, OnGroupFinished_release, StopConnectTimeout.
    returns_by HI s.
  - eexists _, _; reflexivity.
  - unfold OnDhcpAddressAssigned, StopConnectTimeout. returns_by HI s.
  - apply OnDhcpTerminated_returns, HI.
Qed.

(** * Further properties of the manager *)

(** ** The registry of devices *)

Lemma elem_of_Devices p s :
  p ∈ Devices s <-> exists k, (k, p) ∈ devices_ s.
Proof.
  unfold Devices. split.
  - intros H. apply list_elem_of_fmap in H as ([k q] & -> & Hin). eauto.
  - intros [k Hin]. apply (list_elem_of_fmap_2 snd) in Hin. exact Hin.
Qed.

(** With no key twice and no value under two keys, no value is there
    twice. *)
Lemma NoDup_values (m : DeviceMap) :
  NoDup (map fst m) ->
  (forall k k' p, (k, p) ∈ m -> (k', p) ∈ m -> k = k') ->
  NoDup (map snd m).
Proof.
  induction m as [|[k p] m IH]; cbn [map fst snd]; intros Hnd Hinj;
    [constructor |].
  apply NoDup_cons in Hnd as [Hk Hnd]. apply NoDup_cons. split.
  - intros Hin. apply list_elem_of_fmap in Hin as ([k' q] & Heq & Hin).
    cbn [snd] in Heq. subst q.
    assert (k = k') by (apply (Hinj k k' p); [left | right; exact Hin]).
    subst k'. apply Hk. apply (list_elem_of_fmap_2 fst) in Hin. exact Hin.
  - apply IH; [exact Hnd |]. intros k1 k2 q H1 H2.
    apply (Hinj k1 k2 q); right; assumption.
Qed.

Lemma Registry_Devices s : Inv s -> Registry s -> NoDup (Devices s).
Proof.
  intros HI [_ H2 H3]. apply NoDup_values; [exact H3 |].
  intros k k' p Hk Hk'. destruct (inv_registry _ HI k p Hk) as [d Ho].
  rewrite <- (H2 k p d Hk Ho). exact (H2 k' p d Hk' Ho).
Qed.

(** X1: in every state the manager reaches, an entry of the registry points
    to a device object whose object path is the key of the entry, and no
    path is a key twice. *)
Theorem registry_paths (s : NetworkManager) :
  reachable s ->
  (forall k p, (k, p) ∈ devices_ s ->
     exists d, objects s !! p = Some d /\ ObjectPath d = k) /\
  NoDup (map fst (devices_ s)).
Proof.
  intros Hr. pose proof (reachable_Inv s Hr) as HI.
  destruct (reachable_Registry s Hr) as [_ H2 H3]. split; [| exact H3].
  intros k p Hin. destruct (inv_registry _ HI k p Hin) as [d Ho].
  exists d. split; [exact Ho | exact (H2 k p d Hin Ho)].
Qed.

Lemma registry_paths_witness :
  reachable (after idle_events) /\
  (forall k p, (k, p) ∈ devices_ (after idle_events) ->
     exists d, objects (after idle_events) !! p = Some d /\ ObjectPath d = k) /\
  NoDup (map fst (devices_ (after idle_events))).
Proof.
  assert (Hr : reachable (after idle_events))
    by (eapply reachable_after; vm_compute; reflexivity).
  split; [exact Hr | exact (registry_paths _ Hr)].
Defined.

(** X2: in every state the manager reaches, [Devices] lists each registered
    device once: a device is listed exactly when some path of the registry
    is assigned to it, and every listed device is an object. *)
Theorem Devices_spec (s : NetworkManager) :
  reachable s ->
  NoDup (Devices s) /\
  length (Devices s) = length (devices_ s) /\
  (forall p, p ∈ Devices s <-> exists k, map_find k (devices_ s) = Some p) /\
  (forall p, p ∈ Devices s -> is_Some (objects s !! p)).
Proof.
  intros Hr. pose proof (reachable_Inv s Hr) as HI.
  pose proof (reachable_Registry s Hr) as HR.
  split; [exact (Registry_Devices s HI HR) |].
  split; [apply length_map |]. split.
  - intros p. rewrite elem_of_Devices. split; intros [k Hk]; exists k.
    + apply elem_of_map_find; [exact (reg_keys _ HR) | exact Hk].
    + apply map_find_elem_of, Hk.
  - intros p Hp. apply elem_of_Devices in Hp as [k Hk].
    exact (inv_registry _ HI k p Hk).
Qed.

Lemma Devices_spec_witness :
  reachable (after idle_events) /\
  Devices (after idle_events) = [0] /\
  (forall p, p ∈ Devices (after idle_events) ->
     is_Some (objects (after idle_events) !! p)).
Proof.
  assert (Hr : reachable (after idle_events))
    by (eapply reachable_after; vm_compute; reflexivity).
  split; [exact Hr |]. split; [vm_compute; reflexivity |].
  exact (proj2 (proj2 (proj2 (Devices_spec _ Hr)))).
Defined.

(** ** [FindDevice] *)

(** The loop returns the first device with the address. *)
Lemma FindDevice_iter_first address m s p :
  FindDevice_iter address m s = Done (Some p) s ->
  exists m1 m2,
    map snd m = m1 ++ p :: m2 /\
    forall q, q ∈ m1 ->
      exists d, objects s !! q = Some d /\ Address d ≠ address.
Proof.
  induction m as [|[k q] m IH]; [discriminate |].
  rewrite FindDevice_iter_cons.
  destruct (objects s !! q) as [d|] eqn:Ho; [| discriminate].
  destruct (String.eqb (Address d) address) eqn:Ha; intros H.
  - injection H as <-. exists [], (map snd m). split; [reflexivity |].
    intros q' Hq'. inversion Hq'.
  - destruct (IH H) as (m1 & m2 & Hm & Hfirst).
    exists (q :: m1), m2. cbn [map snd]. rewrite Hm.
    split; [reflexivity |].
    intros q' Hq'. apply elem_of_cons in Hq' as [-> | Hq'].
    + exists d. apply String.eqb_neq in Ha. split; assumption.
    + exact (Hfirst q' Hq').
Qed.

(** X3: in every state the manager reaches, [FindDevice] returns and leaves
    the state as it is.  It returns the first device that [Devices] lists
    with the address, and null exactly when no registered device has the
    address. *)
Theorem FindDevice_spec (address : string) (s : NetworkManager) :
  reachable s ->
  exists r,
    FindDevice address s = Done r s /\
    match r with
    | Some p =>
        (exists d, objects s !! p = Some d /\ Address d = address) /\
        exists l1 l2,
          Devices s = l1 ++ p :: l2 /\
          forall q, q ∈ l1 ->
            exists d, objects s !! q = Some d /\ Address d ≠ address
    | None =>
        forall p, p ∈ Devices s ->
          exists d, objects s !! p = Some d /\ Address d ≠ address
    end.
Proof.
  intros Hr. apply reachable_Inv in Hr.
  destruct (FindDevice_total address s Hr) as [r Hf].
  exists r. split; [exact Hf |].
  destruct (FindDevice_Done _ _ _ _ Hf) as [_ Hshape].
  destruct r as [p|].
  - destruct Hshape as (k & d & Hin & Ho & Ha).
    split; [exists d; split; assumption |].
    rewrite FindDevice_unfold in Hf.
    exact (FindDevice_iter_first _ _ _ _ Hf).
  - intros p Hp. apply elem_of_Devices in Hp as [k Hk].
    exact (Hshape k p Hk).
Qed.

Lemma FindDevice_spec_witness :
  reachable (after idle_events) /\
  FindDevice "aa:bb:cc:dd:ee:ff" (after idle_events)
    = Done (Some 0) (after idle_events) /\
  exists r,
    FindDevice "00:00:00:00:00:00" (after idle_events)
      = Done r (after idle_events) /\
    match r with
    | Some p =>
        (exists d, objects (after idle_events) !! p = Some d /\
                   Address d = "00:00:00:00:00:00") /\
        exists l1 l2,
          Devices (after idle_events) = l1 ++ p :: l2 /\
          forall q, q ∈ l1 ->
            exists d, objects (after idle_events) !! q = Some d /\
                      Address d ≠ "00:00:00:00:00:00"
    | None =>
        forall p, p ∈ Devices (after idle_events) ->
          exists d, objects (after idle_events) !! p = Some d /\
                    Address d ≠ "00:00:00:00:00:00"
    end.
Proof.
  assert (Hr : reachable (after idle_events))
    by (eapply reachable_after; vm_compute; reflexivity).
  split; [exact Hr |]. split; [vm_compute; reflexivity |].
  exact (FindDevice_spec "00:00:00:00:00:00" _ Hr).
Defined.

(** ** Devices that appear and disappear *)

Lemma map_assign_values path v m :
  map_find path m = None ->
  map snd (map_assign path v m) ≡ₚ v :: map snd m.
Proof.
  induction m as [|[k w] m IH]; cbn [map_find map_assign map snd];
    [reflexivity |].
  destruct (String.eqb k path); [discriminate |]. intros Hf.
  destruct (String.ltb path k); cbn [map snd]; [reflexivity |].
  rewrite (IH Hf). apply Permutation_swap.
Qed.

(** Erasing the key that was assigned last gives the registry back. *)
Lemma map_erase_assign path v m :
  map_find path m = None -> map_erase path (map_assign path v m) = m.
Proof.
  induction m as [|[k w] m IH]; cbn [map_find map_assign map_erase].
  - rewrite String.eqb_refl. reflexivity.
  - destruct (String.eqb k path) eqn:Hk; [discriminate |]. intros Hf.
    destruct (String.ltb path k); cbn [map_erase].
    + rewrite String.eqb_refl. reflexivity.
    + rewrite Hk, (IH Hf). reflexivity.
Qed.

Lemma OnDeviceFound_run path address s :
  map_find path (devices_ s) = None ->
  OnDeviceFound path address s =
  Done tt (set_devices_ (map_assign path (length (objects s)) (devices_ s))
             (set_objects (objects s ++ [NetworkDevice_Create path address]) s)).
Proof. intros Hf. unfold OnDeviceFound. srun. reflexivity. Qed.

Lemma OnDeviceLost_run path s p :
  map_find path (devices_ s) = Some p ->
  OnDeviceLost path s =
  Done tt
    (set_calls
       (calls s ++
        match current_group_device_ s with
        | Some g => if ptr_eqb (current_device_ s) (Some p)
                    then [Group_Disconnect g] else []
        | None => []
        end ++
        (if delegate_ s then [Delegate_OnDeviceLost p] else []))
       (set_devices_ (map_erase path (devices_ s)) s)).
Proof.
  intros Hf. unfold OnDeviceLost. srun.
  destruct (current_group_device_ s) as [g|] eqn:Hg,
    (ptr_eqb (current_device_ s) (Some p)) eqn:Hcur,
    (delegate_ s) eqn:Hd; srun; f_equal; same_state;
    rewrite <- ?app_assoc, ?app_nil_r; reflexivity.
Qed.

(** X4: [OnDeviceFound] for a path of the registry changes nothing.  For a
    new path it creates a device, Disconnected and with that path, as a new
    object and registers it under the path: the path is then found, every
    other path maps to what it mapped to, [Devices] lists the new device
    besides the former ones, and the delegate is not told. *)
Theorem OnDeviceFound_spec (path address : string) (s : NetworkManager) :
  (is_Some (map_find path (devices_ s)) ->
   OnDeviceFound path address s = Done tt s) /\
  (map_find path (devices_ s) = None ->
   exists s',
     OnDeviceFound path address s = Done tt s' /\
     objects s' = objects s ++ [NetworkDevice_Create path address] /\
     (forall k, map_find k (devices_ s') =
                if String.eqb path k then Some (length (objects s))
                else map_find k (devices_ s)) /\
     (Devices s' ≡ₚ length (objects s) :: Devices s) /\
     (reachable s -> length (objects s) ∉ Devices s) /\
     calls s' = calls s /\ current_device_ s' = current_device_ s /\
     OnDeviceFound path address s' = Done tt s').
Proof.
  split.
  - intros [p Hf]. unfold OnDeviceFound. srun. reflexivity.
  - intros Hf. eexists. split; [exact (OnDeviceFound_run _ _ _ Hf) |]. pcbn.
    split; [reflexivity |].
    split; [intros k; apply map_find_assign |].
    split; [apply map_assign_values, Hf |].
    split.
    { intros Hr Hin. apply elem_of_Devices in Hin as [k Hk].
      pose proof (reg_objects _ (reachable_Registry s Hr) k _ Hk). lia. }
    split; [reflexivity |]. split; [reflexivity |].
    unfold OnDeviceFound. srun.
    rewrite map_find_assign, String.eqb_refl. reflexivity.
Qed.

Lemma OnDeviceFound_spec_witness :
  map_find "/peer/2" (devices_ (after idle_events)) = None /\
  is_Some (map_find "/peer/1" (devices_ (after idle_events))) /\
  OnDeviceFound "/peer/1" "11:22:33:44:55:66" (after idle_events)
    = Done tt (after idle_events) /\
  exists s',
    OnDeviceFound "/peer/2" "11:22:33:44:55:66" (after idle_events)
      = Done tt s' /\
    (Devices s' ≡ₚ 1 :: Devices (after idle_events)).
Proof.
  assert (H1 : map_find "/peer/2" (devices_ (after idle_events)) = None)
    by (vm_compute; reflexivity).
  assert (H2 : is_Some (map_find "/peer/1" (devices_ (after idle_events))))
    by (vm_compute; eauto).
  split; [exact H1 |]. split; [exact H2 |].
  split;
    [exact (proj1 (OnDeviceFound_spec "/peer/1" "11:22:33:44:55:66" _) H2) |].
  destruct (proj2 (OnDeviceFound_spec "/peer/2" "11:22:33:44:55:66" _) H1)
    as (s' & Hs' & _ & _ & Hd & _).
  exists s'. split; [exact Hs' | exact Hd].
Defined.

(** X5: [OnDeviceLost] for a path that is not in the registry changes
    nothing.  For a registered path it erases the entry (the path is no
    longer found, the device no longer listed, every other path maps to what
    it mapped to), asks the group to disconnect when the lost device is the
    current one and a group device is there, and tells the delegate last; it
    never clears [current_device_] and never writes a device. *)
Theorem OnDeviceLost_spec (path : string) (s : NetworkManager) :
  reachable s ->
  (map_find path (devices_ s) = None -> OnDeviceLost path s = Done tt s) /\
  (forall p, map_find path (devices_ s) = Some p ->
   exists s',
     OnDeviceLost path s = Done tt s' /\
     (forall k, map_find k (devices_ s') =
                if String.eqb path k then None else map_find k (devices_ s)) /\
     (p ∉ Devices s') /\
     (forall q, q ≠ p -> q ∈ Devices s -> q ∈ Devices s') /\
     objects s' = objects s /\ current_device_ s' = current_device_ s /\
     calls s' =
       calls s ++
       match current_group_device_ s with
       | Some g => if ptr_eqb (current_device_ s) (Some p)
                   then [Group_Disconnect g] else []
       | None => []
       end ++
       (if delegate_ s then [Delegate_OnDeviceLost p] else [])).
Proof.
  intros Hr. pose proof (reachable_Inv s Hr) as HI.
  pose proof (reachable_Registry s Hr) as HR. split.
  - intros Hf. unfold OnDeviceLost. srun. reflexivity.
  - intros p Hf. eexists. split; [exact (OnDeviceLost_run _ _ _ Hf) |].
    pcbn.
    assert (Hfind : forall k, map_find k (map_erase path (devices_ s)) =
              if String.eqb path k then None else map_find k (devices_ s))
      by (intros k; apply map_find_erase, (reg_keys _ HR)).
    split; [exact Hfind |].
    assert (Hinj : forall k, (k, p) ∈ devices_ s -> k = path).
    { intros k Hk. destruct (inv_registry _ HI k p Hk) as [d Ho].
      rewrite <- (reg_paths _ HR k p d Hk Ho).
      apply (reg_paths _ HR path p d); [apply map_find_elem_of, Hf | exact Ho]. }
    split.
    { unfold Devices. pcbn. intros Hin.
      apply list_elem_of_fmap in Hin as ([k q] & Heq & Hin).
      cbn [snd] in Heq. subst q.
      pose proof (elem_of_map_erase _ _ _ _ Hin) as Hin'.
      apply Hinj in Hin'. subst k.
      apply (elem_of_map_find _ _ _ (map_erase_keys path _ (reg_keys _ HR)))
        in Hin.
      rewrite Hfind, String.eqb_refl in Hin. discriminate. }
    split.
    { unfold Devices. pcbn. intros q Hq Hin.
      apply list_elem_of_fmap in Hin as ([k q'] & Heq & Hin).
      cbn [snd] in Heq. subst q'.
      apply (elem_of_map_find _ _ _ (reg_keys _ HR)) in Hin.
      assert (Hk : String.eqb path k = false).
      { apply String.eqb_neq. intros <-. congruence. }
      apply (list_elem_of_fmap_2 snd (map_erase path (devices_ s)) (k, q)).
      apply map_find_elem_of. rewrite Hfind, Hk. exact Hin. }
    repeat split; reflexivity.
Qed.

Lemma OnDeviceLost_spec_witness :
  reachable (after idle_events) /\
  map_find "/peer/1" (devices_ (after idle_events)) = Some 0 /\
  exists s',
    OnDeviceLost "/peer/1" (after idle_events) = Done tt s' /\
    (0 ∉ Devices s') /\
    calls s' = calls (after idle_events) ++ [Delegate_OnDeviceLost 0].
Proof.
  assert (Hr : reachable (after idle_events))
    by (eapply reachable_after; vm_compute; reflexivity).
  assert (Hf : map_find "/peer/1" (devices_ (after idle_events)) = Some 0)
    by (vm_compute; reflexivity).
  split; [exact Hr |]. split; [exact Hf |].
  destruct (proj2 (OnDeviceLost_spec "/peer/1" _ Hr) 0 Hf)
    as (s' & Hs' & _ & Hp & _ & _ & _ & Hcalls).
  exists s'. split; [exact Hs' |]. split; [exact Hp |].
  rewrite Hcalls. vm_compute. reflexivity.
Defined.

(** X6: a device that appears under a new path and is lost again leaves the
    registry as it was: [OnDeviceFound] followed by [OnDeviceLost] for the
    path returns, the registry and [current_device_] are what they were, no
    former device is written, and the one call made is the notification of
    the delegate that the new device is lost. *)
Theorem OnDeviceFound_OnDeviceLost (path address : string)
    (s : NetworkManager) :
  reachable s -> map_find path (devices_ s) = None ->
  exists s1 s2,
    OnDeviceFound path address s = Done tt s1 /\
    OnDeviceLost path s1 = Done tt s2 /\
    devices_ s2 = devices_ s /\ Devices s2 = Devices s /\
    current_device_ s2 = current_device_ s /\
    (forall q d, objects s !! q = Some d -> objects s2 !! q = Some d) /\
    calls s2 =
      calls s ++
      (if delegate_ s then [Delegate_OnDeviceLost (length (objects s))]
       else []).
Proof.
  intros Hr Hf. apply reachable_Inv in Hr.
  eexists _, _. split; [exact (OnDeviceFound_run _ _ _ Hf) |].
  split.
  { apply OnDeviceLost_run. pcbn.
    rewrite map_find_assign, String.eqb_refl. reflexivity. }
  pcbn. rewrite (map_erase_assign _ _ _ Hf).
  split; [reflexivity |]. split; [reflexivity |]. split; [reflexivity |].
  split; [intros q d Ho; apply lookup_app_l_Some, Ho |].
  assert (Hcur : ptr_eqb (current_device_ s) (Some (length (objects s)))
                 = false).
  { destruct (current_device_ s) as [c|] eqn:Hc; [| reflexivity].
    destruct (inv_current _ Hr _ Hc) as [[d Ho] _].
    apply lookup_lt_Some in Ho. cbn [ptr_eqb]. apply Nat.eqb_neq. lia. }
  rewrite Hcur. destruct (current_group_device_ s); reflexivity.
Qed.

Lemma OnDeviceFound_OnDeviceLost_witness :
  reachable (after idle_events) /\
  map_find "/peer/2" (devices_ (after idle_events)) = None /\
  exists s1 s2,
    OnDeviceFound "/peer/2" "11:22:33:44:55:66" (after idle_events)
      = Done tt s1 /\
    OnDeviceLost "/peer/2" s1 = Done tt s2 /\
    devices_ s2 = devices_ (after idle_events).
Proof.
  assert (Hr : reachable (after idle_events))
    by (eapply reachable_after; vm_compute; reflexivity).
  assert (Hf : map_find "/peer/2" (devices_ (after idle_events)) = None)
    by (vm_compute; reflexivity).
  split; [exact Hr |]. split; [exact Hf |].
  destruct (OnDeviceFound_OnDeviceLost "/peer/2" "11:22:33:44:55:66" _ Hr Hf)
    as (s1 & s2 & H1 & H2 & H3 & _).
  exists s1, s2. split; [exact H1 |]. split; [exact H2 | exact H3].
Defined.

(** ** What holds in every state the manager reaches *)

(** X7: in every state the manager reaches, a device in Association, in
    Configuration or Connected is the current device: the manager has at
    most one device in such a state. *)
Theorem active_device_is_current (s : NetworkManager) (q : DevicePtr)
    (d : NetworkDevice) :
  reachable s -> objects s !! q = Some d ->
  State d = kAssociation \/ State d = kConfiguration \/ State d = kConnected ->
  current_device_ s = Some q.
Proof.
  intros Hr Ho Hst. apply reachable_Inv in Hr.
  destruct (decide (current_device_ s = Some q)) as [Hc | Hc]; [exact Hc |].
  destruct (inv_others _ Hr q d Ho Hc) as [H | H];
    destruct Hst as [Hst | [Hst | Hst]]; congruence.
Qed.

Lemma active_device_is_current_witness :
  reachable (after association_events) /\
  objects (after association_events) !! 0
    = Some (SetState kAssociation deviceX) /\
  current_device_ (after association_events) = Some 0.
Proof.
  assert (Hr : reachable (after association_events))
    by (eapply reachable_after; vm_compute; reflexivity).
  assert (Ho : objects (after association_events) !! 0
               = Some (SetState kAssociation deviceX))
    by (vm_compute; reflexivity).
  split; [exact Hr |]. split; [exact Ho |].
  apply (active_device_is_current _ 0 _ Hr Ho). left. reflexivity.
Defined.

(** X8: in every state the manager reaches, while a device is current the
    stub of the P2P device and the management interface are there and the
    current device is an object; the management interface is there whenever
    the stub of the P2P device is. *)
Theorem session_pointers (s : NetworkManager) :
  reachable s ->
  (is_Some (current_device_ s) ->
   is_Some (p2p_device_ s) /\ is_Some (mgmt_interface_ s) /\
   is_Some (current_state s)) /\
  (is_Some (p2p_device_ s) -> is_Some (mgmt_interface_ s)).
Proof.
  intros Hr. apply reachable_Inv in Hr. split; [| exact (inv_mgmt _ Hr)].
  intros [p Hc]. destruct (inv_current _ Hr _ Hc) as [[d Ho] Hp].
  split; [exact Hp |]. split; [exact (inv_mgmt _ Hr Hp) |].
  unfold current_state. rewrite Hc, Ho. eauto.
Qed.

Lemma session_pointers_witness :
  reachable (after association_events) /\
  is_Some (current_device_ (after association_events)) /\
  is_Some (p2p_device_ (after association_events)) /\
  is_Some (mgmt_interface_ (after association_events)).
Proof.
  assert (Hr : reachable (after association_events))
    by (eapply reachable_after; vm_compute; reflexivity).
  assert (Hc : is_Some (current_device_ (after association_events)))
    by (vm_compute; eauto).
  split; [exact Hr |]. split; [exact Hc |].
  destruct (proj1 (session_pointers _ Hr) Hc) as (H1 & H2 & _).
  split; assumption.
Defined.

(** X9: in every state the manager reaches, the session is marked as not
    available while the current device is Connected. *)
Theorem Connected_not_available (s : NetworkManager) :
  reachable s -> current_state s = Some kConnected ->
  session_available_ s = false.
Proof. intros Hr. exact (reachable_Session s Hr). Qed.

Lemma Connected_not_available_witness :
  reachable (after connected_events) /\
  current_state (after connected_events) = Some kConnected /\
  session_available_ (after connected_events) = false.
Proof.
  assert (Hr : reachable (after connected_events))
    by (eapply reachable_after; vm_compute; reflexivity).
  assert (Hs : current_state (after connected_events) = Some kConnected)
    by (vm_compute; reflexivity).
  split; [exact Hr |]. split; [exact Hs |].
  exact (Connected_not_available _ Hr Hs).
Defined.

(** X10: in every state the manager reaches, each of the handlers that
    [guarded] names returns, calling through no null pointer: [Initialize],
    [Release], [SetDelegate], [SetCapabilities], [Scan], [Connect],
    [OnInterfaceSelectionDone], [OnP2PDeviceChanged], [OnDeviceFound],
    [OnDeviceLost], [OnDeviceChanged], [OnDeviceReady],
    [OnPeerConnectFailed], [OnGroupOwnerNegotiationFailure],
    [OnGroupOwnerNegotiationSuccess], [OnGroupStarted], [OnGroupFinished],
    [OnGroupRequest], [OnDhcpAddressAssigned] and [OnDhcpTerminated]. *)
Theorem guarded_handlers_return (e : Event) (s : NetworkManager) :
  reachable s -> guarded e = true ->
  exists s', handle e s = Done tt s' /\ reachable s'.
Proof.
  intros Hr Hg.
  destruct (handle_returns e s (reachable_Inv s Hr) Hg) as [s' H].
  exists s'. split; [exact H | exact (reachable_step s e s' Hr H)].
Qed.

Lemma guarded_handlers_return_witness :
  reachable (after configuration_events) /\
  exists s', handle EvDhcpTerminated (after configuration_events)
             = Done tt s' /\ reachable s'.
Proof.
  assert (Hr : reachable (after configuration_events))
    by (eapply reachable_after; vm_compute; reflexivity).
  split; [exact Hr |].
  exact (guarded_handlers_return EvDhcpTerminated _ Hr eq_refl).
Defined.

(** X11: in every state the manager reaches, the handle of the connect
    timeout is zero or names a pending source, and the pending sources have
    positive, pairwise distinct ids: [StopConnectTimeout] removes a source
    that is there. *)
Theorem connect_timeout_pending (s : NetworkManager) :
  reachable s ->
  (connect_timeout_ s ≠ 0 -> connect_timeout_ s ∈ sources s) /\
  (forall id, id ∈ sources s -> 0 < id) /\
  NoDup (sources s).
Proof.
  intros Hr. destruct (reachable_Sources s Hr) as [H1 H2 _].
  split; [exact (inv_timer _ (reachable_Inv s Hr)) |].
  split; [intros id Hid; apply H1, Hid | exact H2].
Qed.

Lemma connect_timeout_pending_witness :
  reachable (after association_events) /\
  connect_timeout_ (after association_events) = 1 /\
  connect_timeout_ (after association_events)
    ∈ sources (after association_events).
Proof.
  assert (Hr : reachable (after association_events))
    by (eapply reachable_after; vm_compute; reflexivity).
  split; [exact Hr |]. split; [vm_compute; reflexivity |].
  apply (proj1 (connect_timeout_pending _ Hr)). vm_compute. discriminate.
Defined.

(** ** The identity of a device *)

Lemma identity_frame p address path s s' :
  objects s' = objects s -> identity p address path s ->
  identity p address path s'.
Proof. unfold identity. intros ->. trivial. Qed.

Lemma identity_alter f q p address path s :
  (forall d, Address (f d) = Address d /\ ObjectPath (f d) = ObjectPath d) ->
  identity p address path s ->
  identity p address path (set_objects (alter f q (objects s)) s).
Proof.
  intros Hf (d & Ho & Ha & Hp). unfold identity. pcbn.
  destruct (decide (q = p)) as [-> | Hne].
  - exists (f d). rewrite list_lookup_alter_eq, Ho.
    destruct (Hf d) as [-> ->]. repeat split; assumption.
  - exists d. rewrite list_lookup_alter_ne by exact Hne.
    repeat split; assumption.
Qed.

Ltac identity_side :=
  let s := fresh "s" in
  let H := fresh "H" in
  intros s H;
  first [ apply identity_alter; [intros []; split; reflexivity | exact H]
        | apply (identity_frame _ _ _ s); [reflexivity | exact H] ].

Lemma identity_OnDeviceFound p address path k a :
  preserves (identity p address path) (OnDeviceFound k a).
Proof.
  intros s [] s' (d & Ho & Hd). unfold OnDeviceFound. srun.
  destruct (map_find k (devices_ s)); srun; intros H; injection H as <-.
  - exists d. split; assumption.
  - exists d. pcbn. split; [apply lookup_app_l_Some, Ho | exact Hd].
Qed.

Lemma identity_StartConnectTimeout p address path :
  preserves (identity p address path) StartConnectTimeout.
Proof.
  intros s [] s' HP. unfold StartConnectTimeout. srun.
  intros H. injection H as <-.
  apply (identity_frame _ _ _ s); [reflexivity | exact HP].
Qed.

Lemma identity_StopConnectTimeout p address path :
  preserves (identity p address path) StopConnectTimeout.
Proof.
  unfold StopConnectTimeout, g_source_remove.
  repeat keep_step identity_side.
Qed.

Lemma identity_handle p address path e :
  preserves (identity p address path) (handle e).
Proof.
  destruct e; keep identity_side;
    repeat first [ apply identity_StartConnectTimeout
                 | apply identity_StopConnectTimeout
                 | apply identity_OnDeviceFound
                 | progress unfold OnDeviceLost, g_source_remove
                 | keep_step identity_side ].
Qed.

(** X12: no handler changes the address or the object path of a device:
    whatever events are handled, a device has the address and the object
    path it had before. *)
Theorem device_identity (es : list Event) (s s' : NetworkManager)
    (p : DevicePtr) (d : NetworkDevice) :
  run es s = Done tt s' -> objects s !! p = Some d ->
  exists d', objects s' !! p = Some d' /\ Address d' = Address d /\
             ObjectPath d' = ObjectPath d.
Proof.
  revert s d. induction es as [|e es IH]; intros s d H Ho.
  - injection H as <-. exists d. repeat split. exact Ho.
  - cbn [run] in H. apply bind_Done in H as ([] & s1 & He & H).
    assert (H1 : identity p (Address d) (ObjectPath d) s1).
    { apply (identity_handle p _ _ e s tt s1); [| exact He].
      exists d. repeat split. exact Ho. }
    destruct H1 as (d1 & Ho1 & Ha1 & Hp1).
    destruct (IH s1 d1 H Ho1) as (d' & Ho' & Ha' & Hp').
    exists d'. split; [exact Ho' |]. split; congruence.
Qed.

Lemma device_identity_witness :
  exists d', objects (after connected_events) !! 0 = Some d' /\
             Address d' = Address deviceX /\
             ObjectPath d' = ObjectPath deviceX.
Proof.
  apply (device_identity
           [EvConnect (Some deviceX) true;
            EvGroupStarted "/group/1" "/wpa/if/1" "GO";
            EvDhcpAddressAssigned 1 2]
           (after idle_events) (after connected_events) 0 deviceX);
    vm_compute; reflexivity.
Defined.

(** ** Transitions of a device *)

(** A transition, call by call: the driver command, the information
    element, the notification of the delegate. *)
Lemma AdvanceDeviceState_calls p st d s :
  objects s !! p = Some d ->
  (st = kDisconnected -> is_Some (mgmt_interface_ s)) ->
  AdvanceDeviceState p st s =
  Done tt
    (set_calls
       (calls s ++
        match st, mgmt_interface_ s with
        | kDisconnected, Some m => [SendDriverPrivateCommand m MiracastMode.Off]
        | _, _ => []
        end ++
        (if (state_eqb st kConnected || state_eqb st kDisconnected)
            && manager_ s
         then [Manager_SetWFDIEs (GenerateWfdDeviceType (capabilities_ s))
                 (negb (state_eqb st kConnected))]
         else []) ++
        (if delegate_ s then [Delegate_OnDeviceStateChanged p] else []))
       (set_session_available_
          (if state_eqb st kConnected || state_eqb st kDisconnected
           then negb (state_eqb st kConnected) else session_available_ s)
          (set_objects (alter (SetState st) p (objects s)) s))).
Proof.
  intros Ho Hm. unfold AdvanceDeviceState, ConfigureFromCapabilities.
  assert (Hm' : st = kDisconnected -> exists m, mgmt_interface_ s = Some m)
    by exact Hm.
  destruct st; try (destruct Hm' as [m Hm']; [reflexivity |]);
    destruct (manager_ s) eqn:Hma, (delegate_ s) eqn:Hd; srun;
    f_equal; same_state; rewrite <- ?app_assoc, ?app_nil_r; reflexivity.
Qed.

(** X13: a transition of a device sets its state, whatever the state was.
    Only a transition to Connected or to Disconnected writes the
    availability of the session (false for Connected, true for
    Disconnected) and, when the manager stub is there, publishes the
    information element with the device type of the capabilities; only a
    transition to Disconnected sends the driver the command that turns the
    miracast mode off, and it calls through [mgmt_interface_] to do so.  The
    delegate, when set, is told last. *)
Theorem AdvanceDeviceState_spec (p : DevicePtr) (st : NetworkDeviceState)
    (d : NetworkDevice) (s : NetworkManager) :
  objects s !! p = Some d ->
  (st = kDisconnected -> mgmt_interface_ s = None ->
   AdvanceDeviceState p st s = Stopped (NullDeref h_mgmt_interface_)) /\
  ((st = kDisconnected -> is_Some (mgmt_interface_ s)) ->
   AdvanceDeviceState p st s =
   Done tt
     (set_calls
        (calls s ++
         match st, mgmt_interface_ s with
         | kDisconnected, Some m =>
             [SendDriverPrivateCommand m MiracastMode.Off]
         | _, _ => []
         end ++
         (if (state_eqb st kConnected || state_eqb st kDisconnected)
             && manager_ s
          then [Manager_SetWFDIEs (GenerateWfdDeviceType (capabilities_ s))
                  (negb (state_eqb st kConnected))]
          else []) ++
         (if delegate_ s then [Delegate_OnDeviceStateChanged p] else []))
        (set_session_available_
           (if state_eqb st kConnected || state_eqb st kDisconnected
            then negb (state_eqb st kConnected) else session_available_ s)
           (set_objects (alter (SetState st) p (objects s)) s)))).
Proof.
  intros Ho. split.
  - intros -> Hm. unfold AdvanceDeviceState. srun. reflexivity.
  - exact (AdvanceDeviceState_calls p st d s Ho).
Qed.

Lemma AdvanceDeviceState_spec_witness :
  objects (after connected_events) !! 0
    = Some (SetState kConnected (SetIpV4Address 2 (SetRole "GO"
              (SetState kConfiguration (SetState kAssociation deviceX))))) /\
  exists s',
    AdvanceDeviceState 0 kDisconnected (after connected_events) = Done tt s' /\
    session_available_ s' = true /\
    calls s' = calls (after connected_events) ++
               [SendDriverPrivateCommand "/wpa/if/0" MiracastMode.Off;
                Delegate_OnDeviceStateChanged 0].
Proof.
  assert (Ho : objects (after connected_events) !! 0
    = Some (SetState kConnected (SetIpV4Address 2 (SetRole "GO"
              (SetState kConfiguration (SetState kAssociation deviceX))))))
    by (vm_compute; reflexivity).
  split; [exact Ho |].
  eexists. split.
  - apply (proj2 (AdvanceDeviceState_spec 0 kDisconnected _ _ Ho)).
    intros _. vm_compute. eauto.
  - split; vm_compute; reflexivity.
Defined.

(** ** Releasing the interface *)

(** X14: in every state the manager reaches, [Release] returns.  It leaves
    no stub of the P2P device, no management interface, no manager stub and
    no current device.  A device that was current is set to Disconnected
    first: the driver command is sent, the information element is published
    with the session available while the manager stub is still there, the
    delegate is told, and both group handles are cleared.  Without a current
    device the group handles are left as they are.  The connect timeout, its
    source, the DHCP client and server and the registry are not touched.
    Afterwards [Connect] and [Disconnect] return false, [Scan] makes no
    call, and [Running] and [Scanning] are false. *)
Theorem Release_spec (s : NetworkManager) :
  reachable s ->
  exists s',
    Release s = Done tt s' /\
    manager_ s' = false /\ p2p_device_ s' = None /\
    mgmt_interface_ s' = None /\ current_device_ s' = None /\
    match current_device_ s with
    | Some p =>
        exists m,
          mgmt_interface_ s = Some m /\
          objects s' = alter (SetState kDisconnected) p (objects s) /\
          current_group_device_ s' = None /\
          current_group_iface_ s' = None /\
          session_available_ s' = true /\
          calls s' =
            calls s ++ [SendDriverPrivateCommand m MiracastMode.Off] ++
            (if manager_ s
             then [Manager_SetWFDIEs
                     (GenerateWfdDeviceType (capabilities_ s)) true]
             else []) ++
            (if delegate_ s then [Delegate_OnDeviceStateChanged p] else [])
    | None =>
        objects s' = objects s /\
        current_group_device_ s' = current_group_device_ s /\
        current_group_iface_ s' = current_group_iface_ s /\
        session_available_ s' = session_available_ s /\
        calls s' = calls s
    end /\
    connect_timeout_ s' = connect_timeout_ s /\ sources s' = sources s /\
    dhcp_client_ s' = dhcp_client_ s /\ dhcp_server_ s' = dhcp_server_ s /\
    devices_ s' = devices_ s /\
    (forall device accepted, Connect device accepted s' = Done false s') /\
    (forall device, Disconnect device s' = Done false s') /\
    (forall timeout, Scan timeout s' = Done tt s') /\
    (forall b, Running b s' = false /\ Scanning b s' = false).
Proof.
  intros Hr. apply reachable_Inv in Hr.
  assert (Hafter : forall s', p2p_device_ s' = None ->
    (forall device accepted, Connect device accepted s' = Done false s') /\
    (forall device, Disconnect device s' = Done false s') /\
    (forall timeout, Scan timeout s' = Done tt s') /\
    (forall b, Running b s' = false /\ Scanning b s' = false)).
  { intros s' Hp. split; [| split; [| split]].
    - intros device accepted. apply Connect_guard. left. exact Hp.
    - intros device. rewrite Disconnect_run, Hp. reflexivity.
    - intros timeout. unfold Scan. srun. reflexivity.
    - intros b. unfold Running, Scanning. rewrite Hp. split; reflexivity. }
  unfold Release, ReleaseInternal, ReleaseInterface.
  destruct (current_device_ s) as [p|] eqn:Hc; srun.
  - destruct (inv_current _ Hr _ Hc) as [[d Ho] Hp].
    destruct (inv_mgmt _ Hr Hp) as [m Hm].
    rewrite (bind_run _ _ _ _ _
               (AdvanceDeviceState_calls p kDisconnected d s Ho
                  ltac:(intros _; eauto))).
    srun. eexists. split; [reflexivity |]. pcbn.
    do 4 (split; [reflexivity |]).
    split.
    { exists m. split; [reflexivity |]. do 4 (split; [reflexivity |]).
      destruct (manager_ s); reflexivity. }
    do 5 (split; [reflexivity |]).
    apply Hafter. reflexivity.
  - eexists. split; [reflexivity |]. pcbn.
    do 3 (split; [reflexivity |]). split; [exact Hc |].
    split; [repeat split; reflexivity |].
    do 5 (split; [reflexivity |]).
    apply Hafter. reflexivity.
Qed.

Lemma Release_spec_witness :
  reachable (after connected_events) /\
  exists s',
    Release (after connected_events) = Done tt s' /\
    current_device_ s' = None /\ p2p_device_ s' = None.
Proof.
  assert (Hr : reachable (after connected_events))
    by (eapply reachable_after; vm_compute; reflexivity).
  split; [exact Hr |].
  destruct (Release_spec _ Hr) as (s' & H & _ & Hp & _ & Hc & _).
  exists s'. split; [exact H |]. split; assumption.
Defined.

(** ** The group *)

(** X15: [OnGroupStarted] changes nothing without a current device.  With
    one, in every state the manager reaches and whatever the state of the
    device, it sets the device to Configuration, tells the delegate, records
    the role and then binds both group handles to the interface of the
    group; the connect timeout stays as it is and the availability of the
    session is not written. *)
Theorem OnGroupStarted_spec (group_path interface_path role : string)
    (s : NetworkManager) :
  (current_device_ s = None ->
   OnGroupStarted group_path interface_path role s = Done tt s) /\
  (reachable s -> forall p, current_device_ s = Some p ->
   exists d,
     objects s !! p = Some d /\
     OnGroupStarted group_path interface_path role s =
     Done tt
       (set_current_group_device_ (Some interface_path)
          (set_current_group_iface_ (Some interface_path)
             (set_calls
                (calls s ++
                 (if delegate_ s then [Delegate_OnDeviceStateChanged p]
                  else []))
                (set_objects
                   (alter (SetRole role) p
                      (alter (SetState kConfiguration) p (objects s)))
                   s))))).
Proof.
  split.
  - intros Hc. unfold OnGroupStarted. srun. reflexivity.
  - intros Hr p Hc. apply reachable_Inv in Hr.
    destruct (inv_current _ Hr _ Hc) as [[d Ho] _].
    exists d. split; [exact Ho |].
    unfold OnGroupStarted. srun.
    rewrite (bind_run _ _ _ _ _
               (AdvanceDeviceState_calls p kConfiguration d s Ho
                  ltac:(discriminate))).
    srun. reflexivity.
Qed.

Lemma OnGroupStarted_spec_witness :
  reachable (after association_events) /\
  current_device_ (after association_events) = Some 0 /\
  current_state (after configuration_events) = Some kConfiguration /\
  exists d,
    objects (after association_events) !! 0 = Some d /\
    OnGroupStarted "/group/1" "/wpa/if/1" "GO" (after association_events) =
    Done tt
      (set_current_group_device_ (Some "/wpa/if/1")
         (set_current_group_iface_ (Some "/wpa/if/1")
            (set_calls
               (calls (after association_events) ++
                (if delegate_ (after association_events)
                 then [Delegate_OnDeviceStateChanged 0] else []))
               (set_objects
                  (alter (SetRole "GO") 0
                     (alter (SetState kConfiguration) 0
                        (objects (after association_events))))
                  (after association_events))))).
Proof.
  assert (Hr : reachable (after association_events))
    by (eapply reachable_after; vm_compute; reflexivity).
  assert (Hc : current_device_ (after association_events) = Some 0)
    by (vm_compute; reflexivity).
  split; [exact Hr |]. split; [exact Hc |].
  split; [vm_compute; reflexivity |].
  exact (proj2 (OnGroupStarted_spec "/group/1" "/wpa/if/1" "GO" _) Hr 0 Hc).
Defined.

(** X16: [OnInterfaceReady] for an interface that is not the interface of
    the group calls through [mgmt_interface_], tested or not, and changes
    nothing.  For the interface of the group, in every state the manager
    reaches, it changes nothing unless the current device is in
    Configuration; then it sends the driver the command for the miracast
    mode Source and creates the DHCP server on that interface when the role
    of the device is GO, the DHCP client otherwise, leaving the other of the
    two as it is. *)
Theorem OnInterfaceReady_spec (object_path : string) (s : NetworkManager) :
  reachable s ->
  (current_group_iface_ s ≠ Some object_path ->
   (mgmt_interface_ s = None ->
    OnInterfaceReady object_path s = Stopped (NullDeref h_mgmt_interface_)) /\
   (is_Some (mgmt_interface_ s) ->
    OnInterfaceReady object_path s = Done tt s)) /\
  (current_group_iface_ s = Some object_path ->
   (current_state s ≠ Some kConfiguration ->
    OnInterfaceReady object_path s = Done tt s) /\
   (forall p d, current_device_ s = Some p -> objects s !! p = Some d ->
    State d = kConfiguration ->
    exists m,
      mgmt_interface_ s = Some m /\
      OnInterfaceReady object_path s =
      Done tt
        ((if String.eqb (Role d) "GO"
          then set_dhcp_server_ (Some object_path)
          else set_dhcp_client_ (Some object_path))
           (set_calls
              (calls s ++ [SendDriverPrivateCommand m MiracastMode.Source])
              s)))).
Proof.
  intros Hr. apply reachable_Inv in Hr. split.
  - intros Hg.
    assert (Hne : match current_group_iface_ s with
                  | Some g => String.eqb object_path g
                  | None => false
                  end = false).
    { destruct (current_group_iface_ s) as [g|]; [| reflexivity].
      apply String.eqb_neq. congruence. }
    unfold OnInterfaceReady, OnManagementInterfaceReady. split.
    + intros Hm. srun. reflexivity.
    + intros [m Hm]. srun.
      destruct (String.eqb object_path m); reflexivity.
  - intros Hg. unfold OnInterfaceReady, OnGroupInterfaceReady.
    srun. rewrite String.eqb_refl. split.
    + unfold current_state.
      destruct (current_device_ s) as [p|] eqn:Hc; srun; [| reflexivity].
      destruct (inv_current _ Hr _ Hc) as [[d Ho] _]. rewrite Ho. srun.
      destruct (State d); try reflexivity. congruence.
    + intros p d Hc Ho Hst.
      destruct (inv_current _ Hr _ Hc) as [_ Hp].
      destruct (inv_mgmt _ Hr Hp) as [m Hm].
      exists m. split; [exact Hm |]. srun.
      destruct (String.eqb (Role d) "GO"); srun; reflexivity.
Qed.

Lemma OnInterfaceReady_spec_witness :
  reachable (after configuration_events) /\
  current_group_iface_ (after configuration_events) = Some "/wpa/if/1" /\
  exists d m,
    objects (after configuration_events) !! 0 = Some d /\
    State d = kConfiguration /\ Role d = "GO" /\
    mgmt_interface_ (after configuration_events) = Some m /\
    OnInterfaceReady "/wpa/if/1" (after configuration_events) =
    Done tt
      ((if String.eqb (Role d) "GO"
        then set_dhcp_server_ (Some "/wpa/if/1")
        else set_dhcp_client_ (Some "/wpa/if/1"))
         (set_calls
            (calls (after configuration_events) ++
             [SendDriverPrivateCommand m MiracastMode.Source])
            (after configuration_events))).
Proof.
  assert (Hr : reachable (after configuration_events))
    by (eapply reachable_after; vm_compute; reflexivity).
  assert (Hg : current_group_iface_ (after configuration_events)
               = Some "/wpa/if/1") by (vm_compute; reflexivity).
  split; [exact Hr |]. split; [exact Hg |].
  destruct (proj2 (proj2 (OnInterfaceReady_spec "/wpa/if/1" _ Hr) Hg) 0
              (SetRole "GO" (SetState kConfiguration
                 (SetState kAssociation deviceX))))
    as (m & Hm & H); try (vm_compute; reflexivity).
  eexists _, m. split; [vm_compute; reflexivity |].
  split; [reflexivity |]. split; [reflexivity |].
  split; [exact Hm | exact H].
Defined.

(** X17: [LocalAddress] is the address of the DHCP server when there is one,
    else that of the DHCP client when there is one, else the address it
    declares; after a group-finished event for a current device, in every
    state the manager reaches, it is the address it declares. *)
Theorem LocalAddress_spec
    (unassigned server_address client_address : IpV4Address)
    (s : NetworkManager) :
  (is_Some (dhcp_server_ s) ->
   LocalAddress unassigned server_address client_address s = server_address) /\
  (dhcp_server_ s = None -> is_Some (dhcp_client_ s) ->
   LocalAddress unassigned server_address client_address s = client_address) /\
  (dhcp_server_ s = None -> dhcp_client_ s = None ->
   LocalAddress unassigned server_address client_address s = unassigned) /\
  (reachable s -> is_Some (current_device_ s) ->
   forall group_path interface_path,
   exists s',
     OnGroupFinished group_path interface_path s = Done tt s' /\
     LocalAddress unassigned server_address client_address s' = unassigned).
Proof.
  unfold LocalAddress. split; [| split; [| split]].
  - intros [x ->]. reflexivity.
  - intros -> [x ->]. reflexivity.
  - intros -> ->. reflexivity.
  - intros Hr [p Hc] group_path interface_path. apply reachable_Inv in Hr.
    destruct (inv_current _ Hr _ Hc) as [[d Ho] Hp].
    destruct (inv_mgmt _ Hr Hp) as [m Hm].
    destruct (OnGroupFinished_run group_path interface_path s p d m Hc Ho Hm)
      as (s1 & _ & H & _ & _ & _ & Hcl & Hsv & _).
    eexists. split; [exact H |]. pcbn. rewrite Hcl, Hsv. reflexivity.
Qed.

Lemma LocalAddress_spec_witness :
  reachable (after connected_events) /\
  is_Some (current_device_ (after connected_events)) /\
  exists s',
    OnGroupFinished "/group/1" "/wpa/if/1" (after connected_events)
      = Done tt s' /\
    LocalAddress 0 1 2 s' = 0%N.
Proof.
  assert (Hr : reachable (after connected_events))
    by (eapply reachable_after; vm_compute; reflexivity).
  assert (Hc : is_Some (current_device_ (after connected_events)))
    by (vm_compute; eauto).
  split; [exact Hr |]. split; [exact Hc |].
  exact (proj2 (proj2 (proj2 (LocalAddress_spec 0 1 2 _))) Hr Hc
           "/group/1" "/wpa/if/1").
Defined.

(** ** Failures *)

(** X18: in every state the manager reaches, [OnDhcpTerminated] changes
    nothing unless the current device is in Configuration.  Then it asks the
    group to disconnect, provided [FindDevice] finds the address of the
    device (as it does while the device is registered), sets the device to
    Failure and tells the delegate; [current_device_], the group handles
    and the connect timeout stay as they are. *)
Theorem OnDhcpTerminated_spec (s : NetworkManager) :
  reachable s ->
  (current_state s ≠ Some kConfiguration -> OnDhcpTerminated s = Done tt s) /\
  (forall p d, current_device_ s = Some p -> objects s !! p = Some d ->
   State d = kConfiguration ->
   exists g r,
     current_group_device_ s = Some g /\
     FindDevice (Address d) s = Done r s /\
     (p ∈ Devices s -> is_Some r) /\
     OnDhcpTerminated s =
     Done tt
       (set_calls
          (calls s ++
           (if nonnull r then [Group_Disconnect g] else []) ++
           (if delegate_ s then [Delegate_OnDeviceStateChanged p] else []))
          (set_objects (alter (SetState kFailure) p (objects s)) s))).
Proof.
  intros Hr. apply reachable_Inv in Hr. split.
  - unfold OnDhcpTerminated, current_state.
    destruct (current_device_ s) as [p|] eqn:Hc; srun; [| reflexivity].
    destruct (inv_current _ Hr _ Hc) as [[d Ho] _]. rewrite Ho. srun.
    destruct (State d); try reflexivity. congruence.
  - intros p d Hc Ho Hst.
    destruct (inv_current _ Hr _ Hc) as [_ [x Hp]].
    destruct (inv_configured _ Hr) as [g Hg].
    { left. unfold current_state. rewrite Hc, Ho, Hst. reflexivity. }
    destruct (FindDevice_total (Address d) s Hr) as [r Hf].
    exists g, r. split; [exact Hg |]. split; [exact Hf |]. split.
    { intros Hin. destruct r as [q|]; [eauto |].
      apply elem_of_Devices in Hin as [k Hk].
      destruct (FindDevice_Done _ _ _ _ Hf) as [_ Hnone].
      destruct (Hnone k p Hk) as (d' & Ho' & Ha). congruence. }
    unfold OnDhcpTerminated. srun.
    assert (HD : Disconnect (Some d) s =
                 Done (nonnull r)
                   (set_calls
                      (calls s ++
                       (if nonnull r then [Group_Disconnect g] else [])) s)).
    { rewrite Disconnect_run, Hp, Hc, Hf, Hg. pcbn.
      destruct r; pcbn; [reflexivity |]. f_equal. same_state; try reflexivity.
      rewrite app_nil_r. reflexivity. }
    rewrite (bind_run _ _ _ _ _ HD).
    erewrite AdvanceDeviceState_calls; [| solve_object | discriminate].
    pcbn. f_equal. same_state; try reflexivity.
    rewrite <- app_assoc. reflexivity.
Qed.

Lemma OnDhcpTerminated_spec_witness :
  reachable (after configuration_events) /\
  exists s',
    OnDhcpTerminated (after configuration_events) = Done tt s' /\
    current_state s' = Some kFailure /\
    calls s' = calls (after configuration_events) ++
               [Group_Disconnect "/wpa/if/1"; Delegate_OnDeviceStateChanged 0].
Proof.
  assert (Hr : reachable (after configuration_events))
    by (eapply reachable_after; vm_compute; reflexivity).
  split; [exact Hr |].
  destruct (proj2 (OnDhcpTerminated_spec _ Hr) 0
              (SetRole "GO" (SetState kConfiguration
                 (SetState kAssociation deviceX))))
    as (g & r & Hg & Hf & _ & H); try (vm_compute; reflexivity).
  eexists. split; [exact H |].
  assert (Hg' : g = "/wpa/if/1")
    by (vm_compute in Hg; injection Hg as <-; reflexivity).
  assert (Hr' : r = Some 0)
    by (vm_compute in Hf; injection Hf as <-; reflexivity).
  subst g r. split; vm_compute; reflexivity.
Defined.




(** X20: [OnManagerInterfaceRemoved] calls through [p2p_device_] without a
    test.  For another path than that of the P2P device it changes nothing;
    for the path of the P2P device it is [ReleaseInterface], which returns
    in every state the manager reaches and leaves no stub of the P2P device,
    no management interface and no current device, and the manager stub as
    it is. *)
Theorem OnManagerInterfaceRemoved_spec (path : string) (s : NetworkManager) :
  (p2p_device_ s = None ->
   OnManagerInterfaceRemoved path s = Stopped (NullDeref h_p2p_device_)) /\
  (forall x, p2p_device_ s = Some x -> x ≠ path ->
   OnManagerInterfaceRemoved path s = Done tt s) /\
  (p2p_device_ s = Some path ->
   OnManagerInterfaceRemoved path s = ReleaseInterface s /\
   (reachable s ->
    exists s',
      ReleaseInterface s = Done tt s' /\
      p2p_device_ s' = None /\ mgmt_interface_ s' = None /\
      current_device_ s' = None /\ manager_ s' = manager_ s)).
Proof.
  unfold OnManagerInterfaceRemoved. split; [| split].
  - intros Hp. srun. reflexivity.
  - intros x Hp Hx. srun. apply String.eqb_neq in Hx. rewrite Hx. reflexivity.
  - intros Hp. split; [srun; rewrite String.eqb_refl; reflexivity |].
    intros Hr. apply reachable_Inv in Hr. unfold ReleaseInterface.
    destruct (current_device_ s) as [p|] eqn:Hc; srun.
    + destruct (inv_current _ Hr _ Hc) as [[d Ho] _].
      rewrite (bind_run _ _ _ _ _
                 (AdvanceDeviceState_calls p kDisconnected d s Ho
                    ltac:(intros _; apply (inv_mgmt _ Hr); eauto))).
      srun. eexists. split; [reflexivity |]. repeat split; reflexivity.
    + eexists. split; [reflexivity |]. pcbn. repeat split; try reflexivity.
      exact Hc.
Qed.

Lemma OnManagerInterfaceRemoved_spec_witness :
  reachable (after association_events) /\
  p2p_device_ (after association_events) = Some "/wpa/if/0" /\
  OnManagerInterfaceRemoved "/wpa/if/9" (after association_events)
    = Done tt (after association_events) /\
  OnManagerInterfaceRemoved "/wpa/if/0" initial
    = Stopped (NullDeref h_p2p_device_) /\
  exists s',
    OnManagerInterfaceRemoved "/wpa/if/0" (after association_events)
      = Done tt s' /\
    current_device_ s' = None.
Proof.
  assert (Hr : reachable (after association_events))
    by (eapply reachable_after; vm_compute; reflexivity).
  assert (Hp : p2p_device_ (after association_events) = Some "/wpa/if/0")
    by (vm_compute; reflexivity).
  split; [exact Hr |]. split; [exact Hp |].
  split.
  { apply (proj1 (proj2 (OnManagerInterfaceRemoved_spec "/wpa/if/9" _))
             "/wpa/if/0" Hp). discriminate. }
  split.
  { apply (proj1 (OnManagerInterfaceRemoved_spec "/wpa/if/0" initial)).
    reflexivity. }
  destruct (proj2 (proj2 (OnManagerInterfaceRemoved_spec "/wpa/if/0" _)) Hp)
    as [Heq Hrel].
  destruct (Hrel Hr) as (s' & H & _ & _ & Hc & _).
  exists s'. split; [rewrite Heq; exact H | exact Hc].
Defined.

(** ** The connect timeout *)

Lemma filter_fresh (id : nat) (l : list nat) :
  id ∉ l -> filter (fun x => x ≠ id) (l ++ [id]) = l.
Proof.
  induction l as [|x l IH]; intros Hid.
  - cbn [app]. rewrite filter_cons_False by (intros H; apply H; reflexivity).
    reflexivity.
  - apply not_elem_of_cons in Hid as [Hx Hid]. cbn [app].
    rewrite filter_cons_True by congruence. rewrite (IH Hid). reflexivity.
Qed.

(** X21: in every state the manager reaches, [StartConnectTimeout] registers
    a source with an id that no pending source has and holds it, and a
    [StopConnectTimeout] that follows removes exactly that source and zeroes
    the handle: the pending sources are those there were before.  A source
    the handle named before [StartConnectTimeout] is among them: it stays
    pending with no handle left to it.  [StopConnectTimeout] without a
    handle does nothing. *)
Theorem StartStop_round_trip (s : NetworkManager) :
  reachable s ->
  exists s1 s2,
    StartConnectTimeout s = Done tt s1 /\
    connect_timeout_ s1 ≠ 0 /\
    (connect_timeout_ s1 ∉ sources s) /\
    sources s1 = sources s ++ [connect_timeout_ s1] /\
    StopConnectTimeout s1 = Done tt s2 /\
    sources s2 = sources s /\ connect_timeout_ s2 = 0 /\
    StopConnectTimeout s2 = Done tt s2.
Proof.
  intros Hr. pose proof (Sources_next s (reachable_Sources s Hr)) as Hnew.
  eexists _, _. unfold StartConnectTimeout, StopConnectTimeout. srun.
  split; [reflexivity |]. pcbn.
  split; [discriminate |]. split; [exact Hnew |]. split; [reflexivity |].
  srun. split; [reflexivity |]. pcbn.
  split; [apply filter_fresh, Hnew |]. split; [reflexivity |].
  srun. reflexivity.
Qed.

Lemma StartStop_round_trip_witness :
  reachable (after association_events) /\
  sources (after association_events) = [1] /\
  exists s1 s2,
    StartConnectTimeout (after association_events) = Done tt s1 /\
    connect_timeout_ s1 = 2 /\
    StopConnectTimeout s1 = Done tt s2 /\
    sources s2 = [1] /\ connect_timeout_ s2 = 0.
Proof.
  assert (Hr : reachable (after association_events))
    by (eapply reachable_after; vm_compute; reflexivity).
  split; [exact Hr |]. split; [vm_compute; reflexivity |].
  destruct (StartStop_round_trip _ Hr)
    as (s1 & s2 & H1 & _ & _ & _ & H2 & H3 & H4 & _).
  exists s1, s2. split; [exact H1 |].
  split; [vm_compute in H1; injection H1 as <-; reflexivity |].
  split; [exact H2 |]. split; [rewrite H3; vm_compute; reflexivity | exact H4].
Defined.

(** ** Capabilities *)

(** X22: [SetCapabilities] with the capabilities the manager has changes
    nothing.  With others it stores them and, when the manager stub is
    there, publishes one information element, with the device type of the
    new capabilities and the availability of the session; [Capabilities]
    then returns them, and setting them again changes nothing. *)
Theorem SetCapabilities_spec (capabilities : list Capability.t)
    (s : NetworkManager) :
  (capabilities = Capabilities s ->
   SetCapabilities capabilities s = Done tt s) /\
  (capabilities ≠ Capabilities s ->
   exists s',
     SetCapabilities capabilities s = Done tt s' /\
     s' = set_calls
            (calls s ++
             (if manager_ s
              then [Manager_SetWFDIEs (GenerateWfdDeviceType capabilities)
                      (session_available_ s)]
              else []))
            (set_capabilities_ capabilities s) /\
     Capabilities s' = capabilities /\
     SetCapabilities capabilities s' = Done tt s').
Proof.
  unfold Capabilities, SetCapabilities, ConfigureFromCapabilities. split.
  - intros ->. srun. rewrite bool_decide_eq_true_2 by reflexivity.
    reflexivity.
  - intros Hne. srun. rewrite bool_decide_eq_false_2 by exact Hne.
    eexists. split; [| split; [reflexivity |]].
    + destruct (manager_ s) eqn:Hm; srun; f_equal; same_state;
        rewrite ?app_nil_r; reflexivity.
    + pcbn. split; [reflexivity |]. srun.
      rewrite bool_decide_eq_true_2 by reflexivity. reflexivity.
Qed.

Lemma SetCapabilities_spec_witness :
  [Capability.kSource] ≠ Capabilities (after [EvInitialize false]) /\
  exists s',
    SetCapabilities [Capability.kSource] (after [EvInitialize false])
      = Done tt s' /\
    calls s' = [Manager_SetWFDIEs (Init DeviceType.kSource) true].
Proof.
  assert (Hne : [Capability.kSource]
                ≠ Capabilities (after [EvInitialize false]))
    by (vm_compute; discriminate).
  split; [exact Hne |].
  destruct (proj2 (SetCapabilities_spec [Capability.kSource] _) Hne)
    as (s' & H & Hs' & _).
  exists s'. split; [exact H |]. rewrite Hs'. vm_compute. reflexivity.
Defined.

(** X23: for a list with at least one capability, [GenerateWfdDeviceType]
    assigns a device type, which depends on which capabilities occur in the
    list only, not on their order or their number: PrimarySink for Sink
    alone, Source for Source alone, DualRole for both; it is never the
    Undefined type.  Only for the empty list does it assign none. *)
Theorem GenerateWfdDeviceType_membership (caps caps' : list Capability.t) :
  (caps ≠ [] ->
   exists t,
     GenerateWfdDeviceType caps = Init t /\ t ≠ DeviceType.kUndefined /\
     (t = DeviceType.kPrimarySink <->
      Capability.kSink ∈ caps /\ Capability.kSource ∉ caps) /\
     (t = DeviceType.kSource <->
      Capability.kSource ∈ caps /\ Capability.kSink ∉ caps) /\
     (t = DeviceType.kDualRole <->
      Capability.kSource ∈ caps /\ Capability.kSink ∈ caps) /\
     ((forall c, c ∈ caps <-> c ∈ caps') ->
      GenerateWfdDeviceType caps' = Init t)) /\
  (caps = [] -> forall t, GenerateWfdDeviceType caps ≠ Init t).
Proof.
  split.
  - intros Hne. rewrite GenerateWfdDeviceType_cases.
    assert (Hany : Capability.kSource ∈ caps \/ Capability.kSink ∈ caps).
    { destruct caps as [|[] caps]; [congruence | left | right]; constructor. }
    assert (Hsame : (forall c, c ∈ caps <-> c ∈ caps') ->
              GenerateWfdDeviceType caps' =
              match bool_decide (Capability.kSource ∈ caps),
                    bool_decide (Capability.kSink ∈ caps) with
              | false, true => Init DeviceType.kPrimarySink
              | true, false => Init DeviceType.kSource
              | true, true => Init DeviceType.kDualRole
              | false, false => Uninit
              end).
    { intros H. rewrite GenerateWfdDeviceType_cases.
      rewrite (bool_decide_ext _ _ (H Capability.kSource)),
        (bool_decide_ext _ _ (H Capability.kSink)). reflexivity. }
    revert Hsame.
    destruct (bool_decide (Capability.kSource ∈ caps)) eqn:H1,
      (bool_decide (Capability.kSink ∈ caps)) eqn:H2; intros Hsame;
      try apply bool_decide_eq_true in H1;
      try apply bool_decide_eq_true in H2;
      try apply bool_decide_eq_false in H1;
      try apply bool_decide_eq_false in H2;
      [ exists DeviceType.kDualRole | exists DeviceType.kSource
      | exists DeviceType.kPrimarySink | tauto ];
      (split; [reflexivity |]); (split; [discriminate |]);
      (split; [split; [discriminate || tauto | tauto] |]);
      (split; [split; [discriminate || tauto | tauto] |]);
      (split; [split; [discriminate || tauto | tauto] | exact Hsame]).
  - intros -> t. discriminate.
Qed.

Lemma GenerateWfdDeviceType_membership_witness :
  GenerateWfdDeviceType [Capability.kSource; Capability.kSink]
    = Init DeviceType.kDualRole /\
  GenerateWfdDeviceType [Capability.kSink; Capability.kSource; Capability.kSink]
    = Init DeviceType.kDualRole.
Proof.
  destruct (proj1 (GenerateWfdDeviceType_membership
                     [Capability.kSource; Capability.kSink]
                     [Capability.kSink; Capability.kSource; Capability.kSink])
              ltac:(discriminate))
    as (t & Ht & _ & _ & _ & _ & Hsame).
  injection Ht as <-. split; [reflexivity |].
  apply Hsame. intros []; split; intros _; repeat constructor.
Defined.

(** ** The interface of the P2P device *)

(** X24: [OnInterfaceSelectionDone] ignores an empty path, and it ignores
    every path while there is a stub of the P2P device.  Otherwise it
    creates the management interface and the stub of the P2P device for the
    path, and a selection that follows is ignored: the first interface that
    is selected stays until it is released. *)
Theorem OnInterfaceSelectionDone_spec (path : string) (s : NetworkManager) :
  (path = "" \/ is_Some (p2p_device_ s) ->
   OnInterfaceSelectionDone path s = Done tt s) /\
  (path ≠ "" -> p2p_device_ s = None ->
   OnInterfaceSelectionDone path s =
   Done tt (set_p2p_device_ (Some path) (set_mgmt_interface_ (Some path) s)) /\
   forall path',
     OnInterfaceSelectionDone path'
       (set_p2p_device_ (Some path) (set_mgmt_interface_ (Some path) s)) =
     Done tt (set_p2p_device_ (Some path) (set_mgmt_interface_ (Some path) s))).
Proof.
  assert (Hset : forall path' s', is_Some (p2p_device_ s') ->
            OnInterfaceSelectionDone path' s' = Done tt s').
  { intros path' s' [x Hx]. unfold OnInterfaceSelectionDone, SetupInterface.
    destruct (Nat.eqb (String.length path') 0); srun; reflexivity. }
  split.
  - intros [-> | Hp]; [reflexivity | exact (Hset path s Hp)].
  - intros Hne Hp. split; [| intros path'; apply Hset; pcbn; eauto].
    unfold OnInterfaceSelectionDone, SetupInterface.
    destruct path as [|a path]; [congruence |].
    cbn [String.length Nat.eqb]. srun. reflexivity.
Qed.

Lemma OnInterfaceSelectionDone_spec_witness :
  OnInterfaceSelectionDone "/wpa/if/0" initial =
  Done tt (set_p2p_device_ (Some "/wpa/if/0")
             (set_mgmt_interface_ (Some "/wpa/if/0") initial)) /\
  OnInterfaceSelectionDone "" initial = Done tt initial.
Proof.
  split.
  - apply (proj2 (OnInterfaceSelectionDone_spec "/wpa/if/0" initial));
      [discriminate | reflexivity].
  - apply (proj1 (OnInterfaceSelectionDone_spec "" initial)).
    left. reflexivity.
Defined.

(** ** A session, from [Connect] to the end of the group *)

(** Running a transition of a device that the goal has reached, call by
    call. *)
Ltac scalls :=
  match goal with
  | |- context [(AdvanceDeviceState ?p ?st ≫= _) ?X] =>
      erewrite (bind_run (AdvanceDeviceState p st) _ X)
        by (eapply AdvanceDeviceState_calls;
            [solve_object | first [discriminate | intros _; pcbn; eauto]])
  | |- context [AdvanceDeviceState ?p ?st ?X] =>
      erewrite (AdvanceDeviceState_calls p st _ X)
        by first [solve_object | discriminate | intros _; pcbn; eauto]
  end.

(** X25: in every state the manager reaches with a stub of the P2P device
    and no current device, a session with a registered device runs through:
    an accepted [Connect], the group-started event, the interface-ready
    event of the interface of the group and the address-assigned event
    leave the device Connected, with the role and the remote address
    recorded, the session not available, the connect timeout stopped and
    its source removed, and the DHCP server (for the role GO) or the DHCP
    client created on the interface of the group; every [Connect] is then
    refused.  The group-finished event that follows leaves the device
    Disconnected and no longer current, the session available and no group
    handle and no DHCP object, so that the manager is ready for the next
    [Connect]. *)
Theorem session_cycle (dev : NetworkDevice)
    (group_path interface_path role : string)
    (local_address remote_address : IpV4Address) (s : NetworkManager) :
  reachable s -> is_Some (p2p_device_ s) -> current_device_ s = None ->
  (exists k p d, (k, p) ∈ devices_ s /\ objects s !! p = Some d /\
                 Address d = Address dev) ->
  exists p d s4 s5,
    objects s !! p = Some d /\ Address d = Address dev /\
    run [EvConnect (Some dev) true;
         EvGroupStarted group_path interface_path role;
         EvInterfaceReady interface_path;
         EvDhcpAddressAssigned local_address remote_address] s = Done tt s4 /\
    current_device_ s4 = Some p /\
    objects s4 !! p =
      Some (SetState kConnected (SetIpV4Address remote_address
              (SetRole role (SetState kConfiguration
                 (SetState kAssociation d))))) /\
    session_available_ s4 = false /\
    connect_timeout_ s4 = 0 /\ sources s4 = sources s /\
    (if String.eqb role "GO" then dhcp_server_ s4 = Some interface_path
     else dhcp_client_ s4 = Some interface_path) /\
    (forall device accepted, Connect device accepted s4 = Done false s4) /\
    handle (EvGroupFinished group_path interface_path) s4 = Done tt s5 /\
    current_device_ s5 = None /\
    objects s5 !! p =
      Some (SetState kDisconnected (SetState kConnected
              (SetIpV4Address remote_address
                 (SetRole role (SetState kConfiguration
                    (SetState kAssociation d)))))) /\
    session_available_ s5 = true /\
    current_group_device_ s5 = None /\ current_group_iface_ s5 = None /\
    dhcp_server_ s5 = None /\ dhcp_client_ s5 = None /\
    connect_timeout_ s5 = 0 /\ sources s5 = sources s /\
    p2p_device_ s5 = p2p_device_ s.
Proof.
  intros Hr [x Hp] Hc Hreg. pose proof (reachable_Inv s Hr) as HI.
  pose proof (Sources_next s (reachable_Sources s Hr)) as Hnew.
  destruct (inv_mgmt _ HI (ex_intro _ x Hp)) as [m Hm].
  destruct (FindDevice_registered _ _ HI Hreg)
    as (k & p & d & Hin & Ho & Ha & Hf).
  exists p, d.
  assert (Hrun : exists s4,
    run [EvConnect (Some dev) true;
         EvGroupStarted group_path interface_path role;
         EvInterfaceReady interface_path;
         EvDhcpAddressAssigned local_address remote_address] s = Done tt s4 /\
    s4 =
    set_calls (calls s4)
      (set_session_available_ false
         (set_connect_timeout_ 0
            (set_sources
               (filter (fun y => y ≠ S (last_source s))
                  (sources s ++ [S (last_source s)]))
               ((if String.eqb role "GO"
                 then set_dhcp_server_ (Some interface_path)
                 else set_dhcp_client_ (Some interface_path))
                  (set_current_group_device_ (Some interface_path)
                     (set_current_group_iface_ (Some interface_path)
                        (set_last_source (S (last_source s))
                           (set_objects
                              (alter (SetState kConnected) p
                                 (alter (SetIpV4Address remote_address) p
                                    (alter (SetRole role) p
                                       (alter (SetState kConfiguration) p
                                          (alter (SetState kAssociation) p
                                             (objects s))))))
                              (set_current_device_ (Some p) s)))))))))).
  { cbn [run handle]. rewrite !step_assoc.
    rewrite (bind_run _ _ _ _ _ (Connect_found dev true s x p d Hp Hc Hf Ho)).
    unfold OnGroupStarted, OnInterfaceReady, OnGroupInterfaceReady,
      OnDhcpAddressAssigned, StopConnectTimeout.
    srun. scalls. srun. rewrite String.eqb_refl. srun.
    erewrite step_via by (pcbn; reflexivity). srun.
    destruct (String.eqb role "GO") eqn:Hrole; srun; cbn [Nat.eqb]; srun;
      scalls; srun; (eexists; split; [reflexivity |]); same_state;
      reflexivity. }
  destruct Hrun as (s4 & Hrun & Hs4). exists s4.
  assert (Hfin : exists s5,
    handle (EvGroupFinished group_path interface_path) s4 = Done tt s5 /\
    s5 =
    set_calls (calls s5)
      (set_dhcp_server_ None (set_dhcp_client_ None
         (set_session_available_ true
            (set_current_group_device_ None
               (set_current_group_iface_ None
                  (set_current_device_ None
                     (set_objects
                        (alter (SetState kDisconnected) p (objects s4))
                        s4)))))))).
  { rewrite Hs4. cbn [handle].
    unfold OnGroupFinished, OnGroupFinished_release, StopConnectTimeout.
    destruct (String.eqb role "GO") eqn:Hrole; srun; cbn [Nat.eqb]; srun;
      scalls; srun; (eexists; split; [reflexivity |]); same_state;
      reflexivity. }
  destruct Hfin as (s5 & Hfin & Hs5). exists s5.
  split; [exact Ho |]. split; [exact Ha |]. split; [exact Hrun |].
  assert (Hobj : objects s4 !! p =
      Some (SetState kConnected (SetIpV4Address remote_address
              (SetRole role (SetState kConfiguration
                 (SetState kAssociation d)))))).
  { rewrite Hs4. destruct (String.eqb role "GO"); pcbn;
      rewrite !list_lookup_alter_eq, Ho; reflexivity. }
  assert (Hcur : current_device_ s4 = Some p)
    by (rewrite Hs4; destruct (String.eqb role "GO"); reflexivity).
  split; [exact Hcur |]. split; [exact Hobj |].
  split; [rewrite Hs4; reflexivity |].
  split; [rewrite Hs4; reflexivity |].
  split; [rewrite Hs4; pcbn; apply filter_fresh, Hnew |].
  split; [rewrite Hs4; destruct (String.eqb role "GO"); reflexivity |].
  split; [intros device accepted; apply Connect_in_progress; congruence |].
  split; [exact Hfin |].
  split; [rewrite Hs5; reflexivity |].
  split; [rewrite Hs5; pcbn; rewrite list_lookup_alter_eq, Hobj; reflexivity |].
  do 5 (split; [rewrite Hs5; reflexivity |]).
  split; [rewrite Hs5, Hs4; reflexivity |].
  split; [rewrite Hs5, Hs4; pcbn; apply filter_fresh, Hnew |].
  rewrite Hs5, Hs4. destruct (String.eqb role "GO"); reflexivity.
Qed.

Lemma session_cycle_witness :
  reachable (after idle_events) /\
  is_Some (p2p_device_ (after idle_events)) /\
  current_device_ (after idle_events) = None /\
  exists p s4 s5,
    run [EvConnect (Some deviceX) true;
         EvGroupStarted "/group/1" "/wpa/if/1" "GO";
         EvInterfaceReady "/wpa/if/1";
         EvDhcpAddressAssigned 1 2] (after idle_events) = Done tt s4 /\
    current_device_ s4 = Some p /\ session_available_ s4 = false /\
    handle (EvGroupFinished "/group/1" "/wpa/if/1") s4 = Done tt s5 /\
    current_device_ s5 = None /\ session_available_ s5 = true.
Proof.
  assert (Hr : reachable (after idle_events))
    by (eapply reachable_after; vm_compute; reflexivity).
  assert (Hp : is_Some (p2p_device_ (after idle_events)))
    by (vm_compute; eauto).
  assert (Hc : current_device_ (after idle_events) = None)
    by (vm_compute; reflexivity).
  split; [exact Hr |]. split; [exact Hp |]. split; [exact Hc |].
  destruct (session_cycle deviceX "/group/1" "/wpa/if/1" "GO" 1 2 _ Hr Hp Hc)
    as (p & d & s4 & s5 & _ & _ & H4 & Hc4 & _ & Hs4 & _ & _ & _ & _ &
        H5 & Hc5 & _ & Hs5 & _).
  { exists "/peer/1", 0, deviceX. repeat split.
    vm_compute. constructor. }
  exists p, s4, s5. repeat split; assumption.
Defined.

(** ** The configuration of the P2P device *)

(** X26: [SelectDeviceType] returns sixteen hexadecimal digits for every
    chassis: a category of four digits, the OUI 0050F204 and a sub-category
    of four digits.  The category is 000A for a handset and 0001 for every
    other chassis, and a chassis that the function does not name gets the
    sub-category 0000. *)
Theorem SelectDeviceType_format (hostname_service_ : Hostname1Stub) :
  String.length (SelectDeviceType hostname_service_) = 16 /\
  forallb is_hex_digit
    (list_ascii_of_string (SelectDeviceType hostname_service_)) = true /\
  substring 4 8 (SelectDeviceType hostname_service_) = "0050F204" /\
  substring 0 4 (SelectDeviceType hostname_service_) =
    (if String.eqb (Chassis hostname_service_) "handset"
     then "000A" else "0001") /\
  (Chassis hostname_service_ ∉
     ["handset"; "vm"; "container"; "server"; "laptop"; "desktop"; "tablet";
      "watch"] ->
   SelectDeviceType hostname_service_ = "00010050F2040000").
Proof.
  assert (Hne : forall a l,
            Chassis hostname_service_ ∉ l -> In a l ->
            String.eqb (Chassis hostname_service_) a = false).
  { intros a l Hl Ha. apply String.eqb_neq. intros Heq. apply Hl.
    rewrite Heq. apply list_elem_of_In, Ha. }
  unfold SelectDeviceType.
  repeat split.
  1-4: destruct (String.eqb (Chassis hostname_service_) "handset");
       [reflexivity |];
       destruct (String.eqb (Chassis hostname_service_) "vm");
       [reflexivity |];
       destruct (String.eqb (Chassis hostname_service_) "container");
       [reflexivity |];
       destruct (String.eqb (Chassis hostname_service_) "server");
       [reflexivity |];
       destruct (String.eqb (Chassis hostname_service_) "laptop");
       [reflexivity |];
       destruct (String.eqb (Chassis hostname_service_) "desktop");
       [reflexivity |];
       destruct (String.eqb (Chassis hostname_service_) "tablet");
       [reflexivity |];
       destruct (String.eqb (Chassis hostname_service_) "watch");
       reflexivity.
  intros Hl.
  rewrite !(Hne _ _ Hl) by (cbn [In]; tauto). reflexivity.
Qed.

(** X27: [SelectHostname] returns the first name that is not empty among the
    pretty, the static and the transient host name of the host name service
    and the name of the system call, in this order; it returns the empty
    name only when all four are empty. *)
Theorem SelectHostname_spec (hostname_service_ : Hostname1Stub)
    (gethostname : string) :
  (PrettyHostname hostname_service_ ≠ "" ->
   SelectHostname hostname_service_ gethostname
   = PrettyHostname hostname_service_) /\
  (PrettyHostname hostname_service_ = "" ->
   StaticHostname hostname_service_ ≠ "" ->
   SelectHostname hostname_service_ gethostname
   = StaticHostname hostname_service_) /\
  (PrettyHostname hostname_service_ = "" ->
   StaticHostname hostname_service_ = "" ->
   Hostname hostname_service_ ≠ "" ->
   SelectHostname hostname_service_ gethostname = Hostname hostname_service_) /\
  (PrettyHostname hostname_service_ = "" ->
   StaticHostname hostname_service_ = "" ->
   Hostname hostname_service_ = "" ->
   SelectHostname hostname_service_ gethostname = gethostname) /\
  (SelectHostname hostname_service_ gethostname = "" <->
   PrettyHostname hostname_service_ = "" /\
   StaticHostname hostname_service_ = "" /\
   Hostname hostname_service_ = "" /\ gethostname = "").
Proof.
  unfold SelectHostname.
  destruct hostname_service_ as [[|a1 p] [|a2 st] [|a3 h] c];
    cbn [PrettyHostname StaticHostname Hostname String.length Nat.eqb];
    repeat split; try congruence; try discriminate; intuition discriminate.
Qed.

Lemma SelectHostname_spec_witness :
  SelectHostname
    {| PrettyHostname := ""; StaticHostname := "phone"; Hostname := "localhost";
       Chassis := "handset" |} "fallback" = "phone".
Proof.
  apply (proj1 (proj2 (SelectHostname_spec
           {| PrettyHostname := ""; StaticHostname := "phone";
              Hostname := "localhost"; Chassis := "handset" |} "fallback")));
    [reflexivity | discriminate].
Defined.

Lemma SelectDeviceType_format_witness :
  SelectDeviceType
    {| PrettyHostname := "box"; StaticHostname := "box"; Hostname := "box";
       Chassis := "embedded" |} = "00010050F2040000".
Proof.
  apply (proj2 (proj2 (proj2 (proj2
           (SelectDeviceType_format
              {| PrettyHostname := "box"; StaticHostname := "box";
                 Hostname := "box"; Chassis := "embedded" |}))))).
  intros H. repeat (apply elem_of_cons in H as [H | H]; [discriminate |]).
  inversion H.
Defined.

(** ** The frequencies that are logged *)

Lemma append_cons x (a b : string) :
  String.append (String x a) b = String x (String.append a b).
Proof. reflexivity. Qed.

Lemma append_assoc (a b c : string) :
  String.append (String.append a b) c = String.append a (String.append b c).
Proof.
  induction a as [|x a IH]; [reflexivity |].
  rewrite !append_cons, IH. reflexivity.
Qed.

Lemma append_empty_r (a : string) : String.append a "" = a.
Proof.
  induction a as [|x a IH]; [reflexivity |].
  rewrite !append_cons, IH. reflexivity.
Qed.

(** The loop appends each frequency, and the separator after it when the
    comparison of the counter, which the loop never advances, holds. *)
Lemma frequencies_loop_closed Sprintf_d n size frequencies stream :
  frequencies_loop Sprintf_d n size frequencies stream =
  String.append stream
    (fold_right String.append ""
       (map (fun freq =>
               String.append (Sprintf_d freq)
                 (if Z.ltb (n mod 2 ^ 64) ((size - 1) mod 2 ^ 64)
                  then "," else ""))
          frequencies)).
Proof.
  revert stream.
  induction frequencies as [|freq rest IH]; intros stream;
    cbn [frequencies_loop map fold_right].
  - symmetry. apply append_empty_r.
  - rewrite IH.
    destruct (Z.ltb (n mod 2 ^ 64) ((size - 1) mod 2 ^ 64));
      rewrite ?append_assoc, ?append_empty_r; reflexivity.
Qed.

(** X28: the text that [OnGroupOwnerNegotiationSuccess] builds from the
    frequencies of the result has a comma after every frequency, the last
    one included, when there are two frequencies or more, and no comma when
    there is one: the counter that the loop compares with the size is never
    advanced. *)
Theorem intersect_freqs_separator (Sprintf_d : Z -> string)
    (frequencies : list Z) :
  (Z.of_nat (length frequencies) < 2 ^ 64)%Z ->
  (length frequencies <= 1 ->
   intersect_freqs Sprintf_d frequencies =
   fold_right String.append "" (map Sprintf_d frequencies)) /\
  (2 <= length frequencies ->
   intersect_freqs Sprintf_d frequencies =
   fold_right String.append ""
     (map (fun freq => String.append (Sprintf_d freq) ",") frequencies)).
Proof.
  intros Hsize. unfold intersect_freqs. rewrite frequencies_loop_closed.
  change (String.append "" ?x) with x.
  rewrite Z.mod_0_l by lia. split; intros Hlen.
  - destruct frequencies as [|freq [|freq' rest]]; cbn [length] in Hlen;
      [reflexivity | | lia].
    cbn [length Z.of_nat map fold_right]. rewrite !append_empty_r.
    reflexivity.
  - assert (Hlt : (0 <? (Z.of_nat (length frequencies) - 1) mod 2 ^ 64)%Z
                  = true).
    { apply Z.ltb_lt. rewrite Z.mod_small by lia. lia. }
    rewrite Hlt. reflexivity.
Qed.

Lemma intersect_freqs_separator_witness :
  intersect_freqs (fun freq => if Z.eqb freq 2412 then "2412" else "5180")
    [2412%Z; 5180%Z] = "2412,5180,".
Proof.
  apply (proj2 (intersect_freqs_separator
                  (fun freq => if Z.eqb freq 2412 then "2412" else "5180")
                  [2412%Z; 5180%Z] ltac:(cbn; lia))).
  cbn. lia.
Defined.

(** ** The timeout without a device *)

(** X29: in every state the manager reaches, the callback of a pending
    timeout source calls through the null [current_device_] when no device
    is current, as after [Release] during a connection attempt; with a
    current device it returns, and the handle of the timeout is zero and
    the source no longer pending afterwards, whichever source it was. *)
Theorem ConnectTimeout_returns (id : nat) (s : NetworkManager) :
  reachable s -> id ∈ sources s ->
  (current_device_ s = None ->
   dispatch_source id s = Stopped (NullDeref h_current_device_)) /\
  (is_Some (current_device_ s) ->
   exists s',
     dispatch_source id s = Done tt s' /\
     connect_timeout_ s' = 0 /\ id ∉ sources s').
Proof.
  intros Hr Hid. apply reachable_Inv in Hr. split.
  - intros Hc. unfold dispatch_source, OnConnectTimeout. srun.
    rewrite bool_decide_eq_true_2 by exact Hid. srun. reflexivity.
  - intros [p Hc]. destruct (inv_current _ Hr _ Hc) as [[d Ho] Hp].
    destruct (ConnectTimeout_run id s p d Hid Hc Ho) as [H1 H2].
    destruct (decide (State d = kConnected)) as [Hs | Hs1];
      [| destruct (decide (State d = kConfiguration)) as [Hs | Hs2]].
    + destruct (H1 (or_introl Hs)) as [_ H]. eexists. split; [exact H |].
      pcbn. split; [reflexivity |]. rewrite list_elem_of_filter. tauto.
    + destruct (H1 (or_intror Hs)) as [_ H]. eexists. split; [exact H |].
      pcbn. split; [reflexivity |]. rewrite list_elem_of_filter. tauto.
    + destruct (H2 Hs1 Hs2 Hp) as (s' & H & _ & _ & _ & _ & Ht & Hn).
      exists s'. split; [exact H |]. split; assumption.
Qed.

Lemma ConnectTimeout_returns_witness :
  reachable (after (association_events ++ [EvRelease])) /\
  1 ∈ sources (after (association_events ++ [EvRelease])) /\
  current_device_ (after (association_events ++ [EvRelease])) = None /\
  dispatch_source 1 (after (association_events ++ [EvRelease]))
    = Stopped (NullDeref h_current_device_).
Proof.
  assert (Hr : reachable (after (association_events ++ [EvRelease])))
    by (eapply reachable_after; vm_compute; reflexivity).
  assert (Hid : 1 ∈ sources (after (association_events ++ [EvRelease])))
    by (vm_compute; constructor).
  assert (Hc : current_device_ (after (association_events ++ [EvRelease]))
               = None) by (vm_compute; reflexivity).
  split; [exact Hr |]. split; [exact Hid |]. split; [exact Hc |].
  exact (proj1 (ConnectTimeout_returns 1 _ Hr Hid) Hc).
Defined.

(** ** The address of a Connected device *)

Lemma Addressed_frame s s' :
  objects s' = objects s -> Addressed s -> Addressed s'.
Proof. unfold Addressed. intros ->. trivial. Qed.

(** A setter that leaves a device as it is or not Connected, or with an
    address. *)
Lemma Addressed_alter f p s :
  (forall d, (State (f d) = State d /\ IpAddress (f d) = IpAddress d) \/
             State (f d) ≠ kConnected \/ is_Some (IpAddress (f d))) ->
  Addressed s -> Addressed (set_objects (alter f p (objects s)) s).
Proof.
  intros Hf HA q d. pcbn. destruct (decide (p = q)) as [<- | Hne].
  - rewrite list_lookup_alter_eq.
    destruct (objects s !! p) as [d0|] eqn:Ho; [| discriminate].
    intros H. injection H as <-. intros Hst.
    destruct (Hf d0) as [[H1 H2] | [H | H]]; [| contradiction | exact H].
    rewrite H2. apply (HA p d0 Ho). congruence.
  - rewrite list_lookup_alter_ne by exact Hne. apply HA.
Qed.

Ltac Addressed_side :=
  let s := fresh "s" in
  let H := fresh "H" in
  intros s H;
  first [ apply Addressed_alter;
          [intros [];
           first [ left; split; reflexivity
                 | right; left; discriminate
                 | right; right; eexists; reflexivity ]
          | exact H]
        | apply (Addressed_frame s); [reflexivity | exact H] ].

Lemma Addressed_OnDeviceFound path address :
  preserves Addressed (OnDeviceFound path address).
Proof.
  intros s [] s' HA. unfold OnDeviceFound. srun.
  destruct (map_find path (devices_ s)); srun; intros H; injection H as <-;
    [exact HA |].
  intros q d. pcbn. intros Ho Hst.
  apply lookup_app_Some in Ho as [Ho | [_ Ho]]; [exact (HA q d Ho Hst) |].
  apply list_lookup_singleton_Some in Ho as [_ <-]. discriminate.
Qed.

Lemma Addressed_StartConnectTimeout : preserves Addressed StartConnectTimeout.
Proof.
  intros s [] s' HA. unfold StartConnectTimeout. srun.
  intros H. injection H as <-.
  apply (Addressed_frame s); [reflexivity | exact HA].
Qed.

Lemma Addressed_StopConnectTimeout : preserves Addressed StopConnectTimeout.
Proof.
  unfold StopConnectTimeout, g_source_remove.
  repeat keep_step Addressed_side.
Qed.

(** The transition to Connected follows the assignment of the address. *)
Lemma Addressed_OnDhcpAddressAssigned local_address remote_address :
  preserves Addressed (OnDhcpAddressAssigned local_address remote_address).
Proof.
  intros s [] s' HA H.
  destruct (OnDhcpAddressAssigned_run local_address remote_address s)
    as (H1 & H2 & H3).
  destruct (current_device_ s) as [p|] eqn:Hc;
    [| rewrite (H1 eq_refl) in H; injection H as <-; exact HA].
  destruct (objects s !! p) as [d|] eqn:Ho.
  - destruct (decide (State d = kConfiguration)) as [Hst | Hst].
    + destruct (H3 p d eq_refl Ho Hst) as (s1 & Hs1 & Hp & Hq & _).
      rewrite Hs1 in H. injection H as <-.
      intros q d' Ho' Hst'. destruct (decide (q = p)) as [-> | Hne].
      * rewrite Hp in Ho'. injection Ho' as <-. eexists. reflexivity.
      * rewrite (Hq q Hne) in Ho'. exact (HA q d' Ho' Hst').
    + rewrite (H2 p d eq_refl Ho Hst) in H. injection H as <-. exact HA.
  - unfold OnDhcpAddressAssigned in H. revert H. srun.
    erewrite step_load_stop by exact Ho. discriminate.
Qed.

Lemma Addressed_handle e : preserves Addressed (handle e).
Proof.
  destruct e;
    try (apply Addressed_OnDhcpAddressAssigned);
    keep Addressed_side;
    repeat first [ apply Addressed_StartConnectTimeout
                 | apply Addressed_StopConnectTimeout
                 | apply Addressed_OnDeviceFound
                 | progress unfold OnDeviceLost, g_source_remove
                 | keep_step Addressed_side ].
Qed.

(** X30: in every state the manager reaches, a device that is Connected has
    the address of the IP layer that the DHCP exchange assigned to it. *)
Theorem Connected_has_address (s : NetworkManager) (q : DevicePtr)
    (d : NetworkDevice) :
  reachable s -> objects s !! q = Some d -> State d = kConnected ->
  is_Some (IpAddress d).
Proof.
  intros Hr. revert q d.
  induction Hr as [|s e s' _ IH H].
  - intros q d Ho. destruct q; discriminate.
  - exact (Addressed_handle e s tt s' IH H).
Qed.

Lemma Connected_has_address_witness :
  reachable (after connected_events) /\
  exists d,
    objects (after connected_events) !! 0 = Some d /\
    State d = kConnected /\ is_Some (IpAddress d).
Proof.
  assert (Hr : reachable (after connected_events))
    by (eapply reachable_after; vm_compute; reflexivity).
  split; [exact Hr |].
  assert (Ho : objects (after connected_events) !! 0
    = Some (SetState kConnected (SetIpV4Address 2 (SetRole "GO"
              (SetState kConfiguration (SetState kAssociation deviceX))))))
    by (vm_compute; reflexivity).
  eexists. split; [exact Ho |]. split; [reflexivity |].
  exact (Connected_has_address _ 0 _ Hr Ho eq_refl).
Defined.
